(** * NEXNews: the dual-store ingestion and retrieval pipeline

    A shallow embedding of [app/classifier.py], [app/embeddings.py],
    [app/collector.py] ([NewsCollector.save_articles]), [app/database.py]
    ([Article]) and [app/api.py] ([search_news]).

    Modelling conventions.
    - Python code that raises, catches and mutates is written in a state and
      exception monad [M S]: a computation takes a state and gives back an
      outcome ([Ok v] or [Raised e]) with the state reached.  A raise keeps
      the state changes made before it, as in Python.
    - The two stores and the two OpenAI adapters are external.  The SQLite
      table is a list of rows in insertion order, the ChromaDB collection a
      list of records in insertion order.  What the outside world decides
      (the model's answers, random picks, write failures, the clock) is an
      oracle [Env]; every oracle sees the [trace] of external calls made so
      far, so an adapter may answer differently on each call.
    - Writes to either store may fail; reads of the stores, and opening
      and closing a session, are taken to succeed.
    - Python floats (embedding components, distances, scores) are modelled
      as exact rationals [Q].
    - Log records at WARNING and ERROR level are kept, and so is the INFO
      summary of the reconciler; the remaining DEBUG and INFO lines are
      left out. *)

From Stdlib Require Import ZArith QArith String Ascii List Lia.
From Stdlib Require Import Decimal DecimalString DecimalZ.
From stdpp Require Import base option list strings gmap.

Local Open Scope string_scope.
Local Open Scope Z_scope.

(** ** Python values *)

Module Py.

(** [str(n)] for an [int]. *)
Definition str (n : Z) : string := NilEmpty.string_of_int (Z.to_int n).

(** [int(s)] for a [str], on the spellings made of an optional minus sign
    and decimal digits; [None] stands for [ValueError].  The other
    spellings Python accepts (surrounding blanks, a plus sign, underscores)
    do not occur: identifiers are written by [str]. *)
Definition int (s : string) : option Z :=
  match NilEmpty.int_of_string s with
  | Some (Decimal.Pos Nil) | Some (Decimal.Neg Nil) | None => None
  | Some d => Some (Z.of_int d)
  end.

(** Truthiness of a [str]: the empty string is falsy. *)
Definition truthy (s : string) : bool :=
  match s with EmptyString => false | String _ _ => true end.

(** Truthiness of a [str | None]: [None] and the empty string are falsy. *)
Definition truthy_opt (o : option string) : bool :=
  match o with None => false | Some s => truthy s end.

(** [s[:n]] for a bound [n] that is not negative. *)
Definition take (n : Z) (s : string) : string := substring 0 (Z.to_nat n) s.

(** [o or ""]. *)
Definition or_empty (o : option string) : string :=
  match o with
  | Some s => if truthy s then s else ""
  | None => ""
  end.

(** [sep.join(l)]. *)
Fixpoint join (sep : string) (l : list string) : string :=
  match l with
  | [] => ""
  | [s] => s
  | s :: rest => s ++ sep ++ join sep rest
  end.

(** [x in l] for a list of strings. *)
Definition mem (x : string) (l : list string) : bool :=
  existsb (String.eqb x) l.

(** [x in l] for a [str | None] and a list of strings. *)
Definition mem_opt (x : option string) (l : list string) : bool :=
  match x with
  | Some s => mem s l
  | None => false
  end.

(** What a function call evaluates to when the callee's result is not a
    typed value of the model: [None] or an [int]. *)
Inductive object :=
| None_
| Int (n : Z).

End Py.

Definition newline : string := String (ascii_of_nat 10) "".

(** ** Configuration ([app/config.py]) *)

Record Settings := {
  openai_api_key : string;
  news_categories : list string
}.

(** The defaults of the class [Settings]; the environment may override
    them, so the program below takes its [settings] as a parameter. *)
Definition Settings_defaults : Settings := {|
  openai_api_key := "";
  news_categories :=
    [ "Cybersecurity";
      "Artificial Intelligence & Emerging Tech";
      "Software & Development";
      "Hardware & Devices";
      "Tech Industry & Business";
      "Other" ]
|}.

(** ** Data model *)

(** Timestamps are opaque; only their presence matters here. *)
Definition datetime := Z.

(** A row of the [articles] table ([app/database.py], class [Article]). *)
Module Article.
Record t := {
  id : Z;
  title : string;
  url : string;
  summary : option string;
  source : string;
  category : option string;
  published_date : option datetime;
  created_at : datetime
}.
End Article.

(** The keyword arguments of [Article(...)]: an object not yet flushed, so
    without [id] and [created_at]. *)
Record ArticleInit := {
  init_title : string;
  init_url : string;
  init_summary : option string;
  init_source : string;
  init_category : option string;
  init_published_date : option datetime
}.

(** [Article.to_dict()]. *)
Record ArticleDict := {
  d_id : Z;
  d_title : string;
  d_url : string;
  d_summary : option string;
  d_source : string;
  d_category : option string;
  d_published_date : option datetime;
  d_created_at : option datetime
}.

Definition to_dict (self : Article.t) : ArticleDict := {|
  d_id := Article.id self;
  d_title := Article.title self;
  d_url := Article.url self;
  d_summary := Article.summary self;
  d_source := Article.source self;
  d_category := Article.category self;
  d_published_date := Article.published_date self;
  d_created_at := Some (Article.created_at self)
|}.

(** One element of the list handed over by [collect_from_rss]: the keys
    [title], [url] and [source] are read with [d[k]], [summary] and
    [published_date] with [d.get(k, ...)], so those two may be missing. *)
Record ArticleData := {
  data_title : string;
  data_url : string;
  data_summary : option string;
  data_source : string;
  data_published_date : option datetime
}.

(** The metadata stored with an embedding ([add_article]).  The category
    is whatever the caller passes, [None] included. *)
Record Metadata := {
  meta_title : string;
  meta_category : option string;
  meta_source : string
}.

(** One record of the ChromaDB collection [articles]. *)
Record Embedding := {
  emb_id : string;
  emb_vector : list Q;
  emb_metadata : Metadata;
  emb_document : string
}.

(** ** The outside world *)

Inductive Event :=
| EvResponsesParse (input : string)
| EvRandomChoice
| EvEmbeddingsCreate (input : string)
| EvSqlInsert (url : string)
| EvSqlRollback
| EvSqlSelect
| EvCollectionGet
| EvCollectionCount
| EvCollectionAdd (id : string)
| EvCollectionQuery.

Inductive LogRecord :=
| WarnInvalidCategory (category : string)
| ErrClassifying
| ErrCreatingEmbedding
| WarnEmbeddingFailed (article_id : Z)
| ErrAddingEmbedding (article_id : Z)
| WarnQueryEmbeddingFailed
| ErrSemanticSearch
| InfoSyncComplete (db_count missing_count : Z)
| ErrSyncing
| ErrSavingArticle.

(** [output_parsed] of [client.responses.parse], a [CategoryClassification]. *)
Record CategoryClassification := {
  cc_category : string;
  cc_confidence : string
}.

Inductive exn :=
| IntegrityError
| OperationalError
| IndexError
| ValueError
| APIError
| ChromaError
| HTTPException (status_code : Z) (detail : string).

Record Env := {
  (** [client.responses.parse(instructions=..., input=...)]: [None] when the
      call raises. *)
  responses_parse : list Event -> string -> string -> option CategoryClassification;
  (** the random draw behind [random.choice]. *)
  random_index : list Event -> nat;
  (** [client.embeddings.create(input=...)]: [None] when the call raises,
      otherwise [response.data[0].embedding]. *)
  embeddings_create : list Event -> string -> option (list Q);
  (** a write to SQLite failing for a reason other than a constraint. *)
  commit_fails : list Event -> ArticleInit -> bool;
  (** a write to ChromaDB failing. *)
  collection_add_fails : list Event -> Embedding -> bool;
  (** [datetime.now(timezone.utc)]. *)
  utcnow : list Event -> datetime
}.

(** Both stores, the external calls made so far (most recent first) and
    the log (most recent first). *)
Record World := {
  articles : list Article.t;
  collection : list Embedding;
  trace : list Event;
  log : list LogRecord
}.

(** ** The monad *)

Inductive Result (A : Type) :=
| Ok (a : A)
| Raised (e : exn).
Arguments Ok {A} a.
Arguments Raised {A} e.

Definition M (S A : Type) : Type := S -> Result A * S.

Definition ret {S A} (a : A) : M S A := fun s => (Ok a, s).

Definition bind {S A B} (m : M S A) (k : A -> M S B) : M S B :=
  fun s => match m s with
           | (Ok a, s') => k a s'
           | (Raised e, s') => (Raised e, s')
           end.

Definition raise {S A} (e : exn) : M S A := fun s => (Raised e, s).

(** [try: m  except Exception as e: h e]. *)
Definition try_except {S A} (m : M S A) (h : exn -> M S A) : M S A :=
  fun s => match m s with
           | (Ok a, s') => (Ok a, s')
           | (Raised e, s') => h e s'
           end.

(** [try: m  finally: f]. *)
Definition try_finally {S A} (m : M S A) (f : M S unit) : M S A :=
  fun s => match m s with
           | (r, s') =>
               match f s' with
               | (Ok _, s'') => (r, s'')
               | (Raised e, s'') => (Raised e, s'')
               end
           end.

Definition gets {S A} (f : S -> A) : M S A := fun s => (Ok (f s), s).
Definition modify {S} (f : S -> S) : M S unit := fun s => (Ok tt, f s).

Declare Scope py_scope.
Delimit Scope py_scope with py.
Notation "x <- m ;; k" := (bind m (fun x => k))
  (at level 100, m at next level, right associativity) : py_scope.
Notation "m ;;; k" := (bind m (fun _ => k))
  (at level 100, right associativity) : py_scope.
Local Open Scope py_scope.

(** The four ways the code changes the world. *)
Definition add_event (e : Event) (w : World) : World :=
  {| articles := articles w; collection := collection w;
     trace := e :: trace w; log := log w |}.

Definition add_log (r : LogRecord) (w : World) : World :=
  {| articles := articles w; collection := collection w;
     trace := trace w; log := r :: log w |}.

Definition put_articles (rows : list Article.t) (w : World) : World :=
  {| articles := rows; collection := collection w;
     trace := trace w; log := log w |}.

Definition put_collection (c : list Embedding) (w : World) : World :=
  {| articles := articles w; collection := c;
     trace := trace w; log := log w |}.

(** Record an external call. *)
Definition emit (e : Event) : M World unit := modify (add_event e).

(** [logger.warning(...)], [logger.error(...)], and the one [logger.info]
    that is kept. *)
Definition logger (r : LogRecord) : M World unit := modify (add_log r).

Definition set_articles (rows : list Article.t) : M World unit :=
  modify (put_articles rows).

Definition set_collection (c : list Embedding) : M World unit :=
  modify (put_collection c).

(** ** The stores *)

Section Stores.

Context (env : Env) (settings : Settings).

(** *** SQLite through a SQLAlchemy session

    A [Session] holds the objects added and not yet flushed.  The primary
    key [id] is an [INTEGER PRIMARY KEY] without [AUTOINCREMENT]: SQLite
    gives a new row the largest id in the table plus one, and 1 in an empty
    table. *)

Definition next_id (rows : list Article.t) : Z :=
  match rows with
  | [] => 1
  | r :: rest => 1 + fold_right Z.max (Article.id r) (map Article.id rest)
  end.

Definition url_exists (u : string) (rows : list Article.t) : bool :=
  existsb (fun r => String.eqb (Article.url r) u) rows.

Definition new_row (rows : list Article.t) (now : datetime) (a : ArticleInit)
  : Article.t := {|
  Article.id := next_id rows;
  Article.title := init_title a;
  Article.url := init_url a;
  Article.summary := init_summary a;
  Article.source := init_source a;
  Article.category := init_category a;
  Article.published_date := init_published_date a;
  Article.created_at := now
|}.

(** The INSERTs of one flush, in order, inside one transaction: the unique
    index on [url] raises [IntegrityError], any other failure is an
    [OperationalError], and a failure leaves the table as it was. *)
Fixpoint flush (tr : list Event) (pending : list ArticleInit)
    (rows : list Article.t) : exn + list Article.t :=
  match pending with
  | [] => inr rows
  | a :: rest =>
      if url_exists (init_url a) rows then inl IntegrityError
      else if commit_fails env tr a then inl OperationalError
      else flush tr rest (rows ++ [new_row rows (utcnow env tr) a])
  end.

(** The local variables of [save_articles] that outlive an exception: the
    session and the counter. *)
Record Frame := {
  world : World;
  session_new : list ArticleInit;
  saved_count : Z
}.

(** Run a computation on the stores from inside [save_articles]. *)
Definition zoom {A} (m : M World A) : M Frame A :=
  fun f => match m (world f) with
           | (r, w) => (r, {| world := w; session_new := session_new f;
                              saved_count := saved_count f |})
           end.

(** [session.add(article)]. *)
Definition session_add (a : ArticleInit) : M Frame unit :=
  modify (fun f => {| world := world f; session_new := session_new f ++ [a];
                      saved_count := saved_count f |}).

(** [session.commit()]. *)
Definition session_commit : M Frame unit :=
  pending <- gets session_new ;;
  tr <- gets (fun f => trace (world f)) ;;
  rows <- gets (fun f => articles (world f)) ;;
  zoom (emit (EvSqlInsert (Py.join "," (map init_url pending)))) ;;;
  match flush tr pending rows with
  | inl e => raise e
  | inr rows' =>
      zoom (set_articles rows') ;;;
      modify (fun f => {| world := world f; session_new := [];
                          saved_count := saved_count f |})
  end.

(** [session.rollback()]. *)
Definition session_rollback : M Frame unit :=
  zoom (emit EvSqlRollback) ;;;
  modify (fun f => {| world := world f; session_new := [];
                      saved_count := saved_count f |}).

(** Reading an attribute of [article] after the commit: the session has
    expired the object and reloads its row, found here by its URL, which
    the unique index makes a key. *)
Definition session_refresh (a : ArticleInit) : M World Article.t :=
  emit EvSqlSelect ;;;
  rows <- gets articles ;;
  match find (fun r => String.eqb (Article.url r) (init_url a)) rows with
  | Some r => ret r
  | None => raise OperationalError
  end.

(** [session.query(Article).all()]. *)
Definition query_all : M World (list Article.t) :=
  emit EvSqlSelect ;;; gets articles.

(** [session.query(Article).filter(Article.id == i).first()], for an
    identifier [i] of the 64-bit range; beyond it the driver raises
    [OverflowError], which is not modelled. *)
Definition query_by_id (i : Z) : M World (option Article.t) :=
  emit EvSqlSelect ;;;
  rows <- gets articles ;;
  ret (find (fun r => Z.eqb (Article.id r) i) rows).

(** SQLite's [LIMIT k], for a [k] of the 64-bit range: a negative [k]
    means no limit.  Beyond that range the driver raises [OverflowError],
    which is not modelled. *)
Definition sql_limit {A} (k : Z) (l : list A) : list A :=
  if k <? 0 then l else firstn (Z.to_nat k) l.

(** [session.query(Article).filter(Article.category == c).limit(k).all()]:
    a row with a NULL category matches no [c]. *)
Definition query_by_category (c : option string) (k : Z)
  : M World (list Article.t) :=
  emit EvSqlSelect ;;;
  rows <- gets articles ;;
  ret (sql_limit k
         (List.filter
            (fun r => match Article.category r, c with
                      | Some x, Some y => String.eqb x y
                      | _, _ => false
                      end) rows)).

(** *** The ChromaDB collection

    The collection is created without [hnsw:space], so distances are
    ChromaDB's default, the squared Euclidean distance; it is computed
    here on exact rationals, where ChromaDB computes it on floats of 32
    bits. *)

Fixpoint l2 (a b : list Q) : Q :=
  match a, b with
  | x :: a', y :: b' => ((x - y) * (x - y) + l2 a' b')%Q
  | _, _ => 0%Q
  end.

(** One hit of a query: identifier, distance and metadata. *)
Definition Hit : Type := string * Q * Metadata.
Definition hit_id (h : Hit) : string := fst (fst h).
Definition hit_distance (h : Hit) : Q := snd (fst h).

(** Nearest first; hits at the same distance keep their stored order. *)
Fixpoint insert_hit (h : Hit) (l : list Hit) : list Hit :=
  match l with
  | [] => [h]
  | h' :: rest =>
      if Qle_bool (hit_distance h) (hit_distance h') then h :: h' :: rest
      else h' :: insert_hit h rest
  end.

Definition nearest_first (l : list Hit) : list Hit :=
  fold_right insert_hit [] l.

(** [collection.get(ids=...)['ids']]. *)
Definition collection_get (ids : list string) : M World (list string) :=
  emit EvCollectionGet ;;;
  c <- gets collection ;;
  ret (List.filter (fun i => Py.mem i ids) (map emb_id c)).

(** [collection.get()['ids']]: every identifier. *)
Definition collection_get_all : M World (list string) :=
  emit EvCollectionGet ;;;
  c <- gets collection ;;
  ret (map emb_id c).

(** [collection.count()]. *)
Definition collection_count : M World Z :=
  emit EvCollectionCount ;;;
  c <- gets collection ;;
  ret (Z.of_nat (length c)).

(** [collection.add(ids=[i], embeddings=[v], metadatas=[m], documents=[d])].
    Modelled as a plain append: no identifier check of the collection's own
    is relied upon. *)
Definition collection_add (e : Embedding) : M World unit :=
  tr <- gets trace ;;
  emit (EvCollectionAdd (emb_id e)) ;;;
  if collection_add_fails env tr e then raise ChromaError
  else c <- gets collection ;; set_collection (c ++ [e]).

(** What [collection.query] returns for one query vector. *)
Record QueryResult := {
  ids : list (list string);
  distances : option (list (list Q));
  metadatas : option (list (list Metadata))
}.

Definition where_matches (where_filter : option string) (e : Embedding) : bool :=
  match where_filter with
  | None => true
  | Some c => match meta_category (emb_metadata e) with
              | Some c' => String.eqb c' c
              | None => false
              end
  end.

(** The hits of a query: the [n] nearest records among those the filter
    keeps.  Records at the same distance come in stored order here;
    ChromaDB promises no order among them. *)
Definition query_hits (c : list Embedding) (q : list Q) (n_results : Z)
    (where_filter : option string) : list Hit :=
  firstn (Z.to_nat n_results)
    (nearest_first
       (map (fun e => (emb_id e, l2 q (emb_vector e), emb_metadata e))
          (List.filter (where_matches where_filter) c))).

(** The columns ChromaDB returns for the hits of one query vector. *)
Definition query_result (hits : list Hit) : QueryResult :=
  {| ids := [map hit_id hits];
     distances := Some [map hit_distance hits];
     metadatas := Some [map snd hits] |}.

(** Every stored vector has the dimension of the query vector. *)
Definition same_dimension (c : list Embedding) (q : list Q) : bool :=
  forallb (fun e => Nat.eqb (length (emb_vector e)) (length q)) c.

(** [collection.query(query_embeddings=[q], n_results=n, where=...)].
    ChromaDB refuses a number of results that is not positive, and a query
    vector whose dimension differs from the stored vectors.  It also
    refuses a number of results of [2 ^ 32] or more, which is not
    modelled. *)
Definition collection_query (q : list Q) (n_results : Z)
    (where_filter : option string) : M World QueryResult :=
  emit EvCollectionQuery ;;;
  c <- gets collection ;;
  if n_results <=? 0 then raise ValueError
  else if negb (same_dimension c q) then raise ChromaError
  else ret (query_result (query_hits c q n_results where_filter)).

End Stores.

(** ** The application *)

Section Application.

Context (env : Env) (settings : Settings).

(** *** [app/classifier.py] *)

Record ClassificationService := { mock_mode : bool }.

(** [ClassificationService.__init__]: mock mode is forced when no API key
    is configured. *)
Definition ClassificationService_init (mock_mode : bool)
  : ClassificationService :=
  {| mock_mode := mock_mode || negb (Py.truthy (openai_api_key settings)) |}.

Definition fallback_category : string := "Software & Development".

(** [random.choice(settings.news_categories)]. *)
Definition _mock_classify : M World string :=
  tr <- gets trace ;;
  emit EvRandomChoice ;;;
  match news_categories settings with
  | [] => raise IndexError
  | c :: rest =>
      ret (nth (random_index env tr mod length (c :: rest))%nat (c :: rest) c)
  end.

Definition instructions (categories_str : string) : string :=
  "You are a precise news categorization assistant. " ++ newline ++
  "Analyze articles and classify them into ONE of these categories: " ++
  categories_str ++ "." ++ newline ++
  "Provide the category name and your confidence level (high, medium, or low).".

(** [client.responses.parse(...)] followed by [response.output_parsed]. *)
Definition client_responses_parse (instr input : string)
  : M World CategoryClassification :=
  tr <- gets trace ;;
  emit (EvResponsesParse input) ;;;
  match responses_parse env tr instr input with
  | Some classification => ret classification
  | None => raise APIError
  end.

Definition classify_article (self : ClassificationService)
    (title summary : string) : M World string :=
  if mock_mode self then _mock_classify
  else
    try_except
      (let content := "Title: " ++ title in
       let content :=
         if Py.truthy summary
         then content ++ newline ++ "Summary: " ++ summary
         else content in
       let categories_str := Py.join ", " (news_categories settings) in
       classification <- client_responses_parse (instructions categories_str) content ;;
       let category := cc_category classification in
       category <-
         (if negb (Py.mem category (news_categories settings))
          then logger (WarnInvalidCategory category) ;;; ret fallback_category
          else ret category) ;;
       ret category)
      (fun e => logger ErrClassifying ;;; ret fallback_category).

(** The global [classifier = ClassificationService()]. *)
Definition classifier : ClassificationService := ClassificationService_init false.

(** *** [app/embeddings.py] *)

Definition create_embedding (text : string) : M World (list Q) :=
  try_except
    (tr <- gets trace ;;
     emit (EvEmbeddingsCreate (Py.take 8000 text)) ;;;
     match embeddings_create env tr (Py.take 8000 text) with
     | Some embedding => ret embedding
     | None => raise APIError
     end)
    (fun e => logger ErrCreatingEmbedding ;;; ret []).

Definition nonempty {A} (l : list A) : bool :=
  match l with [] => false | _ :: _ => true end.

Definition add_article (article_id : Z) (title summary : string)
    (category : option string) (source : string) : M World unit :=
  try_except
    (let text := title ++ ". " ++ summary in
     existing <- collection_get [Py.str article_id] ;;
     if nonempty existing then ret tt
     else
       embedding <- create_embedding text ;;
       if negb (nonempty embedding)
       then logger (WarnEmbeddingFailed article_id) ;;; ret tt
       else
         collection_add env
           {| emb_id := Py.str article_id;
              emb_vector := embedding;
              emb_metadata := {| meta_title := Py.take 200 title;
                                 meta_category := category;
                                 meta_source := source |};
              emb_document := Py.take 1000 text |})
    (fun e => logger (ErrAddingEmbedding article_id) ;;; ret tt).

(** One element of the list [search] returns; [metadata] is [None] for the
    empty dict. *)
Record Match := {
  article_id : Z;
  score : Q;
  metadata : option Metadata
}.

(** [l[i]], raising [IndexError] out of range. *)
Definition index {S A} (l : list A) (i : nat) : M S A :=
  match nth_error l i with
  | Some x => ret x
  | None => raise IndexError
  end.

(** The loop [for i, article_id in enumerate(results['ids'][0])], from
    index [i] on. *)
Fixpoint format_results (results : QueryResult) (i : nat)
    (rest : list string) (matches : list Match) : M World (list Match) :=
  match rest with
  | [] => ret matches
  | article_id :: rest' =>
      score <-
        match distances results with
        | Some (d0 :: ds) =>
            row <- index (d0 :: ds) 0 ;;
            d <- index row i ;;
            ret (1 - d)%Q
        | _ => ret 0%Q
        end ;;
      id <-
        match Py.int article_id with
        | Some n => ret n
        | None => raise ValueError
        end ;;
      meta <-
        match metadatas results with
        | Some (m0 :: ms) =>
            row <- index (m0 :: ms) 0 ;;
            m <- index row i ;;
            ret (Some m)
        | _ => ret None
        end ;;
      format_results results (S i) rest'
        (matches ++ [{| article_id := id; score := score; metadata := meta |}])
  end.

(** [{"category": category} if category else None]: the filter is the
    category when there is one. *)
Definition where_of (category : option string) : option string :=
  if Py.truthy_opt category then category else None.

Definition search (query : string) (category : option string) (limit : Z)
  : M World (list Match) :=
  try_except
    (query_embedding <- create_embedding query ;;
     if negb (nonempty query_embedding)
     then logger WarnQueryEmbeddingFailed ;;; ret []
     else
       let where_filter := where_of category in
       results <- collection_query query_embedding limit where_filter ;;
       match ids results with
       | (id0 :: ids0) :: _ =>
           format_results results 0 (id0 :: ids0) []
       | _ => ret []
       end)
    (fun e => logger ErrSemanticSearch ;;; ret []).

(** The loop [for article in all_articles] of [sync_missing_embeddings];
    the result is [missing_count]. *)
Fixpoint sync_loop (existing_ids : gset string) (all_articles : list Article.t)
    (missing_count : Z) : M World Z :=
  match all_articles with
  | [] => ret missing_count
  | article :: rest =>
      if negb (bool_decide (Py.str (Article.id article) ∈ existing_ids))
      then
        add_article (Article.id article) (Article.title article)
          (Py.or_empty (Article.summary article))
          (Article.category article) (Article.source article) ;;;
        sync_loop existing_ids rest (missing_count + 1)
      else sync_loop existing_ids rest missing_count
  end.

(** The function has no [return]: a call evaluates to [None]. *)
Definition sync_missing_embeddings : M World Py.object :=
  try_finally
    (try_except
       (all_articles <- query_all ;;
        let db_count := Z.of_nat (length all_articles) in
        n <- collection_count ;;
        existing_ids <-
          (if 0 <? n
           then
             all_embeddings <- collection_get_all ;;
             ret (if nonempty all_embeddings
                  then (list_to_set all_embeddings : gset string)
                  else ∅)
           else ret ∅) ;;
        missing_count <- sync_loop existing_ids all_articles 0 ;;
        logger (InfoSyncComplete db_count missing_count) ;;;
        ret Py.None_)
       (fun e => logger ErrSyncing ;;; ret Py.None_))
    (ret tt).

End Application.

(** The request model and the response of [app/api.py]. *)
Record SearchRequest := {
  prompt : option string;
  category : option string;
  limit : Z
}.

(** The dict [search_news] returns. *)
Module SearchResponse.
Record t := {
  count : Z;
  articles : list ArticleDict;
  search_type : string
}.
End SearchResponse.

Section Pipeline.

Context (env : Env) (settings : Settings).

(** *** [app/collector.py] *)

(** [d.get("summary", "")]. *)
Definition get_summary (article_data : ArticleData) : string :=
  match data_summary article_data with
  | Some s => s
  | None => ""
  end.

(** [saved_count += 1]. *)
Definition incr_saved_count : M Frame unit :=
  modify (fun f => {| world := world f; session_new := session_new f;
                      saved_count := saved_count f + 1 |}).

(** The body of the [try] in [save_articles]. *)
Definition save_article (clf : ClassificationService)
    (article_data : ArticleData) : M Frame unit :=
  category <- zoom (classify_article env settings clf
                      (data_title article_data) (get_summary article_data)) ;;
  let article := {| init_title := data_title article_data;
                    init_url := data_url article_data;
                    init_summary := Some (get_summary article_data);
                    init_source := data_source article_data;
                    init_category := Some category;
                    init_published_date := data_published_date article_data |} in
  session_add article ;;;
  session_commit env ;;;
  incr_saved_count ;;;
  article <- zoom (session_refresh article) ;;
  zoom (add_article env (Article.id article) (Article.title article)
          (Py.or_empty (Article.summary article)) (Some category)
          (Article.source article)).

(** One turn of the loop [for article_data in articles]: the [try] with
    its two handlers. *)
Definition save_one (clf : ClassificationService) (article_data : ArticleData)
  : M Frame unit :=
  try_except (save_article clf article_data)
    (fun e =>
       match e with
       | IntegrityError => session_rollback
       | _ => session_rollback ;;; zoom (logger ErrSavingArticle)
       end).

Fixpoint save_loop (clf : ClassificationService) (articles : list ArticleData)
  : M Frame unit :=
  match articles with
  | [] => ret tt
  | article_data :: rest => save_one clf article_data ;;; save_loop clf rest
  end.

(** [NewsCollector.save_articles]: the session and the counter are local,
    the returned value is [saved_count]. *)
Definition save_articles (clf : ClassificationService)
    (articles : list ArticleData) : M World Z :=
  fun w =>
    match (save_loop clf articles ;;; gets saved_count)
            {| world := w; session_new := []; saved_count := 0 |} with
    | (r, f) => (r, world f)
    end.

(** *** [app/api.py] *)

(** The loop [for result in results] of [search_news]. *)
Fixpoint enrich (results : list Match) (found : list ArticleDict)
  : M World (list ArticleDict) :=
  match results with
  | [] => ret found
  | result :: rest =>
      article <- query_by_id (article_id result) ;;
      match article with
      | Some a => enrich rest (found ++ [to_dict a])
      | None => enrich rest found
      end
  end.

(** [repr] of a list of strings, as the f-string of the error detail
    prints it (quoting without escapes). *)
Definition repr_list (l : list string) : string :=
  "[" ++ Py.join ", " (map (fun s => "'" ++ s ++ "'") l) ++ "]".

Definition search_news (request : SearchRequest) : M World SearchResponse.t :=
  if negb (Py.truthy_opt (prompt request)) && negb (Py.truthy_opt (category request))
  then raise (HTTPException 400 "At least one of 'prompt' or 'category' is required")
  else
    let valid_categories := news_categories settings in
    if Py.truthy_opt (category request)
       && negb (Py.mem_opt (category request) valid_categories)
    then raise (HTTPException 400
                  ("Invalid category. Valid options: " ++ repr_list valid_categories))
    else
      let category_only :=
        rows <- query_by_category (category request) (limit request) ;;
        ret (map to_dict rows, "category") in
      r <-
        match prompt request with
        | Some query =>
            if Py.truthy query
            then
              results <- search env query (category request) (limit request) ;;
              found <- enrich results [] ;;
              ret (found, "semantic")
            else category_only
        | None => category_only
        end ;;
      ret {| SearchResponse.count := Z.of_nat (length (fst r));
             SearchResponse.articles := fst r;
             SearchResponse.search_type := snd r |}.

End Pipeline.

(** ** Stub environments

    The adapters as the stubs of a test would provide them: the same answer
    on every call. *)

Definition stub_env (parse : option CategoryClassification)
    (embed : option (list Q)) (commit_fail add_fail : bool) : Env := {|
  responses_parse := fun _ _ _ => parse;
  random_index := fun _ => 0%nat;
  embeddings_create := fun _ _ => embed;
  commit_fails := fun _ _ => commit_fail;
  collection_add_fails := fun _ _ => add_fail;
  utcnow := fun tr => Z.of_nat (length tr)
|}.

Definition cybersecurity : CategoryClassification :=
  {| cc_category := "Cybersecurity"; cc_confidence := "high" |}.

(** Everything works: the classifier answers [Cybersecurity], the embedder
    answers the vector [(1, 0)]. *)
Definition env_ok : Env := stub_env (Some cybersecurity) (Some [1%Q; 0%Q]) false false.

(** An embedder that fails on every call. *)
Definition env_no_embedding : Env := stub_env (Some cybersecurity) None false false.


(** A classifier adapter that answers outside the enumeration. *)
Definition env_wrong_category : Env :=
  stub_env (Some {| cc_category := "Sports"; cc_confidence := "low" |})
    (Some [1%Q; 0%Q]) false false.

(** A Vector Index that refuses every write. *)
Definition env_no_index_write : Env :=
  stub_env (Some cybersecurity) (Some [1%Q; 0%Q]) false true.


(** The settings of a deployment with an API key. *)
Definition settings_live : Settings :=
  {| openai_api_key := "sk-test";
     news_categories := news_categories Settings_defaults |}.

Definition empty_world : World :=
  {| articles := []; collection := []; trace := []; log := [] |}.

Definition zero_day : ArticleData :=
  {| data_title := "Zero-day in X";
     data_url := "https://e/1";
     data_summary := Some "critical flaw";
     data_source := "rss:test";
     data_published_date := None |}.

Definition patch_day : ArticleData :=
  {| data_title := "Patch for X";
     data_url := "https://e/2";
     data_summary := None;
     data_source := "rss:test";
     data_published_date := Some 7 |}.

(** The world after [zero_day] went through [save_articles] with
    everything working. *)
Definition world_one : World :=
  snd (save_articles env_ok settings_live (classifier settings_live)
         [zero_day] empty_world).

(** [world_one] with its Vector Index emptied: one article, no record. *)
Definition world_unindexed : World := put_collection [] world_one.

(** A request whose category is the empty string, and one whose prompt is
    the empty string. *)
Definition request_empty_category : SearchRequest :=
  {| prompt := Some "zero day"; category := Some ""; limit := 10 |}.

Definition request_empty_prompt : SearchRequest :=
  {| prompt := Some ""; category := None; limit := 10 |}.

(** The searches of the scenario. *)
Definition request_prompt : SearchRequest :=
  {| prompt := Some "zero day"; category := None; limit := 1 |}.

Definition request_category : SearchRequest :=
  {| prompt := None; category := Some "Cybersecurity"; limit := 10 |}.

(** An embedder that answers the prompt of the scenario with [(1, 0)] and
    every other text with the opposite unit vector [(-1, 0)], and the world
    after [zero_day] was ingested with it. *)
Definition env_opposite : Env := {|
  responses_parse := fun _ _ _ => Some cybersecurity;
  random_index := fun _ => 0%nat;
  embeddings_create := fun _ text =>
    if String.eqb text "zero day" then Some [1%Q; 0%Q]
    else Some [(-1)%Q; 0%Q];
  commit_fails := fun _ _ => false;
  collection_add_fails := fun _ _ => false;
  utcnow := fun tr => Z.of_nat (length tr)
|}.

Definition world_opposite : World :=
  snd (save_articles env_opposite settings_live (classifier settings_live)
         [zero_day] empty_world).

(** ** Vocabulary of the statements *)

(** Calls of the embedder adapter recorded in a trace. *)
Definition is_embed (e : Event) : bool :=
  match e with EvEmbeddingsCreate _ => true | _ => false end.
Definition embed_calls (tr : list Event) : nat := length (List.filter is_embed tr).

(** Calls of the classifier adapter recorded in a trace. *)
Definition is_parse (e : Event) : bool :=
  match e with EvResponsesParse _ => true | _ => false end.
Definition parse_calls (tr : list Event) : nat := length (List.filter is_parse tr).

(** Classifications recorded in a trace, by the adapter or by the mock. *)
Definition is_classify (e : Event) : bool :=
  match e with EvResponsesParse _ | EvRandomChoice => true | _ => false end.
Definition classify_calls (tr : list Event) : nat :=
  length (List.filter is_classify tr).

(** The Embedding Records held for an article identifier. *)
Definition records_for (i : Z) (c : list Embedding) : nat :=
  length (List.filter (fun e => String.eqb (emb_id e) (Py.str i)) c).

(** The presence check of [add_article]. *)
Definition has_record (i : Z) (c : list Embedding) : bool :=
  nonempty (List.filter (fun j => Py.mem j [Py.str i]) (map emb_id c)).

(** The frame [save_articles] starts from, and the frame it has reached
    when the articles [l] have had their turn. *)
Definition init_frame (w : World) : Frame :=
  {| world := w; session_new := []; saved_count := 0 |}.

Definition frame_after (env : Env) (settings : Settings)
    (clf : ClassificationService) (l : list ArticleData) (w : World) : Frame :=
  snd (save_loop env settings clf l (init_frame w)).

(** Every Embedding Record indexes a stored Article: no orphan record. *)
Definition coherent (w : World) : Prop :=
  forall e, In e (collection w) ->
    exists r, In r (articles w) /\ emb_id e = Py.str (Article.id r).

(** The text [add_article] embeds for a row. *)
Definition embedding_text (title summary : string) : string :=
  Py.take 8000 (title ++ ". " ++ summary).

(** The text sent to the model for an article, and the instructions sent
    with it. *)
Definition content_of (title summary : string) : string :=
  if Py.truthy summary
  then ("Title: " ++ title) ++ newline ++ "Summary: " ++ summary
  else "Title: " ++ title.

Definition instructions_of (settings : Settings) : string :=
  instructions (Py.join ", " (news_categories settings)).

(** The object [save_articles] builds for an article once it has its
    category, and a frame with an empty session. *)
Definition init_of (a : ArticleData) (category : string) : ArticleInit :=
  {| init_title := data_title a;
     init_url := data_url a;
     init_summary := Some (get_summary a);
     init_source := data_source a;
     init_category := Some category;
     init_published_date := data_published_date a |}.

Definition mk_frame (w : World) (n : Z) : Frame :=
  {| world := w; session_new := []; saved_count := n |}.


(** The set [existing_ids] that [sync_missing_embeddings] computes before
    its loop. *)
Definition existing_ids_of (c : list Embedding) : gset string :=
  if 0 <? Z.of_nat (length c)
  then (if nonempty (map emb_id c) then list_to_set (map emb_id c) else ∅)
  else ∅.

(** The embedder answers with a non-empty vector whenever it is asked for
    the text of the row [r]. *)
Definition embeds (env : Env) (r : Article.t) : Prop :=
  forall tr, exists x v,
    embeddings_create env tr
      (embedding_text (Article.title r) (Py.or_empty (Article.summary r)))
      = Some (x :: v).

(** The Vector Index accepts every write. *)
Definition index_accepts (env : Env) : Prop :=
  forall tr e, collection_add_fails env tr e = false.

(** The match [search] makes of a hit; [None] when the identifier is not
    the decimal spelling of an integer. *)
Definition to_match (h : Hit) : option Match :=
  match Py.int (hit_id h) with
  | Some n => Some {| article_id := n;
                      score := (1 - hit_distance h)%Q;
                      metadata := Some (snd h) |}
  | None => None
  end.

(** The matches of a list of hits, when every identifier is an integer. *)
Fixpoint to_matches (hits : list Hit) : option (list Match) :=
  match hits with
  | [] => Some []
  | h :: rest =>
      match to_match h, to_matches rest with
      | Some m, Some ms => Some (m :: ms)
      | _, _ => None
      end
  end.

(** The articles [search_news] makes of the matches: each match is looked
    up by identifier, in order, and dropped when no row has it. *)
Definition hydrate (rows : list Article.t) (results : list Match)
  : list ArticleDict :=
  omap (fun m => to_dict <$> find (fun r => Z.eqb (Article.id r) (article_id m)) rows)
    results.

(** The request passes the second check of [search_news]: its category is
    absent, empty, or in the enumeration. *)
Definition category_accepted (settings : Settings) (request : SearchRequest)
  : Prop :=
  forall c, category request = Some c ->
    c = "" \/ In c (news_categories settings).

(** The reads [enrich] makes for [n] matches. *)
Definition after_lookups (n : nat) (w : World) : World :=
  Nat.iter n (add_event EvSqlSelect) w.

(** The hit of a record for the query vector [q]. *)
Definition hit_of (q : list Q) (e : Embedding) : Hit :=
  (emb_id e, l2 q (emb_vector e), emb_metadata e).

(** What [search] makes of a hit: the identifier read as an integer, the
    score [1 - distance], the same metadata. *)
Definition match_of_hit (m : Match) (h : Hit) : Prop :=
  Py.int (hit_id h) = Some (article_id m) /\
  score m = (1 - hit_distance h)%Q /\
  metadata m = Some (snd h).

(** ** The rest of the retrieval surface

    [EmbeddingService.get_stats] of [app/embeddings.py], and [get_article]
    and [get_stats] of [app/api.py].  They only read the stores; reads are
    taken to succeed, so the [except] branch of
    [EmbeddingService.get_stats] is never entered and is left out. *)

Module EmbeddingService.

Definition CHROMA_PERSIST_DIR : string := "./data/chroma".

(** The dict [get_stats] returns. *)
Record Stats := {
  total_embeddings : Z;
  storage_path : string
}.

Definition get_stats : M World Stats :=
  n <- collection_count ;;
  ret {| total_embeddings := n; storage_path := CHROMA_PERSIST_DIR |}.

End EmbeddingService.

Module Api.

(** [GET /news/{article_id}]. *)
Definition get_article (article_id : Z) : M World ArticleDict :=
  article <- query_by_id article_id ;;
  match article with
  | None => raise (HTTPException 404 "Article not found")
  | Some a => ret (to_dict a)
  end.

(** [SELECT key, count(id) FROM articles GROUP BY key], read into a dict:
    each key that occurs, with the number of rows that have it. *)
Definition group_count {K} `{Countable K} (key : Article.t -> K)
    (rows : list Article.t) : gmap K Z :=
  fold_right (fun r m => <[key r := 1 + default 0 (m !! key r)]> m) ∅ rows.

(** The dict [get_stats] returns. *)
Record Stats := {
  total_articles : Z;
  by_category : gmap (option string) Z;
  by_source : gmap string Z;
  embeddings : EmbeddingService.Stats
}.

(** [GET /stats]. *)
Definition get_stats : M World Stats :=
  emit EvSqlSelect ;;;
  rows <- gets articles ;;
  let total := Z.of_nat (length rows) in
  emit EvSqlSelect ;;;
  rows <- gets articles ;;
  let categories := group_count Article.category rows in
  emit EvSqlSelect ;;;
  rows <- gets articles ;;
  let sources := group_count Article.source rows in
  embedding_stats <- EmbeddingService.get_stats ;;
  ret {| total_articles := total;
         by_category := categories;
         by_source := sources;
         embeddings := embedding_stats |}.

End Api.

(** ** Vocabulary of the invariants of the two stores *)

(** The record [add_article] writes for a row and an embedding [v] of its
    text: the identifier as a string, and a snapshot of title, category
    and source. *)
Definition snapshot_of (r : Article.t) : Metadata :=
  {| meta_title := Py.take 200 (Article.title r);
     meta_category := Article.category r;
     meta_source := Article.source r |}.

Definition record_of (r : Article.t) (v : list Q) : Embedding :=
  {| emb_id := Py.str (Article.id r);
     emb_vector := v;
     emb_metadata := snapshot_of r;
     emb_document :=
       Py.take 1000
         (Article.title r ++ ". " ++ Py.or_empty (Article.summary r)) |}.

(** The invariant of the two stores: primary keys and URLs are unique,
    there is at most one Embedding Record per identifier, and every record
    is the record of a stored row. *)
Record well_formed (w : World) : Prop := {
  wf_ids : List.NoDup (map Article.id (articles w));
  wf_urls : List.NoDup (map Article.url (articles w));
  wf_records : List.NoDup (map emb_id (collection w));
  wf_snapshot :
    forall e, In e (collection w) ->
      exists r, In r (articles w) /\ e = record_of r (emb_vector e)
}.

(** The worlds the application can reach from empty stores: by ingestion
    batches, runs of the reconciler and requests to the API, whatever the
    adapters and the stores answer at each step. *)
Inductive reachable (settings : Settings) (clf : ClassificationService)
  : World -> Prop :=
| reach_empty : reachable settings clf empty_world
| reach_save_articles env batch w :
    reachable settings clf w ->
    reachable settings clf (snd (save_articles env settings clf batch w))
| reach_sync env w :
    reachable settings clf w ->
    reachable settings clf (snd (sync_missing_embeddings env w))
| reach_search_news env request w :
    reachable settings clf w ->
    reachable settings clf (snd (search_news env settings request w))
| reach_get_article i w :
    reachable settings clf w ->
    reachable settings clf (snd (Api.get_article i w))
| reach_get_stats w :
    reachable settings clf w ->
    reachable settings clf (snd (Api.get_stats w)).

(** The rows without Embedding Record, in table order. *)
Definition unindexed (c : list Embedding) (rows : list Article.t)
  : list Article.t :=
  List.filter (fun r => negb (has_record (Article.id r) c)) rows.

(** The URLs of a batch that are new: not in [seen], and not earlier in
    the batch. *)
Fixpoint first_new (seen : list string) (urls : list string) : list string :=
  match urls with
  | [] => []
  | u :: rest =>
      if Py.mem u seen then first_new seen rest
      else u :: first_new (u :: seen) rest
  end.

(** The Relational Store accepts every write that no constraint forbids. *)
Definition store_accepts (env : Env) : Prop :=
  forall tr a, commit_fails env tr a = false.

(** Classification cannot raise: the adapter is in use, or the mock has
    categories to draw from. *)
Definition classifies (settings : Settings) (clf : ClassificationService)
  : Prop :=
  mock_mode clf = false \/ news_categories settings <> [].

(** The embedder answers every text with a non-empty vector. *)
Definition embedder_works (env : Env) : Prop :=
  forall tr text, exists x v, embeddings_create env tr text = Some (x :: v).

(** [world_one] after [patch_day] was ingested while the embedder was
    down: two articles, one Embedding Record. *)
Definition world_drift : World :=
  snd (save_articles env_no_embedding settings_live (classifier settings_live)
         [patch_day] world_one).

(** The rows of a category, in table order: what the category-only search
    selects before the limit. *)
Definition in_category (c : string) (rows : list Article.t) : list Article.t :=
  List.filter
    (fun r => match Article.category r with
              | Some x => String.eqb x c
              | None => false
              end) rows.

(** The category of the row is one the pipeline can give: a member of the
    enumeration, or the fallback. *)
Definition category_known (settings : Settings) (r : Article.t) : Prop :=
  exists c, Article.category r = Some c /\
    (In c (news_categories settings) \/ c = fallback_category).

(** The article [d] of a response is the row indexed by the hit [h] of the
    query vector [q]. *)
Definition hydrated_from (w : World) (q : list Q) (d : ArticleDict) (h : Hit)
  : Prop :=
  exists r v,
    In r (articles w) /\ In (record_of r v) (collection w) /\
    d = to_dict r /\ h = hit_of q (record_of r v).

(** The external call respects the limit of the embedder: a text sent to
    it has at most 8000 characters. *)
Definition within_limit (e : Event) : Prop :=
  match e with
  | EvEmbeddingsCreate input => Z.of_nat (String.length input) <= 8000
  | _ => True
  end.

Definition bounded (w : World) : Prop := Forall within_limit (trace w).

(** ** The collector ([app/collector.py]) and the ingestor
    ([ingestor_start.py])

    Strings are sequences of characters with code points below 256.  The
    network and the two libraries that read a feed ([requests],
    [feedparser]) are external: what they answer is an oracle
    [Collector.Net].  The collector touches neither store while it
    collects, so it runs on a state of its own: the articles collected so
    far, the URLs requested and its log. *)

Module PyStr.

(** [sub in s]. *)
Fixpoint contains (sub s : string) : bool :=
  String.prefix sub s ||
  match s with
  | EmptyString => false
  | String _ s' => contains sub s'
  end.

(** [s.split(sep)] for a separator that is not empty, read from left to
    right: [cur] is the piece being read, and [skip] counts the characters
    still to pass of the separator just found. *)
Fixpoint split_from (sep : string) (skip : nat) (cur s : string) : list string :=
  match s with
  | EmptyString => [cur]
  | String a s' =>
      match skip with
      | S k => split_from sep k cur s'
      | O =>
          if String.prefix sep s
          then cur :: split_from sep (String.length sep - 1) "" s'
          else split_from sep 0 (cur ++ String a "") s'
      end
  end.

Definition split (sep s : string) : list string := split_from sep 0 "" s.

(** [str.isspace] on one character: the whitespace of Unicode below 256. *)
Definition isspace (a : ascii) : bool :=
  let n := nat_of_ascii a in
  ((9 <=? n) && (n <=? 13) || (28 <=? n) && (n <=? 32)
   || (n =? 133) || (n =? 160))%nat.

Fixpoint lstrip (s : string) : string :=
  match s with
  | EmptyString => ""
  | String a s' => if isspace a then lstrip s' else s
  end.

Fixpoint rstrip (s : string) : string :=
  match s with
  | EmptyString => ""
  | String a s' =>
      match rstrip s' with
      | EmptyString => if isspace a then "" else String a ""
      | r => String a r
      end
  end.

(** [s.strip()]. *)
Definition strip (s : string) : string := rstrip (lstrip s).

(** The number of characters before the first [>]. *)
Fixpoint gt_index (s : string) : option nat :=
  match s with
  | EmptyString => None
  | String a s' =>
      if Ascii.eqb a ">" then Some 0%nat
      else option_map S (gt_index s')
  end.

(** [re.sub(r'<[^>]+>', '', s)], read from left to right.  A match starts
    at a [<] that is followed by at least one character other than [>] and
    then a [>]; it ends at the first [>] after it, and the search goes on
    behind the match.  [skip] counts the characters still to pass of the
    match just found. *)
Fixpoint strip_tags_from (skip : nat) (s : string) : string :=
  match s with
  | EmptyString => ""
  | String a s' =>
      match skip with
      | S k => strip_tags_from k s'
      | O =>
          if Ascii.eqb a "<"
          then match gt_index s' with
               | Some (S n) => strip_tags_from (S (S n)) s'
               | _ => String a (strip_tags_from 0 s')
               end
          else String a (strip_tags_from 0 s')
      end
  end.

Definition strip_tags (s : string) : string := strip_tags_from 0 s.

(** Vocabulary: the text before the first occurrence of [sep] (the whole
    text when there is none), the text without its first [n] characters,
    and the text after the first occurrence of [sep]. *)
Fixpoint before (sep s : string) : string :=
  if String.prefix sep s then ""
  else match s with
       | EmptyString => ""
       | String a s' => String a (before sep s')
       end.

Fixpoint drop (n : nat) (s : string) : string :=
  match n, s with
  | S n', String _ s' => drop n' s'
  | _, _ => s
  end.

Fixpoint after (sep s : string) : option string :=
  if String.prefix sep s then Some (drop (String.length sep) s)
  else match s with
       | EmptyString => None
       | String _ s' => after sep s'
       end.

End PyStr.

(** [NewsCollector._extract_subreddit_name].  [parts[1]] is read after
    [len(parts) > 1] was checked, and [split] returns at least one piece,
    so the two defaults are never used. *)
Definition _extract_subreddit_name (feed_url : string) : string :=
  if PyStr.contains "reddit.com/r/" feed_url then
    let parts := PyStr.split "/r/" feed_url in
    if (1 <? length parts)%nat then
      let subreddit := hd "" (PyStr.split "/" (nth 1 parts "")) in
      "reddit:r/" ++ subreddit
    else "rss:reddit"
  else "rss:reddit".

Module Collector.

(** An entry of a parsed feed, as the code reads it: each attribute may be
    missing ([hasattr] is false, and reading it raises).
    [published_parsed] may also be there and hold [None]; [content] is the
    list of the [value]s of its elements. *)
Record Entry := {
  entry_title : option string;
  entry_link : option string;
  entry_summary : option string;
  entry_description : option string;
  entry_content : option (list string);
  entry_published_parsed : option (option (list Z))
}.

(** What [feedparser.parse] returns: [feed.entries], and [feed.feed.title]
    when there is one. *)
Record Feed := {
  entries : list Entry;
  feed_title : option string
}.

Record Response := {
  status_code : Z;
  content : string
}.

(** The network and the libraries. *)
Record Net := {
  (** [requests.get(feed_url, headers=..., timeout=10)], given the URLs
      requested before (most recent first): [None] when the call raises. *)
  requests_get : list string -> string -> option Response;
  (** [feedparser.parse(content)]: [None] when the call raises. *)
  feedparser_parse : string -> option Feed;
  (** [datetime(...)] on the first six fields of a time tuple: [None] when
      the constructor raises. *)
  datetime_new : list Z -> option datetime
}.

(** The records the collector logs for a feed. *)
Inductive Log :=
| InfoFetching (feed_url : string)
| WarnRateLimited (feed_url : string)
| WarnForbidden (feed_url : string)
| WarnHttpError (status_code : Z) (feed_url : string)
| WarnNoEntries (feed_url : string)
| InfoCollected (n : Z) (feed_url : string)
| ErrCollecting (feed_url : string).

(** The list [articles] being built, the URLs requested so far and the
    log, both most recent first. *)
Record State := {
  collected : list ArticleData;
  requested : list string;
  journal : list Log
}.

Definition log_record (r : Log) (st : State) : State :=
  {| collected := collected st; requested := requested st;
     journal := r :: journal st |}.

Section Collect.

Context (net : Net).

(** The lines "Extract published date". *)
Definition published_date_of (entry : Entry) : option datetime :=
  match entry_published_parsed entry with
  | Some (Some (x :: t)) => datetime_new net (firstn 6 (x :: t))
  | _ => None
  end.

(** The lines "Extract summary" and "Strip HTML tags from summary",
    followed by [summary.strip()]. *)
Definition summary_of (entry : Entry) : string :=
  let summary :=
    match entry_summary entry with
    | Some s => Py.take 500 s
    | None =>
        match entry_description entry with
        | Some s => Py.take 500 s
        | None =>
            match entry_content entry with
            | Some (value :: _) => Py.take 500 value
            | _ => ""
            end
        end
    end in
  PyStr.strip (PyStr.strip_tags summary).

(** The dict appended for an entry; [None] when [entry.title] or
    [entry.link] raises. *)
Definition article_of (source : string) (entry : Entry) : option ArticleData :=
  match entry_title entry, entry_link entry with
  | Some title, Some link =>
      Some {| data_title := title;
              data_url := link;
              data_summary := Some (summary_of entry);
              data_source := source;
              data_published_date := published_date_of entry |}
  | _, _ => None
  end.

(** The loop [for entry in feed.entries[:15]]: the list [articles] when
    the loop ends, and whether it ended without exception. *)
Fixpoint collect_entries (source : string) (l : list Entry)
    (articles : list ArticleData) : list ArticleData * bool :=
  match l with
  | [] => (articles, true)
  | entry :: rest =>
      match article_of source entry with
      | Some article => collect_entries source rest (articles ++ [article])
      | None => (articles, false)
      end
  end.

(** The lines "Determine source label". *)
Definition source_label (feed_url : string) (feed : Feed) : string :=
  if PyStr.contains "reddit.com" feed_url
  then _extract_subreddit_name feed_url
  else "rss:" ++ match feed_title feed with
                 | Some title => title
                 | None => "unknown"
                 end.

(** One turn of the loop [for feed_url in self.rss_feeds], with its
    [try ... except Exception]. *)
Definition collect_feed (feed_url : string) (st : State) : State :=
  let st1 :=
    {| collected := collected st;
       requested := feed_url :: requested st;
       journal := InfoFetching feed_url :: journal st |} in
  match requests_get net (requested st) feed_url with
  | None => log_record (ErrCollecting feed_url) st1
  | Some response =>
      if status_code response =? 429
      then log_record (WarnRateLimited feed_url) st1
      else if status_code response =? 403
      then log_record (WarnForbidden feed_url) st1
      else if 400 <=? status_code response
      then log_record (WarnHttpError (status_code response) feed_url) st1
      else
        match feedparser_parse net (content response) with
        | None => log_record (ErrCollecting feed_url) st1
        | Some feed =>
            match entries feed with
            | [] => log_record (WarnNoEntries feed_url) st1
            | _ :: _ =>
                let source := source_label feed_url feed in
                let first := firstn 15 (entries feed) in
                match collect_entries source first (collected st1) with
                | (articles, true) =>
                    {| collected := articles;
                       requested := requested st1;
                       journal :=
                         InfoCollected (Z.of_nat (length first)) feed_url
                           :: journal st1 |}
                | (articles, false) =>
                    {| collected := articles;
                       requested := requested st1;
                       journal := ErrCollecting feed_url :: journal st1 |}
                end
            end
        end
  end.

End Collect.

End Collector.

Record NewsCollector := { rss_feeds : list string }.

(** [NewsCollector.__init__]. *)
Definition NewsCollector_init : NewsCollector :=
  {| rss_feeds :=
       [ "https://www.reddit.com/r/sysadmin/new.rss";
         "https://feeds.arstechnica.com/arstechnica/index";
         "https://www.tomshardware.com/feeds/all" ] |}.

(** What the ingestor acts upon: the network history and log of the
    collector, and the two stores. *)
Record System := {
  sys_requested : list string;
  sys_journal : list Collector.Log;
  sys_world : World
}.

Section Ingestor.

Context (net : Collector.Net) (env : Env) (settings : Settings)
        (clf : ClassificationService).

(** [NewsCollector.collect_from_rss]: the list it returns is [collected]
    of the final state. *)
Definition collect_from_rss (self : NewsCollector) (requested : list string)
    (journal : list Collector.Log) : Collector.State :=
  fold_left (fun st feed_url => Collector.collect_feed net feed_url st)
    (rss_feeds self)
    {| Collector.collected := [];
       Collector.requested := requested;
       Collector.journal := journal |}.

(** [NewsCollector.run_collection_cycle]: the value returned and the
    system it leaves. *)
Definition run_collection_cycle (self : NewsCollector) (sys : System)
  : Result Z * System :=
  let st := collect_from_rss self (sys_requested sys) (sys_journal sys) in
  match save_articles env settings clf (Collector.collected st) (sys_world sys) with
  | (saved_count, w) =>
      (saved_count,
       {| sys_requested := Collector.requested st;
          sys_journal := Collector.journal st;
          sys_world := w |})
  end.

(** The job of the scheduler, run [k] times. *)
Fixpoint scheduled (collector : NewsCollector) (k : nat) (sys : System) : System :=
  match k with
  | O => sys
  | S k' => snd (run_collection_cycle collector (scheduled collector k' sys))
  end.

(** [run_ingestor]: the reconciler, a first cycle, then the scheduler loop.
    The loop never ends; [run_ingestor k] is the system when the scheduler
    has run its job [k] times.  [init_db] creates the tables when they are
    missing, and changes nothing in the stores. *)
Definition run_ingestor (k : nat) (sys : System) : System :=
  let w := snd (sync_missing_embeddings env (sys_world sys)) in
  let collector := NewsCollector_init in
  let sys1 :=
    snd (run_collection_cycle collector
           {| sys_requested := sys_requested sys;
              sys_journal := sys_journal sys;
              sys_world := w |}) in
  scheduled collector k sys1.

End Ingestor.

(** The articles of the entries read from a feed: those up to the first
    entry without title or link. *)
Fixpoint readable (net : Collector.Net) (source : string)
    (l : list Collector.Entry) : list ArticleData :=
  match l with
  | [] => []
  | entry :: rest =>
      match Collector.article_of net source entry with
      | Some article => article :: readable net source rest
      | None => []
      end
  end.

(** What a feed contributes to a collection, given the URLs requested
    before: nothing unless the request is answered with a status below 400
    and the answer is parsed; then the articles read from the first 15
    entries. *)
Definition contribution (net : Collector.Net) (requested : list string)
    (feed_url : string) : list ArticleData :=
  match Collector.requests_get net requested feed_url with
  | Some response =>
      if Collector.status_code response <? 400
      then match Collector.feedparser_parse net (Collector.content response) with
           | Some feed =>
               readable net (Collector.source_label feed_url feed)
                 (firstn 15 (Collector.entries feed))
           | None => []
           end
      else []
  | None => []
  end.

(** The summary of a collected article is there, has at most 500
    characters, neither starts nor ends with whitespace and holds no
    tag. *)
Definition clean_summary (a : ArticleData) : Prop :=
  exists s,
    data_summary a = Some s /\
    Z.of_nat (String.length s) <= 500 /\
    PyStr.strip s = s /\
    PyStr.strip_tags s = s.

(** Every row has an Embedding Record. *)
Definition fully_indexed (w : World) : Prop :=
  forall r, In r (articles w) -> has_record (Article.id r) (collection w) = true.

(** A feed with three entries, the second without link; a network that
    answers the first feed of the collector with it, the second with
    status 503, and does not answer the third. *)
Definition entry_ok (title link summary : string) : Collector.Entry :=
  {| Collector.entry_title := Some title;
     Collector.entry_link := Some link;
     Collector.entry_summary := Some summary;
     Collector.entry_description := None;
     Collector.entry_content := None;
     Collector.entry_published_parsed := None |}.

Definition entry_no_link : Collector.Entry :=
  {| Collector.entry_title := Some "untitled";
     Collector.entry_link := None;
     Collector.entry_summary := None;
     Collector.entry_description := None;
     Collector.entry_content := None;
     Collector.entry_published_parsed := None |}.

Definition feed_sysadmin : Collector.Feed :=
  {| Collector.entries :=
       [ entry_ok "Backups" "https://r/1" "  <p>Test your <b>backups</b></p> ";
         entry_no_link;
         entry_ok "Patching" "https://r/3" "never read" ];
     Collector.feed_title := Some "sysadmin" |}.

Definition net_flaky : Collector.Net :=
  {| Collector.requests_get := fun _ feed_url =>
       if String.eqb feed_url "https://www.reddit.com/r/sysadmin/new.rss"
       then Some {| Collector.status_code := 200; Collector.content := "feed" |}
       else if String.eqb feed_url "https://feeds.arstechnica.com/arstechnica/index"
       then Some {| Collector.status_code := 503; Collector.content := "" |}
       else None;
     Collector.feedparser_parse := fun _ => Some feed_sysadmin;
     Collector.datetime_new := fun _ => None |}.

Definition empty_system : System :=
  {| sys_requested := []; sys_journal := []; sys_world := empty_world |}.

(** ** The ranges in which the stores are modelled

    SQLite and its driver hold integers of 64 bits, and ChromaDB takes a
    number of results below [2 ^ 32]: outside these ranges the driver or
    the index raises where the model of the stores above goes on
    computing on [Z].  The statements about reads by identifier or with a
    limit are therefore made within them. *)
Definition int64 (z : Z) : Prop := - 2 ^ 63 <= z < 2 ^ 63.

(** Every identifier of the Vector Index is the [str] of an integer of
    the 64-bit range, as [add_article] writes it for a stored article. *)
Definition ids_int64 (c : list Embedding) : Prop :=
  forall e, In e c -> exists n, emb_id e = Py.str n /\ int64 n.




(** ** Python values: [int] undoes [str] *)

Lemma int_str (n : Z) : Py.int (Py.str n) = Some n.
Proof.
  unfold Py.int, Py.str. rewrite NilEmpty.isi.
  destruct n as [|p|p]; simpl.
  - reflexivity.
  - pose proof (DecimalPos.Unsigned.to_uint_nonnil p) as Hn.
    pose proof (DecimalZ.of_to (Z.pos p)) as Hz. simpl in Hz.
    destruct (Pos.to_uint p); try congruence; exfalso; apply Hn; reflexivity.
  - pose proof (DecimalPos.Unsigned.to_uint_nonnil p) as Hn.
    pose proof (DecimalZ.of_to (Z.neg p)) as Hz. simpl in Hz.
    destruct (Pos.to_uint p); try congruence; exfalso; apply Hn; reflexivity.
Qed.

Lemma str_inj (a b : Z) : Py.str a = Py.str b -> a = b.
Proof.
  intros H. pose proof (int_str a) as Ha. rewrite H, int_str in Ha. congruence.
Qed.

(** ** The embedding-insert step, [add_article] *)

Section AddArticle.

Context (env : Env).

(** What one call does, case by case. *)
Lemma add_article_run (i : Z) (title summary : string) (cat : option string)
    (src : string) (w : World) :
  add_article env i title summary cat src w =
    let w1 := add_event EvCollectionGet w in
    if has_record i (collection w) then (Ok tt, w1)
    else
      let text := title ++ ". " ++ summary in
      let w2 := add_event (EvEmbeddingsCreate (Py.take 8000 text)) w1 in
      match embeddings_create env (trace w1) (Py.take 8000 text) with
      | None =>
          (Ok tt, add_log (WarnEmbeddingFailed i) (add_log ErrCreatingEmbedding w2))
      | Some [] => (Ok tt, add_log (WarnEmbeddingFailed i) w2)
      | Some (x :: v) =>
          let e := {| emb_id := Py.str i;
                      emb_vector := x :: v;
                      emb_metadata := {| meta_title := Py.take 200 title;
                                         meta_category := cat;
                                         meta_source := src |};
                      emb_document := Py.take 1000 text |} in
          let w3 := add_event (EvCollectionAdd (Py.str i)) w2 in
          if collection_add_fails env (trace w2) e
          then (Ok tt, add_log (ErrAddingEmbedding i) w3)
          else (Ok tt, put_collection (collection w ++ [e]) w3)
      end.
Proof.
  unfold add_article, try_except, bind, collection_get, create_embedding,
    collection_add, try_except, bind, emit, logger, set_collection, gets,
    modify, ret, raise, has_record.
  simpl.
  destruct (nonempty _); [reflexivity|].
  simpl.
  destruct (embeddings_create env _ _) as [[|x v]|]; simpl; try reflexivity.
  destruct (collection_add_fails env _ _); reflexivity.
Qed.

Lemma mem_singleton (j k : string) : Py.mem j [k] = String.eqb j k.
Proof. unfold Py.mem. simpl. apply orb_false_r. Qed.

Lemma has_record_records_for (i : Z) (c : list Embedding) :
  has_record i c = negb (Nat.eqb (records_for i c) 0).
Proof.
  unfold has_record, records_for.
  induction c as [|e c IH]; [reflexivity|].
  cbn [map List.filter]. rewrite mem_singleton.
  destruct (String.eqb (emb_id e) (Py.str i)); simpl; auto.
Qed.

Lemma has_record_true (i : Z) (c : list Embedding) :
  has_record i c = true <-> (0 < records_for i c)%nat.
Proof.
  rewrite has_record_records_for.
  destruct (records_for i c); simpl; split; intros; try lia; congruence.
Qed.

Lemma has_record_false (i : Z) (c : list Embedding) :
  has_record i c = false <-> records_for i c = 0%nat.
Proof.
  rewrite has_record_records_for.
  destruct (records_for i c); simpl; split; intros; try lia; congruence.
Qed.

Lemma records_for_app (i : Z) (c1 c2 : list Embedding) :
  records_for i (c1 ++ c2) = (records_for i c1 + records_for i c2)%nat.
Proof. unfold records_for. rewrite List.filter_app, List.length_app. reflexivity. Qed.

Lemma records_for_one (i j : Z) (e : Embedding) :
  emb_id e = Py.str j ->
  records_for i [e] = if Z.eqb i j then 1%nat else 0%nat.
Proof.
  intros He. unfold records_for. simpl. rewrite He.
  destruct (Z.eqb_spec i j) as [->|Hne].
  - rewrite String.eqb_refl. reflexivity.
  - destruct (String.eqb_spec (Py.str j) (Py.str i)) as [Heq|]; [|reflexivity].
    apply str_inj in Heq. congruence.
Qed.

(** The call never raises. *)
Lemma add_article_ok (i : Z) (t s : string) (c : option string) (src : string)
    (w : World) :
  fst (add_article env i t s c src w) = Ok tt.
Proof.
  rewrite add_article_run. cbv zeta.
  destruct (has_record _ _); [reflexivity|].
  destruct (embeddings_create _ _ _) as [[|x v]|]; try reflexivity.
  destruct (collection_add_fails _ _ _); reflexivity.
Qed.

(** The call leaves the Relational Store alone. *)
Lemma add_article_articles (i : Z) (t s : string) (c : option string)
    (src : string) (w : World) :
  articles (snd (add_article env i t s c src w)) = articles w.
Proof.
  rewrite add_article_run. cbv zeta.
  destruct (has_record _ _); [reflexivity|].
  destruct (embeddings_create _ _ _) as [[|x v]|]; try reflexivity.
  destruct (collection_add_fails _ _ _); reflexivity.
Qed.

(** With a record present, the call is one read of the collection. *)
Lemma add_article_present (i : Z) (t s : string) (c : option string)
    (src : string) (w : World) :
  (0 < records_for i (collection w))%nat ->
  add_article env i t s c src w = (Ok tt, add_event EvCollectionGet w).
Proof.
  intros H. apply has_record_true in H. rewrite add_article_run. cbv zeta.
  rewrite H. reflexivity.
Qed.

(** The collection is left as it was, or gains one record for [i], and
    that only when there was none. *)
Lemma add_article_collection (i : Z) (t s : string) (c : option string)
    (src : string) (w : World) :
  let w' := snd (add_article env i t s c src w) in
  collection w' = collection w \/
  (records_for i (collection w) = 0%nat /\
   exists e, emb_id e = Py.str i /\ collection w' = (collection w ++ [e])%list).
Proof.
  cbv zeta. rewrite add_article_run. cbv zeta.
  destruct (has_record _ _) eqn:Hp; [left; reflexivity|].
  apply has_record_false in Hp.
  destruct (embeddings_create _ _ _) as [[|x v]|]; try (left; reflexivity).
  destruct (collection_add_fails _ _ _); [left; reflexivity|].
  right. split; [exact Hp|]. eexists. split; [|reflexivity]. reflexivity.
Qed.

(** The embedder is called once when there is no record, and not at all
    when there is one. *)
Lemma add_article_embed_calls (i : Z) (t s : string) (c : option string)
    (src : string) (w : World) :
  embed_calls (trace (snd (add_article env i t s c src w))) =
    if has_record i (collection w) then embed_calls (trace w)
    else S (embed_calls (trace w)).
Proof.
  rewrite add_article_run. cbv zeta.
  destruct (has_record _ _); [reflexivity|].
  destruct (embeddings_create _ _ _) as [[|x v]|]; try reflexivity.
  destruct (collection_add_fails _ _ _); reflexivity.
Qed.

(** With no record, a non-empty vector and an accepted write, the record
    is created. *)
Lemma add_article_creates (i : Z) (t s : string) (c : option string)
    (src : string) (w : World) (x : Q) (v : list Q) :
  records_for i (collection w) = 0%nat ->
  embeddings_create env (EvCollectionGet :: trace w) (embedding_text t s)
    = Some (x :: v) ->
  (forall e, collection_add_fails env
     (EvEmbeddingsCreate (embedding_text t s) :: EvCollectionGet :: trace w) e
     = false) ->
  exists e, emb_id e = Py.str i /\ emb_vector e = x :: v /\
    meta_category (emb_metadata e) = c /\
    collection (snd (add_article env i t s c src w)) = (collection w ++ [e])%list.
Proof.
  intros Hn He Ha. apply has_record_false in Hn.
  rewrite add_article_run. cbv zeta. rewrite Hn.
  unfold embedding_text in *. simpl trace. rewrite He, Ha.
  eexists. split; [|split; [|split]].
  4: reflexivity.
  all: reflexivity.
Qed.

End AddArticle.

(** C4, as amended.  For every article identifier: a call of
    [add_article] never raises; when an Embedding Record for the identifier
    exists the call leaves the Vector Index unchanged and does nothing but
    read it (the presence check comes before the embedding is computed, so
    the embedder is not invoked); calling it twice leaves at most one
    record where there was none, and never adds to the records there were;
    and when there was none, the embedder answers the first call with a
    non-empty vector and the Vector Index accepts the write, there is
    exactly one record after the first call and the second call changes
    nothing and does not invoke the embedder. *)
Theorem add_article_idempotent (env : Env) (i : Z) (t1 s1 : string)
    (c1 : option string) (src1 : string) (t2 s2 : string)
    (c2 : option string) (src2 : string) (w : World) :
  let w1 := snd (add_article env i t1 s1 c1 src1 w) in
  let w2 := snd (add_article env i t2 s2 c2 src2 w1) in
  fst (add_article env i t1 s1 c1 src1 w) = Ok tt /\
  fst (add_article env i t2 s2 c2 src2 w1) = Ok tt /\
  ((0 < records_for i (collection w))%nat ->
     collection w1 = collection w /\
     trace w1 = EvCollectionGet :: trace w /\
     embed_calls (trace w1) = embed_calls (trace w)) /\
  (records_for i (collection w2) <= Nat.max 1 (records_for i (collection w)))%nat /\
  (forall x v,
     records_for i (collection w) = 0%nat ->
     embeddings_create env (EvCollectionGet :: trace w) (embedding_text t1 s1)
       = Some (x :: v) ->
     (forall e, collection_add_fails env
        (EvEmbeddingsCreate (embedding_text t1 s1) :: EvCollectionGet :: trace w) e
        = false) ->
     records_for i (collection w1) = 1%nat /\
     collection w2 = collection w1 /\
     records_for i (collection w2) = 1%nat /\
     embed_calls (trace w2) = embed_calls (trace w1)).
Proof.
  cbv zeta.
  split; [apply add_article_ok|].
  split; [apply add_article_ok|].
  split.
  { intros Hp. rewrite (add_article_present env _ _ _ _ _ _ Hp). simpl.
    repeat split. }
  split.
  { pose proof (add_article_collection env i t1 s1 c1 src1 w) as H1.
    set (w1 := snd (add_article env i t1 s1 c1 src1 w)) in *.
    pose proof (add_article_collection env i t2 s2 c2 src2 w1) as H2.
    cbv zeta in H1, H2.
    destruct H2 as [H2|(H20 & e2 & He2 & H2)]; rewrite H2;
      destruct H1 as [H1|(H10 & e1 & He1 & H1)].
    - rewrite H1. lia.
    - rewrite H1, records_for_app, (records_for_one i i e1 He1), Z.eqb_refl. lia.
    - rewrite records_for_app, (records_for_one i i e2 He2), Z.eqb_refl.
      rewrite H1 in *. lia.
    - rewrite H1, records_for_app, (records_for_one i i e1 He1), Z.eqb_refl in H20.
      lia. }
  intros x v Hn He Ha.
  destruct (add_article_creates env i t1 s1 c1 src1 w x v Hn He Ha)
    as (e & Hid & _ & _ & Hc).
  assert (H1 : records_for i (collection (snd (add_article env i t1 s1 c1 src1 w))) = 1%nat).
  { rewrite Hc, records_for_app, Hn, (records_for_one i i e Hid), Z.eqb_refl.
    reflexivity. }
  assert (Hp : (0 < records_for i
                  (collection (snd (add_article env i t1 s1 c1 src1 w))))%nat) by lia.
  rewrite (add_article_present env _ t2 s2 c2 src2 _ Hp). simpl.
  repeat split; assumption.
Qed.

(** The instance of [add_article_idempotent] for the article of the
    scenario, on empty stores with a working embedder. *)
Lemma add_article_idempotent_witness :
  let w1 := snd (add_article env_ok 1 "Zero-day in X" "critical flaw"
                   (Some "Cybersecurity") "rss:test" empty_world) in
  let w2 := snd (add_article env_ok 1 "Zero-day in X" "critical flaw"
                   (Some "Cybersecurity") "rss:test" w1) in
  records_for 1 (collection w1) = 1%nat /\
  collection w2 = collection w1 /\
  records_for 1 (collection w2) = 1%nat /\
  embed_calls (trace w2) = embed_calls (trace w1).
Proof.
  cbv zeta.
  apply (add_article_idempotent env_ok 1 "Zero-day in X" "critical flaw"
           (Some "Cybersecurity") "rss:test" "Zero-day in X" "critical flaw"
           (Some "Cybersecurity") "rss:test" empty_world) with (x := 1%Q) (v := [0%Q]).
  - reflexivity.
  - reflexivity.
  - intros e. reflexivity.
Defined.

(** C4 as stated fails: with an embedder that fails, two calls of
    [add_article] for the same identifier leave no Embedding Record, not
    exactly one. *)
Lemma add_article_twice_no_record :
  let w1 := snd (add_article env_no_embedding 1 "Zero-day in X" "critical flaw"
                   (Some "Cybersecurity") "rss:test" empty_world) in
  let w2 := snd (add_article env_no_embedding 1 "Zero-day in X" "critical flaw"
                   (Some "Cybersecurity") "rss:test" w1) in
  records_for 1 (collection w2) = 0%nat /\ collection w2 = [].
Proof. vm_compute. split; reflexivity. Qed.

(** ** Classification, [classify_article] *)

Section Classify.

Context (env : Env) (settings : Settings).

(** What one call does outside mock mode: one call of the adapter, and a
    category in every case. *)
Lemma classify_article_run (clf : ClassificationService) (title summary : string)
    (w : World) :
  mock_mode clf = false ->
  classify_article env settings clf title summary w =
    let w1 := add_event (EvResponsesParse (content_of title summary)) w in
    match responses_parse env (trace w) (instructions_of settings) (content_of title summary) with
    | None => (Ok fallback_category, add_log ErrClassifying w1)
    | Some classification =>
        if Py.mem (cc_category classification) (news_categories settings)
        then (Ok (cc_category classification), w1)
        else (Ok fallback_category,
              add_log (WarnInvalidCategory (cc_category classification)) w1)
    end.
Proof.
  intros Hm. unfold classify_article, content_of, instructions_of. rewrite Hm.
  unfold try_except, bind, client_responses_parse, bind, gets, emit, modify,
    logger, modify, ret, raise.
  simpl.
  destruct (Py.truthy summary);
    destruct (responses_parse env _ _ _) as [cl|]; simpl; try reflexivity;
    destruct (Py.mem _ _); reflexivity.
Qed.

(** What one call does in mock mode. *)
Lemma classify_article_mock_run (clf : ClassificationService)
    (title summary : string) (w : World) :
  mock_mode clf = true ->
  classify_article env settings clf title summary w =
    let w1 := add_event EvRandomChoice w in
    match news_categories settings with
    | [] => (Raised IndexError, w1)
    | c :: rest =>
        (Ok (nth (random_index env (trace w) mod length (c :: rest))%nat
               (c :: rest) c), w1)
    end.
Proof.
  intros Hm. unfold classify_article. rewrite Hm.
  unfold _mock_classify, bind, gets, emit, modify, ret, raise. simpl.
  destruct (news_categories settings); reflexivity.
Qed.

(** A call changes neither store, records one classification and no call
    of the embedder, and raises nothing but the [IndexError] of the mock. *)
Lemma classify_article_effect (clf : ClassificationService)
    (title summary : string) (w : World) :
  let r := classify_article env settings clf title summary w in
  articles (snd r) = articles w /\
  collection (snd r) = collection w /\
  classify_calls (trace (snd r)) = S (classify_calls (trace w)) /\
  embed_calls (trace (snd r)) = embed_calls (trace w) /\
  parse_calls (trace (snd r)) =
    (if mock_mode clf then parse_calls (trace w) else S (parse_calls (trace w))) /\
  ((exists c, fst r = Ok c) \/ (fst r = Raised IndexError /\ mock_mode clf = true)).
Proof.
  cbv zeta. destruct (mock_mode clf) eqn:Hm.
  - rewrite classify_article_mock_run by assumption. cbv zeta.
    destruct (news_categories settings); simpl; repeat split; eauto.
  - rewrite classify_article_run by assumption. cbv zeta.
    destruct (responses_parse env _ _ _) as [cl|]; [destruct (Py.mem _ _)|];
      simpl; repeat split; eauto.
Qed.

End Classify.

(** ** One turn of the ingestion loop, [save_one] *)

Section SaveOne.

Context (env : Env) (settings : Settings) (clf : ClassificationService).

Lemma find_new_row (rows : list Article.t) (row : Article.t) :
  url_exists (Article.url row) rows = false ->
  find (fun r => String.eqb (Article.url r) (Article.url row)) (rows ++ [row])%list
    = Some row.
Proof.
  induction rows as [|r rows IH]; simpl.
  - intros _. rewrite String.eqb_refl. reflexivity.
  - destruct (String.eqb (Article.url r) (Article.url row)); simpl;
      [discriminate|exact IH].
Qed.

(** What one turn does, case by case: the classification comes first, then
    the insert, then the embedding. *)
Lemma save_one_run (a : ArticleData) (f : Frame) :
  session_new f = [] ->
  save_one env settings clf a f =
    match classify_article env settings clf (data_title a) (get_summary a)
            (world f) with
    | (Raised e, w1) =>
        (Ok tt,
         mk_frame
           match e with
           | IntegrityError => add_event EvSqlRollback w1
           | _ => add_log ErrSavingArticle (add_event EvSqlRollback w1)
           end
           (saved_count f))
    | (Ok category, w1) =>
        let init := init_of a category in
        let w2 := add_event (EvSqlInsert (data_url a)) w1 in
        if url_exists (data_url a) (articles w1)
        then (Ok tt, mk_frame (add_event EvSqlRollback w2) (saved_count f))
        else if commit_fails env (trace w1) init
        then (Ok tt,
              mk_frame (add_log ErrSavingArticle (add_event EvSqlRollback w2))
                (saved_count f))
        else
          let row := new_row (articles w1) (utcnow env (trace w1)) init in
          let w3 := add_event EvSqlSelect
                      (put_articles (articles w1 ++ [row]) w2) in
          (Ok tt,
           mk_frame
             (snd (add_article env (Article.id row) (Article.title row)
                     (Py.or_empty (Article.summary row)) (Some category)
                     (Article.source row) w3))
             (saved_count f + 1))
    end.
Proof.
  destruct f as [w pend n]. simpl. intros ->.
  unfold save_one, save_article, try_except, bind, zoom. simpl.
  destruct (classify_article env settings clf _ _ w) as [[category|e] w1]; simpl.
  2: { destruct e; reflexivity. }
  unfold session_commit, session_rollback, bind, zoom, gets, emit, modify,
    set_articles, modify, ret, raise, logger, modify. simpl.
  destruct (url_exists (data_url a) (articles w1)) eqn:Hu; simpl; [reflexivity|].
  destruct (commit_fails env (trace w1) _) eqn:Hc; simpl; [reflexivity|].
  unfold session_refresh, bind, emit, gets, modify, ret. simpl.
  pose proof (find_new_row (articles w1)
                (new_row (articles w1) (utcnow env (trace w1)) (init_of a category)))
    as Hf.
  simpl in Hf. unfold init_of in *. rewrite (Hf Hu).
  simpl.
  match goal with
  | |- context [add_article ?e ?i ?t ?s ?c ?src ?w0] =>
      pose proof (add_article_ok e i t s c src w0) as Hok;
      destruct (add_article e i t s c src w0) as [r w4]
  end.
  simpl in Hok. subst r. reflexivity.
Qed.

(** The two ways a turn can end.  Either the article is not stored: both
    stores, the counter and the number of embedder calls are as before.
    Or it is stored: the URL was new, the write went through, the table
    gains one row carrying the category the classifier gave, the counter
    gains one, and [add_article] has run for the new row.  In both cases
    the turn itself raises nothing, leaves the session empty and has asked
    for exactly one classification. *)
Lemma save_one_effect (a : ArticleData) (f : Frame) :
  session_new f = [] ->
  let r := save_one env settings clf a f in
  let f' := snd r in
  fst r = Ok tt /\
  session_new f' = [] /\
  classify_calls (trace (world f')) = S (classify_calls (trace (world f))) /\
  parse_calls (trace (world f')) =
    (if mock_mode clf then parse_calls (trace (world f))
     else S (parse_calls (trace (world f)))) /\
  ((articles (world f') = articles (world f) /\
    collection (world f') = collection (world f) /\
    saved_count f' = saved_count f /\
    embed_calls (trace (world f')) = embed_calls (trace (world f)) /\
    (fst (classify_article env settings clf (data_title a) (get_summary a)
            (world f)) = Raised IndexError \/
     url_exists (data_url a) (articles (world f)) = true \/
     exists category w1,
       classify_article env settings clf (data_title a) (get_summary a)
         (world f) = (Ok category, w1) /\
       commit_fails env (trace w1) (init_of a category) = true))
   \/
   (exists category w1 row,
      classify_article env settings clf (data_title a) (get_summary a) (world f)
        = (Ok category, w1) /\
      url_exists (data_url a) (articles (world f)) = false /\
      commit_fails env (trace w1) (init_of a category) = false /\
      row = new_row (articles (world f)) (utcnow env (trace w1))
              (init_of a category) /\
      articles (world f') = (articles (world f) ++ [row])%list /\
      saved_count f' = saved_count f + 1 /\
      (collection (world f') = collection (world f) \/
       (records_for (Article.id row) (collection (world f)) = 0%nat /\
        exists e, emb_id e = Py.str (Article.id row) /\
          collection (world f') = (collection (world f) ++ [e])%list)) /\
      embed_calls (trace (world f')) =
        (if has_record (Article.id row) (collection (world f))
         then embed_calls (trace (world f))
         else S (embed_calls (trace (world f)))))).
Proof.
  intros Hs. cbv zeta. rewrite (save_one_run a f Hs).
  pose proof (classify_article_effect env settings clf (data_title a)
                (get_summary a) (world f)) as Hc.
  cbv zeta in Hc.
  destruct (classify_article env settings clf (data_title a) (get_summary a)
              (world f)) as [[category|e] w1].
  2: { simpl in Hc. destruct Hc as (Ha & Hco & Hcl & He & Hp & Hr).
       assert (e = IndexError) as ->.
       { destruct Hr as [[c Hr]|[Hr _]]; congruence. }
       simpl. repeat split; try assumption.
       left. repeat split; try assumption. left. reflexivity. }
  simpl in Hc. destruct Hc as (Ha & Hco & Hcl & He & Hp & _).
  cbv zeta. rewrite Ha.
  destruct (url_exists (data_url a) (articles (world f))) eqn:Hu.
  { simpl. repeat split; try assumption.
    left. repeat split; try assumption. right. left. reflexivity. }
  destruct (commit_fails env (trace w1) (init_of a category)) eqn:Hcf.
  { simpl. repeat split; try assumption.
    left. repeat split; try assumption. right. right.
    exists category, w1. split; [reflexivity|exact Hcf]. }
  set (row := new_row (articles (world f)) (utcnow env (trace w1))
                (init_of a category)).
  set (w3 := add_event EvSqlSelect _).
  pose proof (add_article_articles env (Article.id row) (Article.title row)
                (Py.or_empty (Article.summary row)) (Some category)
                (Article.source row) w3) as Haa.
  pose proof (add_article_collection env (Article.id row) (Article.title row)
                (Py.or_empty (Article.summary row)) (Some category)
                (Article.source row) w3) as Hac.
  pose proof (add_article_embed_calls env (Article.id row) (Article.title row)
                (Py.or_empty (Article.summary row)) (Some category)
                (Article.source row) w3) as Hae.
  pose proof (add_article_run env (Article.id row) (Article.title row)
                (Py.or_empty (Article.summary row)) (Some category)
                (Article.source row) w3) as Hrun.
  cbv zeta in Hac.
  assert (Htr : classify_calls (trace (snd (add_article env (Article.id row)
                  (Article.title row) (Py.or_empty (Article.summary row))
                  (Some category) (Article.source row) w3)))
                = classify_calls (trace w1) /\
                parse_calls (trace (snd (add_article env (Article.id row)
                  (Article.title row) (Py.or_empty (Article.summary row))
                  (Some category) (Article.source row) w3)))
                = parse_calls (trace w1)).
  { rewrite Hrun. cbv zeta.
    destruct (has_record _ _); [split; reflexivity|].
    destruct (embeddings_create _ _ _) as [[|x v]|]; try (split; reflexivity).
    destruct (collection_add_fails _ _ _); split; reflexivity. }
  destruct Htr as [Htr1 Htr2].
  assert (Hc3 : collection w3 = collection w1) by reflexivity.
  assert (Ht3 : embed_calls (trace w3) = embed_calls (trace w1)) by reflexivity.
  cbn [fst snd mk_frame world session_new saved_count].
  split; [reflexivity|]. split; [reflexivity|].
  split; [rewrite Htr1; exact Hcl|].
  split; [rewrite Htr2; exact Hp|].
  right. exists category, w1, row.
  split; [reflexivity|]. split; [reflexivity|]. split; [exact Hcf|].
  split; [reflexivity|].
  split; [rewrite Haa; reflexivity|].
  split; [reflexivity|].
  rewrite Hc3, Hco in Hac. rewrite Hc3, Ht3, Hco, He in Hae.
  split; [exact Hac|exact Hae].
Qed.

End SaveOne.

(** ** The ingestion loop, [save_loop] and [save_articles] *)

Section SaveLoop.

Context (env : Env) (settings : Settings) (clf : ClassificationService).

Lemma save_loop_cons (a : ArticleData) (l : list ArticleData) (f : Frame) :
  session_new f = [] ->
  save_loop env settings clf (a :: l) f =
    save_loop env settings clf l (snd (save_one env settings clf a f)).
Proof.
  intros Hs. destruct (save_one_effect env settings clf a f Hs) as (Hok & _).
  simpl. unfold bind.
  destruct (save_one env settings clf a f) as [r f']. simpl in Hok. subst r.
  reflexivity.
Qed.

(** The loop raises nothing and ends with an empty session. *)
Lemma save_loop_ok (l : list ArticleData) (f : Frame) :
  session_new f = [] ->
  fst (save_loop env settings clf l f) = Ok tt /\
  session_new (snd (save_loop env settings clf l f)) = [].
Proof.
  revert f. induction l as [|a l IH]; intros f Hs.
  - simpl. auto.
  - rewrite save_loop_cons by assumption. apply IH.
    apply (save_one_effect env settings clf a f Hs).
Qed.

(** The articles of a batch are processed one after the other: the loop on
    [l1 ++ l2] is the loop on [l2] started where the loop on [l1] ended. *)
Lemma save_loop_app (l1 l2 : list ArticleData) (f : Frame) :
  session_new f = [] ->
  save_loop env settings clf (l1 ++ l2)%list f =
    save_loop env settings clf l2 (snd (save_loop env settings clf l1 f)).
Proof.
  revert f. induction l1 as [|a l1 IH]; intros f Hs.
  - reflexivity.
  - change ((a :: l1) ++ l2)%list with (a :: (l1 ++ l2))%list.
    rewrite !save_loop_cons by assumption. apply IH.
    apply (save_one_effect env settings clf a f Hs).
Qed.

(** Whatever every turn preserves, the loop preserves. *)
Lemma save_loop_invariant (I : Frame -> Prop) :
  (forall a f, session_new f = [] -> I f ->
     I (snd (save_one env settings clf a f))) ->
  forall l f, session_new f = [] -> I f ->
    I (snd (save_loop env settings clf l f)).
Proof.
  intros Hstep l. induction l as [|a l IH]; intros f Hs Hf.
  - exact Hf.
  - rewrite save_loop_cons by assumption. apply IH.
    + apply (save_one_effect env settings clf a f Hs).
    + apply Hstep; assumption.
Qed.

Lemma frame_after_session (l : list ArticleData) (w : World) :
  session_new (frame_after env settings clf l w) = [].
Proof. apply save_loop_ok. reflexivity. Qed.

Lemma frame_after_snoc (l : list ArticleData) (a : ArticleData) (w : World) :
  frame_after env settings clf (l ++ [a])%list w =
    snd (save_one env settings clf a (frame_after env settings clf l w)).
Proof.
  unfold frame_after. rewrite save_loop_app by reflexivity.
  rewrite save_loop_cons by (apply save_loop_ok; reflexivity).
  reflexivity.
Qed.


(** [save_articles] returns the counter of the last frame and leaves the
    world of the last frame: it never raises. *)
Lemma save_articles_run (l : list ArticleData) (w : World) :
  save_articles env settings clf l w =
    (Ok (saved_count (frame_after env settings clf l w)),
     world (frame_after env settings clf l w)).
Proof.
  unfold save_articles, frame_after, bind, gets.
  pose proof (save_loop_ok l (init_frame w) eq_refl) as [Hok _].
  unfold init_frame in *.
  destruct (save_loop env settings clf l _) as [r f]. simpl in Hok. subst r.
  reflexivity.
Qed.

(** The table only grows, at its end, and the counter counts the rows
    gained; every article of the batch is classified once. *)
Lemma save_loop_grows (l : list ArticleData) (f : Frame) :
  session_new f = [] ->
  let f' := snd (save_loop env settings clf l f) in
  classify_calls (trace (world f')) =
    (classify_calls (trace (world f)) + length l)%nat /\
  exists new,
    articles (world f') = (articles (world f) ++ new)%list /\
    saved_count f' = saved_count f + Z.of_nat (length new) /\
    (length new <= length l)%nat.
Proof.
  revert f. induction l as [|a l IH]; intros f Hs; cbv zeta.
  - simpl. split; [lia|]. exists []. rewrite List.app_nil_r. simpl.
    repeat split; lia.
  - rewrite save_loop_cons by assumption.
    destruct (save_one_effect env settings clf a f Hs)
      as (_ & Hs' & Hcl & _ & Hcase).
    destruct (IH _ Hs') as (Hcl' & new & Ha & Hn & Hlen).
    split; [rewrite Hcl', Hcl; simpl; lia|].
    destruct Hcase as [(Ha1 & _ & Hn1 & _)
                      |(c & w1 & row & _ & _ & _ & _ & Ha1 & Hn1 & _)].
    + exists new. rewrite Ha, Ha1, Hn, Hn1. simpl. repeat split; lia.
    + exists (row :: new). rewrite Ha, Ha1, Hn, Hn1, <- List.app_assoc.
      simpl. repeat split; lia.
Qed.

Lemma url_exists_app (u : string) (rows new : list Article.t) :
  url_exists u rows = true -> url_exists u (rows ++ new)%list = true.
Proof.
  unfold url_exists. rewrite List.existsb_app. intros ->. reflexivity.
Qed.

(** A URL in the table stays in the table. *)
Lemma url_exists_frame_after (u : string) (l : list ArticleData) (w : World) :
  url_exists u (articles w) = true ->
  url_exists u (articles (world (frame_after env settings clf l w))) = true.
Proof.
  intros Hu. unfold frame_after.
  destruct (save_loop_grows l (init_frame w) eq_refl) as (_ & new & Ha & _).
  rewrite Ha. apply url_exists_app. exact Hu.
Qed.

End SaveLoop.

(** C1, as amended.  For every ingestion batch and every article in it
    (the batch is [pre ++ a :: ...]; [f1] is the state when the turn of [a]
    comes and [f2] the state when it is over): if the URL of [a] is in the
    Relational Store at that moment, [a] is rejected, both stores are left
    unchanged, the counter that [save_articles] returns is not incremented
    and no embedding call is performed; but one classification is performed
    for it, a call of the classifier adapter outside mock mode, because
    [classify_article] runs before the insert is attempted. *)
Theorem duplicate_url_rejected (env : Env) (settings : Settings)
    (clf : ClassificationService) (pre : list ArticleData) (a : ArticleData)
    (w : World) :
  let f1 := frame_after env settings clf pre w in
  let f2 := frame_after env settings clf (pre ++ [a])%list w in
  url_exists (data_url a) (articles (world f1)) = true ->
  articles (world f2) = articles (world f1) /\
  collection (world f2) = collection (world f1) /\
  saved_count f2 = saved_count f1 /\
  embed_calls (trace (world f2)) = embed_calls (trace (world f1)) /\
  classify_calls (trace (world f2)) = S (classify_calls (trace (world f1))) /\
  parse_calls (trace (world f2)) =
    (if mock_mode clf then parse_calls (trace (world f1))
     else S (parse_calls (trace (world f1)))).
Proof.
  cbv zeta. intros Hu. rewrite frame_after_snoc.
  destruct (save_one_effect env settings clf a
              (frame_after env settings clf pre w)
              (frame_after_session env settings clf pre w))
    as (_ & _ & Hcl & Hp & Hcase).
  destruct Hcase as [(Ha & Hc & Hn & He & _)|(c & w1 & row & _ & Hnew & _)].
  - repeat split; assumption.
  - rewrite Hu in Hnew. discriminate.
Qed.

(** [duplicate_url_rejected] for the article of the scenario submitted a
    second time in the same batch. *)
Lemma duplicate_url_rejected_witness :
  let f1 := frame_after env_ok settings_live (classifier settings_live)
              [zero_day] empty_world in
  let f2 := frame_after env_ok settings_live (classifier settings_live)
              ([zero_day] ++ [zero_day])%list empty_world in
  articles (world f2) = articles (world f1) /\
  collection (world f2) = collection (world f1) /\
  saved_count f2 = saved_count f1 /\
  embed_calls (trace (world f2)) = embed_calls (trace (world f1)) /\
  classify_calls (trace (world f2)) = S (classify_calls (trace (world f1))) /\
  parse_calls (trace (world f2)) =
    (if mock_mode (classifier settings_live) then parse_calls (trace (world f1))
     else S (parse_calls (trace (world f1)))).
Proof.
  apply (duplicate_url_rejected env_ok settings_live (classifier settings_live)
           [zero_day] zero_day empty_world).
  vm_compute. reflexivity.
Defined.

(** C1 as stated fails: the URL of [zero_day] is in the Relational Store
    of [world_one], and submitting it again makes one more call of the
    classifier adapter (the second in the trace), while the count returned
    is 0 and the table is unchanged. *)
Lemma duplicate_url_is_classified :
  let r := save_articles env_ok settings_live (classifier settings_live)
             [zero_day] world_one in
  url_exists (data_url zero_day) (articles world_one) = true /\
  fst r = Ok 0 /\
  articles (snd r) = articles world_one /\
  parse_calls (trace world_one) = 1%nat /\
  parse_calls (trace (snd r)) = 2%nat.
Proof. vm_compute. repeat split; reflexivity. Qed.

(** C10.  Every row the ingestion pipeline inserts carries a category
    from the moment it is inserted: in every batch and for every article
    [a] in it, either the table is left as it was or it gains one row whose
    category is the value [classify_article] returned in the state before
    the insert; so the rows gained by any batch all have a category, and a
    table without a null category stays so at every point of the batch. *)
Theorem category_set_at_insertion (env : Env) (settings : Settings)
    (clf : ClassificationService) (pre : list ArticleData) (a : ArticleData)
    (w : World) :
  let f1 := frame_after env settings clf pre w in
  let f2 := frame_after env settings clf (pre ++ [a])%list w in
  (articles (world f2) = articles (world f1) \/
   exists category w1 row,
     classify_article env settings clf (data_title a) (get_summary a) (world f1)
       = (Ok category, w1) /\
     articles (world f2) = (articles (world f1) ++ [row])%list /\
     Article.url row = data_url a /\
     Article.category row = Some category) /\
  (exists new,
     articles (world f1) = (articles w ++ new)%list /\
     Forall (fun r => Article.category r <> None) new) /\
  (Forall (fun r => Article.category r <> None) (articles w) ->
   Forall (fun r => Article.category r <> None) (articles (world f1))).
Proof.
  cbv zeta.
  assert (Hnew : exists new,
            articles (world (frame_after env settings clf pre w))
              = (articles w ++ new)%list /\
            Forall (fun r => Article.category r <> None) new).
  { unfold frame_after.
    apply (save_loop_invariant env settings clf
             (fun f => exists new,
                  articles (world f) = (articles w ++ new)%list /\
                  Forall (fun r => Article.category r <> None) new)).
    - intros a0 f Hs (new & Ha & Hf).
      destruct (save_one_effect env settings clf a0 f Hs)
        as (_ & _ & _ & _ & Hcase).
      destruct Hcase as [(Ha1 & _)|(c & w1 & row & _ & _ & _ & Hrow & Ha1 & _)].
      + exists new. rewrite Ha1. auto.
      + exists (new ++ [row])%list. rewrite Ha1, Ha, List.app_assoc.
        split; [reflexivity|].
        apply Forall_app. split; [exact Hf|].
        constructor; [|constructor]. subst row. simpl. discriminate.
    - reflexivity.
    - exists []. rewrite List.app_nil_r. split; [reflexivity|constructor]. }
  split; [|split].
  - rewrite frame_after_snoc.
    destruct (save_one_effect env settings clf a
                (frame_after env settings clf pre w)
                (frame_after_session env settings clf pre w))
      as (_ & _ & _ & _ & Hcase).
    destruct Hcase as [(Ha1 & _)|(c & w1 & row & Hc & _ & _ & Hrow & Ha1 & _)].
    + left. exact Ha1.
    + right. exists c, w1, row. subst row. repeat split; assumption.
  - exact Hnew.
  - intros Hw. destruct Hnew as (new & Ha & Hf). rewrite Ha.
    apply Forall_app. split; assumption.
Qed.

(** [category_set_at_insertion] for the two articles of the fixtures: the
    table was empty and both rows have their category. *)
Lemma category_set_at_insertion_witness :
  Forall (fun r => Article.category r <> None)
    (articles (world (frame_after env_ok settings_live
                        (classifier settings_live) [zero_day; patch_day]
                        empty_world))).
Proof.
  apply (category_set_at_insertion env_ok settings_live
           (classifier settings_live) [zero_day; patch_day] zero_day
           empty_world).
  constructor.
Defined.

(** ** Fresh identifiers and coherence of the two stores *)

Lemma fold_max_ge (x : Z) (l : list Z) :
  x <= fold_right Z.max x l /\ forall y, In y l -> y <= fold_right Z.max x l.
Proof.
  induction l as [|z l [IH1 IH2]]; simpl.
  - split; [lia|]. intros y [].
  - split; [lia|]. intros y [->|Hy]; [lia|]. specialize (IH2 y Hy). lia.
Qed.

(** The identifier SQLite gives a new row is above every identifier in the
    table. *)
Lemma next_id_gt (rows : list Article.t) (r : Article.t) :
  In r rows -> Article.id r < next_id rows.
Proof.
  destruct rows as [|r0 rows]; [intros []|].
  unfold next_id.
  destruct (fold_max_ge (Article.id r0) (map Article.id rows)) as [H1 H2].
  intros [<-|Hin]; [lia|].
  specialize (H2 (Article.id r) (in_map Article.id _ _ Hin)). lia.
Qed.

Lemma records_for_zero (i : Z) (c : list Embedding) :
  (forall e, In e c -> emb_id e <> Py.str i) -> records_for i c = 0%nat.
Proof.
  unfold records_for. induction c as [|e c IH]; intros H; [reflexivity|].
  simpl. destruct (String.eqb_spec (emb_id e) (Py.str i)) as [Heq|_].
  - exfalso. apply (H e); [left; reflexivity|exact Heq].
  - apply IH. intros e' He'. apply H. right. exact He'.
Qed.

(** In a coherent world the next identifier has no Embedding Record. *)
Lemma coherent_fresh (w : World) :
  coherent w -> has_record (next_id (articles w)) (collection w) = false.
Proof.
  intros Hc. apply has_record_false. apply records_for_zero.
  intros e He Heq. destruct (Hc e He) as (r & Hr & Hid).
  rewrite Hid in Heq. apply str_inj in Heq.
  pose proof (next_id_gt _ _ Hr). lia.
Qed.

Section Coherence.

Context (env : Env) (settings : Settings) (clf : ClassificationService).


(** So does [add_article] for the identifier of a stored row. *)
Lemma add_article_coherent (r : Article.t) (t s : string)
    (c : option string) (src : string) (w : World) :
  In r (articles w) -> coherent w ->
  coherent (snd (add_article env (Article.id r) t s c src w)).
Proof.
  intros Hr Hc e He.
  rewrite add_article_articles.
  destruct (add_article_collection env (Article.id r) t s c src w)
    as [Hco|(_ & e' & Hid & Hco)]; rewrite Hco in He.
  - apply Hc. exact He.
  - apply in_app_or in He. destruct He as [He|[<-|[]]].
    + apply Hc. exact He.
    + exists r. split; assumption.
Qed.


End Coherence.

(** ** Classifier failures *)

Section Fallback.

Context (env : Env) (settings : Settings) (clf : ClassificationService).



End Fallback.




(** ** Failures inside a batch *)





(** ** The reconciler, [sync_missing_embeddings] *)

Section Sync.

Context (env : Env).

(** What one call does: two or three reads, the loop, the summary line;
    the value is [None] whatever the loop counted. *)
Lemma sync_run (w : World) :
  sync_missing_embeddings env w =
    let w2 := add_event EvCollectionCount (add_event EvSqlSelect w) in
    let w3 := if 0 <? Z.of_nat (length (collection w))
              then add_event EvCollectionGet w2 else w2 in
    match sync_loop env (existing_ids_of (collection w)) (articles w) 0 w3 with
    | (Ok missing_count, w4) =>
        (Ok Py.None_,
         add_log (InfoSyncComplete (Z.of_nat (length (articles w))) missing_count)
           w4)
    | (Raised e, w4) => (Ok Py.None_, add_log ErrSyncing w4)
    end.
Proof.
  unfold sync_missing_embeddings, try_finally, try_except, bind, query_all,
    collection_count, collection_get_all, bind, emit, gets, modify, logger,
    modify, ret, existing_ids_of.
  simpl.
  destruct (0 <? Z.of_nat (length (collection w))); simpl;
    match goal with
    | |- context [sync_loop ?e ?s ?l ?m ?w0] =>
        destruct (sync_loop e s l m w0) as [[m'|ex] w4]
    end; reflexivity.
Qed.

(** Rows whose identifier is in [existing_ids] are skipped. *)
Lemma sync_loop_skip (existing : gset string) (l : list Article.t) (m : Z)
    (w : World) :
  (forall r, In r l -> Py.str (Article.id r) ∈ existing) ->
  sync_loop env existing l m w = (Ok m, w).
Proof.
  revert m w. induction l as [|r l IH]; intros m w H; [reflexivity|].
  simpl. rewrite bool_decide_eq_true_2 by (apply H; left; reflexivity).
  simpl. apply IH. intros r' Hr'. apply H. right. exact Hr'.
Qed.

(** Rows without a record are all embedded when the embedder and the
    Vector Index work: one record each, in the order of the rows. *)
Lemma sync_loop_embeds (existing : gset string) (l : list Article.t) (m : Z)
    (w : World) :
  index_accepts env ->
  (forall r, In r l -> embeds env r) ->
  (forall r, In r l -> Py.str (Article.id r) ∉ existing) ->
  List.NoDup (map Article.id l) ->
  (forall r, In r l -> records_for (Article.id r) (collection w) = 0%nat) ->
  exists w' new,
    sync_loop env existing l m w = (Ok (m + Z.of_nat (length l)), w') /\
    collection w' = (collection w ++ new)%list /\
    map emb_id new = map (fun r => Py.str (Article.id r)) l /\
    articles w' = articles w /\
    log w' = log w /\
    embed_calls (trace w') = (embed_calls (trace w) + length l)%nat.
Proof.
  intros Hacc. revert m w.
  induction l as [|r l IH]; intros m w Hemb Hnot Hnd Hrec.
  - exists w, []. simpl. rewrite List.app_nil_r, Z.add_0_r.
    repeat split. lia.
  - simpl.
    rewrite bool_decide_eq_false_2 by (apply Hnot; left; reflexivity).
    simpl. unfold bind.
    pose proof (add_article_ok env (Article.id r) (Article.title r)
                  (Py.or_empty (Article.summary r)) (Article.category r)
                  (Article.source r) w) as Hok.
    pose proof (add_article_articles env (Article.id r) (Article.title r)
                  (Py.or_empty (Article.summary r)) (Article.category r)
                  (Article.source r) w) as Hart.
    pose proof (add_article_embed_calls env (Article.id r) (Article.title r)
                  (Py.or_empty (Article.summary r)) (Article.category r)
                  (Article.source r) w) as Hec.
    assert (Hr0 : records_for (Article.id r) (collection w) = 0%nat)
      by (apply Hrec; left; reflexivity).
    destruct (Hemb r (or_introl eq_refl) (EvCollectionGet :: trace w))
      as (x & v & Hx).
    destruct (add_article_creates env (Article.id r) (Article.title r)
                (Py.or_empty (Article.summary r)) (Article.category r)
                (Article.source r) w x v Hr0 Hx (fun e => Hacc _ e))
      as (e & Hid & _ & _ & Hcol).
    assert (Hlog : log (snd (add_article env (Article.id r) (Article.title r)
                     (Py.or_empty (Article.summary r)) (Article.category r)
                     (Article.source r) w)) = log w).
    { rewrite add_article_run. cbv zeta.
      rewrite (proj2 (has_record_false _ _) Hr0).
      unfold embedding_text in Hx. simpl trace. rewrite Hx, Hacc. reflexivity. }
    rewrite (proj2 (has_record_false _ _) Hr0) in Hec.
    destruct (add_article env (Article.id r) (Article.title r)
                (Py.or_empty (Article.summary r)) (Article.category r)
                (Article.source r) w) as [res w1].
    simpl in Hok, Hart, Hec, Hcol, Hlog. subst res.
    inversion Hnd as [|i ids Hni Hnd']; subst.
    destruct (IH (m + 1) w1) as (w' & new & Hl & Hc & Hids & Ha & Hlg & He).
    + intros r' Hr'. apply Hemb. right. exact Hr'.
    + intros r' Hr'. apply Hnot. right. exact Hr'.
    + exact Hnd'.
    + intros r' Hr'. rewrite Hcol, records_for_app.
      rewrite (Hrec r' (or_intror Hr')).
      rewrite (records_for_one (Article.id r') (Article.id r) e Hid).
      destruct (Z.eqb_spec (Article.id r') (Article.id r)) as [Heq|]; [|reflexivity].
      exfalso. apply Hni. rewrite <- Heq. apply in_map. exact Hr'.
    + exists w', (e :: new). rewrite Hl, Hc, Hcol, Ha, Hart, Hlg, Hlog, He, Hec.
      rewrite <- List.app_assoc. simpl. rewrite Hid, Hids.
      repeat split; try reflexivity.
      * f_equal. f_equal. lia.
      * lia.
Qed.

Lemma existing_ids_of_spec (c : list Embedding) (e : Embedding) :
  In e c -> emb_id e ∈ existing_ids_of c.
Proof.
  intros He. unfold existing_ids_of.
  assert (Hlen : (0 <? Z.of_nat (length c)) = true)
    by (destruct c; [destruct He|apply Z.ltb_lt; simpl; lia]).
  assert (Hne : nonempty (map emb_id c) = true)
    by (destruct c; [destruct He|reflexivity]).
  rewrite Hlen, Hne. apply elem_of_list_to_set. apply list_elem_of_In.
  apply (in_map emb_id). exact He.
Qed.

(** The reconciler keeps the world coherent. *)
Lemma sync_loop_coherent (existing : gset string) (l : list Article.t)
    (m : Z) (w : World) :
  (forall r, In r l -> In r (articles w)) -> coherent w ->
  coherent (snd (sync_loop env existing l m w)).
Proof.
  revert m w. induction l as [|r l IH]; intros m w Hl Hc; [exact Hc|].
  simpl. destruct (negb (bool_decide _)).
  - unfold bind.
    pose proof (add_article_ok env (Article.id r) (Article.title r)
                  (Py.or_empty (Article.summary r)) (Article.category r)
                  (Article.source r) w) as Hok.
    pose proof (add_article_articles env (Article.id r) (Article.title r)
                  (Py.or_empty (Article.summary r)) (Article.category r)
                  (Article.source r) w) as Ha.
    pose proof (add_article_coherent env r (Article.title r)
                  (Py.or_empty (Article.summary r)) (Article.category r)
                  (Article.source r) w (Hl r (or_introl eq_refl)) Hc) as Hc'.
    destruct (add_article env _ _ _ _ _ w) as [res w1]. simpl in *. subst res.
    apply IH; [|exact Hc'].
    intros r' Hr'. rewrite Ha. apply Hl. right. exact Hr'.
  - apply IH; [|exact Hc]. intros r' Hr'. apply Hl. right. exact Hr'.
Qed.

Lemma sync_coherent (w : World) :
  coherent w -> coherent (snd (sync_missing_embeddings env w)).
Proof.
  intros Hc. rewrite sync_run. cbv zeta.
  set (w3 := if 0 <? Z.of_nat (length (collection w)) then _ else _).
  assert (Hc3 : coherent w3).
  { subst w3. destruct (0 <? _); exact Hc. }
  assert (Ha3 : articles w3 = articles w).
  { subst w3. destruct (0 <? _); reflexivity. }
  pose proof (sync_loop_coherent (existing_ids_of (collection w)) (articles w)
                0 w3) as H.
  rewrite Ha3 in H. specialize (H (fun r Hr => Hr) Hc3).
  destruct (sync_loop env _ _ _ w3) as [[m|e] w4]; exact H.
Qed.

End Sync.

(** C2, as amended.  For every N: if the Relational Store holds N
    articles (with their distinct primary keys) and the Vector Index holds
    none, the embedder returns a non-empty vector for the text of every
    article and the Vector Index accepts the writes, then one call of the
    reconciler creates exactly N Embedding Records, one per article and in
    the order of the articles, with N calls of the embedder, and reports N
    in its summary log line; an immediately following call creates none,
    calls the embedder for none and reports 0.  Both calls evaluate to
    [None]: the function has no return value. *)
Theorem reconcile_converges (env : Env) (w : World) :
  List.NoDup (map Article.id (articles w)) ->
  collection w = [] ->
  (forall r, In r (articles w) -> embeds env r) ->
  index_accepts env ->
  let N := length (articles w) in
  let r1 := sync_missing_embeddings env w in
  let w1 := snd r1 in
  let r2 := sync_missing_embeddings env w1 in
  let w2 := snd r2 in
  fst r1 = Ok Py.None_ /\
  length (collection w1) = N /\
  map emb_id (collection w1)
    = map (fun r => Py.str (Article.id r)) (articles w) /\
  articles w1 = articles w /\
  log w1 = InfoSyncComplete (Z.of_nat N) (Z.of_nat N) :: log w /\
  embed_calls (trace w1) = (embed_calls (trace w) + N)%nat /\
  fst r2 = Ok Py.None_ /\
  collection w2 = collection w1 /\
  log w2 = InfoSyncComplete (Z.of_nat N) 0 :: log w1 /\
  embed_calls (trace w2) = embed_calls (trace w1).
Proof.
  intros Hnd Hc Hemb Hacc. cbv zeta.
  rewrite (sync_run env w). cbv zeta. rewrite Hc.
  change (existing_ids_of []) with (∅ : gset string).
  change (0 <? Z.of_nat (length (@nil Embedding))) with false. cbv iota.
  set (w0 := add_event EvCollectionCount (add_event EvSqlSelect w)).
  destruct (sync_loop_embeds env ∅ (articles w) 0 w0 Hacc Hemb)
    as (w' & new & Hl & Hcol & Hids & Ha & Hlg & He).
  { intros r _. apply not_elem_of_empty. }
  { exact Hnd. }
  { intros r _. subst w0. simpl. rewrite Hc. reflexivity. }
  rewrite Hl. simpl fst. simpl snd.
  assert (Hcol' : collection w' = new).
  { rewrite Hcol. subst w0. simpl. rewrite Hc. reflexivity. }
  assert (Hlen : length new = length (articles w)).
  { rewrite <- (List.length_map emb_id new), Hids, List.length_map. reflexivity. }
  split; [reflexivity|].
  split; [simpl; rewrite Hcol'; exact Hlen|].
  split; [simpl; rewrite Hcol'; exact Hids|].
  split; [simpl; rewrite Ha; reflexivity|].
  split; [simpl; rewrite Hlg; reflexivity|].
  split; [simpl; rewrite He; reflexivity|].
  assert (Ha' : articles w' = articles w) by (rewrite Ha; reflexivity).
  rewrite sync_run. cbv zeta.
  cbn [articles collection add_log]. rewrite Ha', Hcol'.
  rewrite sync_loop_skip.
  2: { intros r Hr.
       assert (Hin : In (Py.str (Article.id r)) (map emb_id new)).
       { rewrite Hids. apply (in_map (fun r => Py.str (Article.id r))). exact Hr. }
       apply in_map_iff in Hin. destruct Hin as (e & Heq & Hin).
       rewrite <- Heq. apply existing_ids_of_spec. exact Hin. }
  destruct (0 <? Z.of_nat (length new)); simpl; rewrite Hcol';
    repeat split; reflexivity.
Qed.

(** [reconcile_converges] on the world of the scenario with its Vector
    Index emptied: one article, no record. *)
Lemma reconcile_converges_witness :
  let r1 := sync_missing_embeddings env_ok world_unindexed in
  let w1 := snd r1 in
  let r2 := sync_missing_embeddings env_ok w1 in
  let w2 := snd r2 in
  fst r1 = Ok Py.None_ /\
  length (collection w1) = length (articles world_unindexed) /\
  map emb_id (collection w1)
    = map (fun r => Py.str (Article.id r)) (articles world_unindexed) /\
  articles w1 = articles world_unindexed /\
  log w1 = InfoSyncComplete (Z.of_nat (length (articles world_unindexed)))
             (Z.of_nat (length (articles world_unindexed)))
             :: log world_unindexed /\
  embed_calls (trace w1)
    = (embed_calls (trace world_unindexed) + length (articles world_unindexed))%nat /\
  fst r2 = Ok Py.None_ /\
  collection w2 = collection w1 /\
  log w2 = InfoSyncComplete (Z.of_nat (length (articles world_unindexed))) 0
             :: log w1 /\
  embed_calls (trace w2) = embed_calls (trace w1).
Proof.
  apply (reconcile_converges env_ok world_unindexed).
  - vm_compute. constructor; [intros []|constructor].
  - reflexivity.
  - intros r _ tr. exists 1%Q, [0%Q]. reflexivity.
  - intros tr e. reflexivity.
Defined.

(** C2 as stated fails: with one article in the Relational Store and no
    record in the Vector Index, the reconciler creates the one record but
    the call evaluates to [None], not to 1; the figure 1 is only logged. *)
Lemma reconcile_returns_none :
  let r := sync_missing_embeddings env_ok world_unindexed in
  length (articles world_unindexed) = 1%nat /\
  collection world_unindexed = [] /\
  length (collection (snd r)) = 1%nat /\
  fst r = Ok Py.None_ /\
  fst r <> Ok (Py.Int 1) /\
  log (snd r) = [InfoSyncComplete 1 1].
Proof. vm_compute. repeat split; try reflexivity. discriminate. Qed.

(** ** Semantic search, [search] *)

Section Search.

Context (env : Env).

Lemma create_embedding_run (text : string) (w : World) :
  create_embedding env text w =
    let w1 := add_event (EvEmbeddingsCreate (Py.take 8000 text)) w in
    match embeddings_create env (trace w) (Py.take 8000 text) with
    | Some embedding => (Ok embedding, w1)
    | None => (Ok [], add_log ErrCreatingEmbedding w1)
    end.
Proof.
  unfold create_embedding, try_except, bind, gets, emit, modify, logger,
    modify, ret, raise.
  simpl. destruct (embeddings_create env _ _); reflexivity.
Qed.

Lemma collection_query_run (q : list Q) (n : Z) (where_filter : option string)
    (w : World) :
  collection_query q n where_filter w =
    let w1 := add_event EvCollectionQuery w in
    if n <=? 0 then (Raised ValueError, w1)
    else if same_dimension (collection w) q
    then (Ok (query_result (query_hits (collection w) q n where_filter)), w1)
    else (Raised ChromaError, w1).
Proof.
  unfold collection_query, bind, gets, emit, modify, ret, raise. simpl.
  destruct (n <=? 0); [reflexivity|].
  destruct (same_dimension (collection w) q); reflexivity.
Qed.

(** Formatting the results touches nothing. *)
Lemma format_results_world (results : QueryResult) (rest : list string)
    (i : nat) (matches : list Match) (w : World) :
  snd (format_results results i rest matches w) = w.
Proof.
  revert i matches. induction rest as [|article_id rest IH]; intros i matches.
  - reflexivity.
  - simpl. unfold bind, index, ret, raise.
    destruct (distances results) as [[|d0 ds]|]; simpl;
      try destruct (nth_error d0 i); simpl; try reflexivity;
      destruct (Py.int article_id); simpl; try reflexivity;
      destruct (metadatas results) as [[|m0 ms]|]; simpl;
      try destruct (nth_error m0 i); simpl; try reflexivity; apply IH.
Qed.

(** A formatted list has one match per identifier. *)
Lemma format_results_length (results : QueryResult) (rest : list string)
    (i : nat) (matches ms : list Match) (w : World) :
  fst (format_results results i rest matches w) = Ok ms ->
  length ms = (length matches + length rest)%nat.
Proof.
  revert i matches. induction rest as [|article_id rest IH]; intros i matches.
  - simpl. intros [= <-]. lia.
  - simpl. unfold bind, index, ret, raise.
    destruct (distances results) as [[|d0 ds]|]; simpl;
      try destruct (nth_error d0 i); simpl; try discriminate;
      destruct (Py.int article_id); simpl; try discriminate;
      destruct (metadatas results) as [[|m0 ms0]|]; simpl;
      try destruct (nth_error m0 i); simpl; try discriminate;
      intros H; apply IH in H; rewrite H, List.length_app; simpl; lia.
Qed.

Lemma nth_error_middle {A B} (f : A -> B) (pre suf : list A) (x : A) :
  nth_error (map f (pre ++ x :: suf)%list) (length pre) = Some (f x).
Proof.
  rewrite List.map_app, List.nth_error_app2 by (rewrite List.length_map; lia).
  rewrite List.length_map, Nat.sub_diag. reflexivity.
Qed.

(** On the columns ChromaDB returns, the loop makes [to_match] of each
    hit, in order, and raises [ValueError] at the first identifier that is
    not an integer. *)
Lemma format_results_hits (hits pre suf : list Hit) (matches : list Match)
    (w : World) :
  hits = (pre ++ suf)%list ->
  format_results (query_result hits) (length pre) (map hit_id suf) matches w =
    match to_matches suf with
    | Some ms => (Ok (matches ++ ms)%list, w)
    | None => (Raised ValueError, w)
    end.
Proof.
  revert pre matches. induction suf as [|h suf IH]; intros pre matches Hh.
  - simpl. rewrite List.app_nil_r. reflexivity.
  - simpl map. simpl to_matches.
    cbn [format_results query_result distances metadatas].
    unfold bind at 1. unfold index at 1. cbn [nth_error]. unfold bind at 1.
    unfold ret at 1. unfold bind at 1. unfold index at 1.
    rewrite Hh, nth_error_middle. unfold bind, ret at 1 2.
    unfold to_match. destruct (Py.int (hit_id h)) as [n|]; [|reflexivity].
    unfold index, ret, raise. cbn [nth_error]. rewrite nth_error_middle.
    specialize (IH (pre ++ [h])%list
                  (matches ++ [{| article_id := n;
                                  score := (1 - hit_distance h)%Q;
                                  metadata := Some (snd h) |}])%list).
    rewrite <- Hh. rewrite List.length_app, Nat.add_1_r in IH.
    rewrite IH by (rewrite Hh, <- List.app_assoc; reflexivity).
    destruct (to_matches suf) as [ms|]; [|reflexivity].
    rewrite <- List.app_assoc. reflexivity.
Qed.

(** What one call does, case by case. *)
Lemma search_run (query : string) (category : option string) (limit : Z)
    (w : World) :
  search env query category limit w =
    match create_embedding env query w with
    | (Ok [], w1) => (Ok [], add_log WarnQueryEmbeddingFailed w1)
    | (Ok (x :: v), w1) =>
        match collection_query (x :: v) limit (where_of category) w1 with
        | (Ok results, w2) =>
            match ids results with
            | (id0 :: ids0) :: _ =>
                match format_results results 0 (id0 :: ids0) [] w2 with
                | (Ok matches, w3) => (Ok matches, w3)
                | (Raised e, w3) => (Ok [], add_log ErrSemanticSearch w3)
                end
            | _ => (Ok [], w2)
            end
        | (Raised e, w2) => (Ok [], add_log ErrSemanticSearch w2)
        end
    | (Raised e, w1) => (Ok [], add_log ErrSemanticSearch w1)
    end.
Proof.
  unfold search, try_except, bind at 1.
  destruct (create_embedding env query w) as [[[|x v]|e] w1]; try reflexivity.
  cbn [nonempty negb]. unfold bind.
  destruct (collection_query (x :: v) limit _ w1) as [[results|e] w2];
    [|reflexivity].
  destruct (ids results) as [|[|id0 ids0] rest]; try reflexivity.
Qed.

(** The hits handed to [format_results] when the query goes through. *)
Lemma search_result (query : string) (category : option string) (limit : Z)
    (w : World) :
  let w1 := add_event (EvEmbeddingsCreate (Py.take 8000 query)) w in
  let w2 := add_event EvCollectionQuery w1 in
  match embeddings_create env (trace w) (Py.take 8000 query) with
  | None =>
      search env query category limit w
        = (Ok [], add_log WarnQueryEmbeddingFailed
                    (add_log ErrCreatingEmbedding w1))
  | Some [] =>
      search env query category limit w
        = (Ok [], add_log WarnQueryEmbeddingFailed w1)
  | Some (x :: v) =>
      if limit <=? 0
      then search env query category limit w
             = (Ok [], add_log ErrSemanticSearch w2)
      else if same_dimension (collection w) (x :: v)
      then
        match to_matches (query_hits (collection w) (x :: v) limit
                            (where_of category)) with
        | Some matches => search env query category limit w = (Ok matches, w2)
        | None => search env query category limit w
                    = (Ok [], add_log ErrSemanticSearch w2)
        end
      else search env query category limit w
             = (Ok [], add_log ErrSemanticSearch w2)
  end.
Proof.
  cbv zeta. rewrite search_run, create_embedding_run. cbv zeta.
  destruct (embeddings_create env (trace w) (Py.take 8000 query))
    as [[|x v]|]; try reflexivity.
  rewrite collection_query_run. cbv zeta.
  destruct (limit <=? 0); [reflexivity|].
  cbn [collection add_event].
  destruct (same_dimension (collection w) (x :: v)); [|reflexivity].
  set (hits := query_hits (collection w) (x :: v) limit (where_of category)).
  pose proof (format_results_hits hits [] hits []
                (add_event EvCollectionQuery
                   (add_event (EvEmbeddingsCreate (Py.take 8000 query)) w))
                eq_refl) as Hf.
  cbn [length List.app] in Hf.
  destruct hits as [|h hits'] eqn:Hh.
  - reflexivity.
  - cbn [query_result ids map] in *. rewrite Hf.
    destruct (to_matches (h :: hits')); reflexivity.
Qed.

Lemma to_matches_length (hits : list Hit) (ms : list Match) :
  to_matches hits = Some ms -> length ms = length hits.
Proof.
  revert ms. induction hits as [|h hits IH]; intros ms; simpl.
  - intros [= <-]. reflexivity.
  - destruct (to_match h); [|discriminate].
    destruct (to_matches hits) as [ms'|]; [|discriminate].
    intros [= <-]. simpl. f_equal. apply IH. reflexivity.
Qed.

Lemma query_hits_length (c : list Embedding) (q : list Q) (n : Z)
    (where_filter : option string) :
  (length (query_hits c q n where_filter) <= Z.to_nat n)%nat.
Proof. unfold query_hits. apply List.firstn_le_length. Qed.

(** [search] raises nothing, leaves both stores as they are, and returns
    at most [limit] matches. *)
Lemma search_effect (query : string) (category : option string) (limit : Z)
    (w : World) :
  exists matches w',
    search env query category limit w = (Ok matches, w') /\
    articles w' = articles w /\
    collection w' = collection w /\
    (length matches <= Z.to_nat limit)%nat.
Proof.
  pose proof (search_result query category limit w) as H. cbv zeta in H.
  destruct (embeddings_create env (trace w) (Py.take 8000 query)) as [[|x v]|].
  2: destruct (limit <=? 0).
  3: destruct (same_dimension (collection w) (x :: v)).
  3: destruct (to_matches _) as [ms|] eqn:Hm.
  all: rewrite H; do 2 eexists; split; [reflexivity|];
    repeat split; simpl; try lia.
  rewrite (to_matches_length _ _ Hm). apply query_hits_length.
Qed.

End Search.

(** ** The search endpoint, [search_news] *)

Lemma mem_In (x : string) (l : list string) : Py.mem x l = true <-> In x l.
Proof.
  unfold Py.mem. rewrite List.existsb_exists. split.
  - intros (y & Hy & Heq). apply String.eqb_eq in Heq. subst y. exact Hy.
  - intros Hx. exists x. split; [exact Hx|apply String.eqb_refl].
Qed.

Lemma truthy_false (s : string) : Py.truthy s = false <-> s = "".
Proof. destruct s; simpl; split; intros; congruence. Qed.

Lemma category_accepted_check (settings : Settings) (request : SearchRequest) :
  category_accepted settings request <->
  Py.truthy_opt (category request)
    && negb (Py.mem_opt (category request) (news_categories settings)) = false.
Proof.
  unfold category_accepted. destruct (category request) as [c|]; simpl.
  - split.
    + intros H. destruct (H c eq_refl) as [->|Hin]; [reflexivity|].
      apply mem_In in Hin. rewrite Hin. apply andb_false_r.
    + intros H c' [= <-]. apply andb_false_iff in H. destruct H as [H|H].
      * left. apply truthy_false. exact H.
      * right. apply mem_In. apply negb_false_iff. exact H.
  - split; [reflexivity|]. intros _ c [=].
Qed.

Lemma after_lookups_stores (n : nat) (w : World) :
  articles (after_lookups n w) = articles w /\
  collection (after_lookups n w) = collection w.
Proof.
  unfold after_lookups. induction n as [|n [IH1 IH2]]; simpl; auto.
Qed.

Lemma after_lookups_succ (n : nat) (w : World) :
  after_lookups n (add_event EvSqlSelect w) = after_lookups (S n) w.
Proof.
  unfold after_lookups. induction n as [|n IH]; simpl; [reflexivity|].
  rewrite IH. reflexivity.
Qed.

(** The hydration loop: one lookup per match, in order; a match without a
    row adds nothing. *)
Lemma enrich_run (results : list Match) (found : list ArticleDict) (w : World) :
  enrich results found w =
    (Ok (found ++ hydrate (articles w) results)%list,
     after_lookups (length results) w).
Proof.
  revert found w. induction results as [|m results IH]; intros found w.
  - simpl. rewrite List.app_nil_r. reflexivity.
  - simpl enrich. unfold bind at 1.
    unfold query_by_id, bind, emit, gets, modify, ret. simpl fst. simpl snd.
    cbn [articles add_event]. cbv beta iota.
    unfold hydrate. cbn [omap list_omap].
    destruct (find (fun r => Article.id r =? article_id m) (articles w)) as [a|];
      simpl fmap; cbv beta iota; rewrite IH; cbn [articles add_event];
      rewrite after_lookups_succ; unfold hydrate; cbn [length].
    + rewrite <- List.app_assoc. reflexivity.
    + reflexivity.
Qed.

Lemma hydrate_length (rows : list Article.t) (results : list Match) :
  (length (hydrate rows results) <= length results)%nat.
Proof.
  unfold hydrate. induction results as [|m results IH]; [simpl; lia|].
  cbn [omap list_omap].
  destruct (find _ rows); simpl fmap; cbv beta iota; cbn [length]; lia.
Qed.

Section SearchNews.

Context (env : Env) (settings : Settings).

(** Semantic mode: the matches of [search], hydrated. *)
Lemma search_news_semantic (request : SearchRequest) (query : string) (w : World) :
  prompt request = Some query ->
  Py.truthy query = true ->
  category_accepted settings request ->
  exists results w1,
    search env query (category request) (limit request) w = (Ok results, w1) /\
    articles w1 = articles w /\
    collection w1 = collection w /\
    (length results <= Z.to_nat (limit request))%nat /\
    search_news env settings request w =
      (Ok {| SearchResponse.count := Z.of_nat (length (hydrate (articles w) results));
             SearchResponse.articles := hydrate (articles w) results;
             SearchResponse.search_type := "semantic" |},
       after_lookups (length results) w1).
Proof.
  intros Hp Ht Hc. apply category_accepted_check in Hc.
  destruct (search_effect env query (category request) (limit request) w)
    as (results & w1 & Hs & Ha & Hco & Hlen).
  exists results, w1. repeat split; try assumption.
  unfold search_news. rewrite Hc, Hp. cbn [Py.truthy_opt]. rewrite Ht.
  cbn [negb andb].
  unfold bind at 1. unfold bind at 1. rewrite Hs.
  unfold bind at 1. rewrite enrich_run. rewrite Ha. reflexivity.
Qed.

(** Category-only mode: one query of the table. *)
Lemma search_news_category (request : SearchRequest) (w : World) :
  Py.truthy_opt (prompt request) = false ->
  Py.truthy_opt (category request) = true ->
  category_accepted settings request ->
  exists rows,
    (rows = sql_limit (limit request)
              (List.filter
                 (fun r => match Article.category r, category request with
                           | Some x, Some y => String.eqb x y
                           | _, _ => false
                           end) (articles w))) /\
    search_news env settings request w =
      (Ok {| SearchResponse.count := Z.of_nat (length (map to_dict rows));
             SearchResponse.articles := map to_dict rows;
             SearchResponse.search_type := "category" |},
       add_event EvSqlSelect w).
Proof.
  intros Hp Ht Hc. apply category_accepted_check in Hc.
  eexists. split; [reflexivity|].
  unfold search_news. rewrite Hc, Hp, Ht. cbn [negb andb].
  destruct (prompt request) as [q|]; [simpl in Hp; rewrite Hp|]; reflexivity.
Qed.

End SearchNews.

(** C5, as amended.  A search request in which both the prompt and the
    category are absent or empty is rejected with status 400 before any
    store or adapter is touched (the world is returned as it was); so is a
    request whose category is a non-empty string outside the enumeration;
    every other request passes both checks and gets a response.  Absent
    and empty are not told apart: an empty category is treated as no
    category, although the empty string is not in the enumeration. *)
Theorem search_validation (env : Env) (settings : Settings)
    (request : SearchRequest) (w : World) :
  (Py.truthy_opt (prompt request) = false ->
   Py.truthy_opt (category request) = false ->
   search_news env settings request w =
     (Raised (HTTPException 400
                "At least one of 'prompt' or 'category' is required"), w)) /\
  (forall c, category request = Some c -> c <> "" ->
     ~ In c (news_categories settings) ->
     search_news env settings request w =
       (Raised (HTTPException 400
                  ("Invalid category. Valid options: "
                     ++ repr_list (news_categories settings))), w)) /\
  (Py.truthy_opt (prompt request) = true \/
   Py.truthy_opt (category request) = true ->
   category_accepted settings request ->
   exists response w',
     search_news env settings request w = (Ok response, w')).
Proof.
  split; [|split].
  - intros Hp Hc. unfold search_news. rewrite Hp, Hc. reflexivity.
  - intros c Hc Hne Hnin. unfold search_news. rewrite Hc.
    cbn [Py.truthy_opt Py.mem_opt].
    assert (Ht : Py.truthy c = true).
    { destruct (Py.truthy c) eqn:E; [reflexivity|].
      apply truthy_false in E. contradiction. }
    assert (Hm : Py.mem c (news_categories settings) = false).
    { destruct (Py.mem c (news_categories settings)) eqn:E; [|reflexivity].
      apply mem_In in E. contradiction. }
    rewrite Ht, Hm, andb_false_r. reflexivity.
  - intros Hany Hacc.
    destruct (Py.truthy_opt (prompt request)) eqn:Hp.
    + destruct (prompt request) as [query|] eqn:Hq; [|discriminate].
      simpl in Hp.
      destruct (search_news_semantic env settings request query w Hq Hp Hacc)
        as (results & w1 & _ & _ & _ & _ & Hs).
      rewrite Hs. eauto.
    + destruct Hany as [|Hc]; [discriminate|].
      destruct (search_news_category env settings request w Hp Hc Hacc)
        as (rows & _ & Hs).
      rewrite Hs. eauto.
Qed.

(** [search_validation] for the category search of the scenario. *)
Lemma search_validation_witness :
  exists response w',
    search_news env_ok settings_live request_category world_one
      = (Ok response, w').
Proof.
  apply (search_validation env_ok settings_live request_category world_one).
  - right. reflexivity.
  - intros c [= <-]. right. simpl. auto.
Defined.

(** C5 as stated fails: the empty string is outside the enumeration, yet
    a request whose category is the empty string is not rejected (it is
    answered as a search without category); and a request that does carry
    a prompt, the empty string, is rejected as carrying none. *)
Lemma empty_category_not_rejected :
  ~ In "" (news_categories settings_live) /\
  category request_empty_category = Some "" /\
  (exists response,
     fst (search_news env_ok settings_live request_empty_category world_one)
       = Ok response /\ SearchResponse.count response = 1) /\
  prompt request_empty_prompt = Some "" /\
  fst (search_news env_ok settings_live request_empty_prompt world_one)
    = Raised (HTTPException 400
                "At least one of 'prompt' or 'category' is required").
Proof.
  split; [|split; [|split; [|split]]].
  - simpl. intros [H|[H|[H|[H|[H|[H|[]]]]]]]; discriminate H.
  - reflexivity.
  - eexists. split; vm_compute; reflexivity.
  - reflexivity.
  - vm_compute. reflexivity.
Qed.

(** C7.  In semantic mode, when computing the embedding of the prompt
    fails (the embedder raises, or returns the empty vector), [search]
    returns the empty list, raises nothing and leaves both stores as they
    were; and [search_news], for any request with that prompt that passes
    validation, answers with an empty result set and a count of 0. *)
Theorem failed_query_embedding_gives_empty (env : Env) (settings : Settings)
    (request : SearchRequest) (query : string) (w : World) :
  embeddings_create env (trace w) (Py.take 8000 query) = None \/
  embeddings_create env (trace w) (Py.take 8000 query) = Some [] ->
  (exists w',
     search env query (category request) (limit request) w = (Ok [], w') /\
     articles w' = articles w /\ collection w' = collection w) /\
  (prompt request = Some query -> Py.truthy query = true ->
   category_accepted settings request ->
   exists w',
     search_news env settings request w =
       (Ok {| SearchResponse.count := 0;
             SearchResponse.articles := [];
             SearchResponse.search_type := "semantic" |},
        w')).
Proof.
  intros Hfail.
  assert (Hs : exists w',
             search env query (category request) (limit request) w = (Ok [], w') /\
             articles w' = articles w /\ collection w' = collection w).
  { pose proof (search_result env query (category request) (limit request) w)
      as H.
    cbv zeta in H. destruct Hfail as [Hf|Hf]; rewrite Hf in H;
      rewrite H; eexists; repeat split. }
  split; [exact Hs|].
  intros Hp Ht Hacc. destruct Hs as (w' & Hs & _).
  destruct (search_news_semantic env settings request query w Hp Ht Hacc)
    as (results & w1 & Hs' & _ & _ & _ & Hn).
  rewrite Hs in Hs'. injection Hs' as <- <-.
  rewrite Hn. eexists. reflexivity.
Qed.

(** [failed_query_embedding_gives_empty] for the prompt search of the
    scenario with an embedder that raises. *)
Lemma failed_query_embedding_gives_empty_witness :
  exists w',
    search_news env_no_embedding settings_live request_prompt world_one =
      (Ok {| SearchResponse.count := 0;
             SearchResponse.articles := [];
             SearchResponse.search_type := "semantic" |},
       w').
Proof.
  apply (failed_query_embedding_gives_empty env_no_embedding settings_live
           request_prompt "zero day" world_one).
  - left. reflexivity.
  - reflexivity.
  - reflexivity.
  - intros c [=].
Defined.

Lemma sql_limit_length {A} (k : Z) (l : list A) :
  0 <= k -> (length (sql_limit k l) <= Z.to_nat k)%nat.
Proof.
  intros Hk. unfold sql_limit.
  destruct (Z.ltb_spec k 0); [lia|]. apply List.firstn_le_length.
Qed.

(** C8.  For every positive limit k, a request that passes validation
    gets a response with at most k articles, and the count of the response
    is the number of articles in it; in semantic mode the articles are the
    matches of [search] looked up in the Relational Store in the order the
    Vector Index returned them, a match whose identifier has no row being
    dropped. *)
Theorem result_bound (env : Env) (settings : Settings)
    (request : SearchRequest) (w : World) :
  0 < limit request ->
  Py.truthy_opt (prompt request) = true \/
  Py.truthy_opt (category request) = true ->
  category_accepted settings request ->
  exists response w',
    search_news env settings request w = (Ok response, w') /\
    (length (SearchResponse.articles response) <= Z.to_nat (limit request))%nat /\
    SearchResponse.count response = Z.of_nat (length (SearchResponse.articles response)) /\
    (forall query, prompt request = Some query -> Py.truthy query = true ->
       exists results w1,
         search env query (category request) (limit request) w
           = (Ok results, w1) /\
         SearchResponse.articles response = hydrate (articles w) results /\
         SearchResponse.search_type response = "semantic").
Proof.
  intros Hk Hany Hacc.
  destruct (Py.truthy_opt (prompt request)) eqn:Hp.
  - destruct (prompt request) as [query|] eqn:Hq; [|discriminate].
    simpl in Hp.
    destruct (search_news_semantic env settings request query w Hq Hp Hacc)
      as (results & w1 & Hs & _ & _ & Hlen & Hn).
    rewrite Hn. do 2 eexists. split; [reflexivity|]. simpl.
    split; [pose proof (hydrate_length (articles w) results); lia|].
    split; [reflexivity|].
    intros q [= <-] _. exists results, w1. repeat split. exact Hs.
  - destruct Hany as [|Hc]; [discriminate|].
    destruct (search_news_category env settings request w Hp Hc Hacc)
      as (rows & Hrows & Hs).
    rewrite Hs. do 2 eexists. split; [reflexivity|]. simpl.
    split.
    + rewrite List.length_map, Hrows. apply sql_limit_length. lia.
    + split; [reflexivity|].
      intros q Hq Ht. rewrite Hq in Hp. simpl in Hp. congruence.
Qed.

(** [result_bound] for the prompt search of the scenario, limit 1. *)
Lemma result_bound_witness :
  exists response w',
    search_news env_ok settings_live request_prompt world_one
      = (Ok response, w') /\
    (length (SearchResponse.articles response) <= Z.to_nat (limit request_prompt))%nat /\
    SearchResponse.count response = Z.of_nat (length (SearchResponse.articles response)) /\
    (forall query, prompt request_prompt = Some query ->
       Py.truthy query = true ->
       exists results w1,
         search env_ok query (category request_prompt) (limit request_prompt)
           world_one = (Ok results, w1) /\
         SearchResponse.articles response = hydrate (articles world_one) results /\
         SearchResponse.search_type response = "semantic").
Proof.
  apply (result_bound env_ok settings_live request_prompt world_one).
  - reflexivity.
  - left. reflexivity.
  - intros c [=].
Defined.

(** ** The Vector Index: the hits of a query *)

Lemma insert_hit_In (h x : Hit) (l : list Hit) :
  In x (insert_hit h l) <-> x = h \/ In x l.
Proof.
  induction l as [|h' l IH]; simpl.
  - intuition.
  - destruct (Qle_bool (hit_distance h) (hit_distance h')); simpl;
      rewrite ?IH; intuition.
Qed.

Lemma nearest_first_In (x : Hit) (l : list Hit) :
  In x (nearest_first l) <-> In x l.
Proof.
  unfold nearest_first. induction l as [|h l IH]; simpl; [tauto|].
  rewrite insert_hit_In, IH. intuition.
Qed.

Lemma firstn_In {A} (n : nat) (l : list A) (x : A) :
  In x (firstn n l) -> In x l.
Proof.
  revert l. induction n as [|n IH]; intros [|y l]; simpl; try tauto.
  intros [->|H]; [left; reflexivity|right; apply IH; exact H].
Qed.

Lemma query_hits_In (c : list Embedding) (q : list Q) (n : Z)
    (where_filter : option string) (h : Hit) :
  In h (query_hits c q n where_filter) ->
  exists e, In e c /\ h = hit_of q e.
Proof.
  unfold query_hits. intros H. apply firstn_In in H.
  apply (proj1 (nearest_first_In _ _)) in H.
  apply in_map_iff in H. destruct H as (e & <- & He).
  apply List.filter_In in He. exists e. split; [tauto|reflexivity].
Qed.

(** With integer identifiers every hit becomes a match that carries the
    identifier, the score [1 - distance] and the metadata of the hit. *)
Lemma to_matches_canonical (hits : list Hit) :
  (forall h, In h hits -> exists n, hit_id h = Py.str n) ->
  exists matches,
    to_matches hits = Some matches /\
    Forall2 match_of_hit matches hits.
Proof.
  induction hits as [|h hits IH]; intros Hc.
  - exists []. split; [reflexivity|constructor].
  - destruct IH as (ms & Hms & Hall).
    { intros h' Hh'. apply Hc. right. exact Hh'. }
    destruct (Hc h (or_introl eq_refl)) as (n & Hn).
    simpl. unfold to_match. rewrite Hn, int_str, Hms.
    eexists. split; [reflexivity|].
    constructor; [|exact Hall]. unfold match_of_hit. simpl. rewrite Hn.
    repeat split. apply int_str.
Qed.

Lemma Forall2_In_left {A B} (R : A -> B -> Prop) (l1 : list A) (l2 : list B)
    (x : A) :
  Forall2 R l1 l2 -> In x l1 -> exists y, In y l2 /\ R x y.
Proof.
  induction 1 as [|a b l1 l2 Hab Hall IH]; intros Hx; [destruct Hx|].
  destruct Hx as [<-|Hx].
  - exists b. split; [left; reflexivity|exact Hab].
  - destruct (IH Hx) as (y & Hy & Hr). exists y. split; [right; exact Hy|exact Hr].
Qed.

(** C3.  In semantic-mode search one match can carry a score outside
    [[0,1]].  The collection is created with ChromaDB's default distance,
    the squared Euclidean distance, and [search] computes [1 - distance]
    without clamping, while its comment reads "1 = identical, 0 =
    unrelated".  In [world_opposite] the one stored vector [(-1, 0)] is
    opposite to the vector [(1, 0)] of the prompt; both have norm 1, their
    distance is 4, and the match has score [1 - 4 = -3]. *)
Lemma score_below_zero :
  exists m w',
    search env_opposite "zero day" None 1 world_opposite = (Ok [m], w') /\
    map emb_vector (collection world_opposite) = [[(-1)%Q; 0%Q]] /\
    (score m == -3)%Q /\
    ~ (0 <= score m)%Q.
Proof.
  eexists. eexists. split; [vm_compute; reflexivity|].
  split; [vm_compute; reflexivity|].
  split; [reflexivity|].
  intros H. vm_compute in H. apply H. reflexivity.
Qed.

(** ** The scenarios of the specification, run on the model *)

(** Ingesting the same URL twice stores one article and counts one. *)
Example scenario_dedupe :
  let r := save_articles env_ok settings_live (classifier settings_live)
             [zero_day; zero_day] empty_world in
  fst r = Ok 1 /\
  map Article.url (articles (snd r)) = ["https://e/1"] /\
  map emb_id (collection (snd r)) = ["1"].
Proof. vm_compute. repeat split; reflexivity. Qed.

(** After one article is ingested, the category search returns it. *)
Example scenario_category_search :
  exists response,
    fst (search_news env_ok settings_live request_category world_one)
      = Ok response /\
    SearchResponse.count response = 1 /\
    map d_url (SearchResponse.articles response) = ["https://e/1"] /\
    SearchResponse.search_type response = "category".
Proof. eexists. split; [vm_compute; reflexivity|]. repeat split; reflexivity. Qed.

(** The prompt search returns the same article, with score 1: the stored
    vector is the vector of the prompt. *)
Example scenario_prompt_search :
  exists m response,
    fst (search env_ok "zero day" None 1 world_one) = Ok [m] /\
    article_id m = 1 /\
    (score m == 1)%Q /\
    fst (search_news env_ok settings_live request_prompt world_one)
      = Ok response /\
    map d_id (SearchResponse.articles response) = [1].
Proof.
  eexists. eexists. split; [vm_compute; reflexivity|].
  split; [reflexivity|]. split; [reflexivity|].
  split; [vm_compute; reflexivity|]. reflexivity.
Qed.

(** The world of the scenario is coherent. *)
Example world_one_coherent : coherent world_one.
Proof.
  intros e He. vm_compute in He. destruct He as [<-|[]].
  eexists. split; [left; reflexivity|]. reflexivity.
Qed.

(** A classifier that answers outside the enumeration: the article is
    stored under the fallback category, the anomaly is logged, and the
    embedder is called once. *)
Example scenario_wrong_category :
  let r := save_articles env_wrong_category settings_live
             (classifier settings_live) [zero_day] empty_world in
  fst r = Ok 1 /\
  map Article.category (articles (snd r)) = [Some "Software & Development"] /\
  log (snd r) = [WarnInvalidCategory "Sports"] /\
  embed_calls (trace (snd r)) = 1%nat.
Proof. vm_compute. repeat split; reflexivity. Qed.

(** A Vector Index that refuses the write: the article stays stored and
    counted, without Embedding Record. *)
Example scenario_index_write_refused :
  let r := save_articles env_no_index_write settings_live
             (classifier settings_live) [zero_day] empty_world in
  fst r = Ok 1 /\
  map Article.url (articles (snd r)) = ["https://e/1"] /\
  collection (snd r) = [] /\
  log (snd r) = [ErrAddingEmbedding 1].
Proof. vm_compute. repeat split; reflexivity. Qed.

(** Without API key the classifier is in mock mode and the adapter is
    never called. *)
Example scenario_mock_mode :
  let r := save_articles env_ok Settings_defaults
             (classifier Settings_defaults) [zero_day] empty_world in
  mock_mode (classifier Settings_defaults) = true /\
  fst r = Ok 1 /\
  parse_calls (trace (snd r)) = 0%nat /\
  classify_calls (trace (snd r)) = 1%nat.
Proof. vm_compute. repeat split; reflexivity. Qed.

(** * Invariants of the two stores, and the functions around the pipeline

    What ingestion, the reconciler and the API keep true of the two stores
    together, and properties of [get_article] and [get_stats] of
    [app/api.py], of the collector and of the ingestor. *)

(** ** The shape of what is written *)

(** [add_article] writes nothing, or appends, for an identifier that had
    no record, the record made of its arguments and of a non-empty
    vector. *)
Lemma add_article_shape (env : Env) (i : Z) (t s : string)
    (c : option string) (src : string) (w : World) :
  let w' := snd (add_article env i t s c src w) in
  articles w' = articles w /\
  (collection w' = collection w \/
   (records_for i (collection w) = 0%nat /\
    exists x v,
      collection w' =
        (collection w ++
           [{| emb_id := Py.str i;
               emb_vector := x :: v;
               emb_metadata := {| meta_title := Py.take 200 t;
                                  meta_category := c;
                                  meta_source := src |};
               emb_document := Py.take 1000 (t ++ ". " ++ s) |}])%list)).
Proof.
  cbv zeta. split; [apply add_article_articles|].
  rewrite add_article_run. cbv zeta.
  destruct (has_record _ _) eqn:Hp; [left; reflexivity|].
  apply has_record_false in Hp.
  destruct (embeddings_create _ _ _) as [[|x v]|]; try (left; reflexivity).
  destruct (collection_add_fails _ _ _); [left; reflexivity|].
  right. split; [exact Hp|]. exists x, v. reflexivity.
Qed.

Section Shape.

Context (env : Env) (settings : Settings) (clf : ClassificationService).

(** One turn of the ingestion loop leaves both stores as they were, or
    appends one row for a URL that was not in the table and, at most, the
    record of that row. *)
Lemma save_one_shape (a : ArticleData) (f : Frame) :
  session_new f = [] ->
  let f' := snd (save_one env settings clf a f) in
  (articles (world f') = articles (world f) /\
   collection (world f') = collection (world f))
  \/
  (exists category now,
     let row := new_row (articles (world f)) now (init_of a category) in
     url_exists (data_url a) (articles (world f)) = false /\
     articles (world f') = (articles (world f) ++ [row])%list /\
     (collection (world f') = collection (world f) \/
      (records_for (Article.id row) (collection (world f)) = 0%nat /\
       exists v,
         collection (world f')
           = (collection (world f) ++ [record_of row v])%list))).
Proof.
  intros Hs. cbv zeta. rewrite (save_one_run env settings clf a f Hs).
  pose proof (classify_article_effect env settings clf (data_title a)
                (get_summary a) (world f)) as Hc.
  cbv zeta in Hc.
  destruct (classify_article env settings clf (data_title a) (get_summary a)
              (world f)) as [[category|e] w1]; simpl in Hc;
    destruct Hc as (Ha & Hco & _).
  2: { left. destruct e; simpl; split; assumption. }
  cbv zeta. rewrite Ha.
  destruct (url_exists (data_url a) (articles (world f))) eqn:Hu.
  { left. simpl. split; assumption. }
  destruct (commit_fails env (trace w1) (init_of a category)).
  { left. simpl. split; assumption. }
  right. exists category, (utcnow env (trace w1)). cbv zeta.
  set (row := new_row (articles (world f)) (utcnow env (trace w1))
                (init_of a category)).
  set (w3 := add_event EvSqlSelect _).
  destruct (add_article_shape env (Article.id row) (Article.title row)
              (Py.or_empty (Article.summary row)) (Some category)
              (Article.source row) w3) as (Haa & Hac).
  assert (Hc3 : collection w3 = collection (world f)) by (rewrite <- Hco; reflexivity).
  assert (Ha3 : articles w3 = (articles (world f) ++ [row])%list) by reflexivity.
  cbn [fst snd mk_frame world].
  split; [reflexivity|]. split; [rewrite Haa; exact Ha3|].
  rewrite Hc3 in Hac.
  destruct Hac as [Hac|(Hn & x & v & Hac)]; [left; exact Hac|].
  right. split; [exact Hn|]. exists (x :: v). rewrite Hac. reflexivity.
Qed.

End Shape.

(** ** The invariant of the two stores *)

Lemma url_exists_In (u : string) (rows : list Article.t) :
  url_exists u rows = true <-> In u (map Article.url rows).
Proof.
  unfold url_exists. rewrite List.existsb_exists, in_map_iff. split.
  - intros (r & Hr & He). apply String.eqb_eq in He. exists r. split; assumption.
  - intros (r & He & Hr). exists r. split; [exact Hr|]. apply String.eqb_eq. exact He.
Qed.

Lemma records_for_In (i : Z) (c : list Embedding) :
  (0 < records_for i c)%nat <-> In (Py.str i) (map emb_id c).
Proof.
  unfold records_for. induction c as [|e c IH]; simpl; [split; [lia|tauto]|].
  destruct (String.eqb_spec (emb_id e) (Py.str i)) as [Heq|Hne]; simpl.
  - split; [intros _; left; exact Heq|lia].
  - rewrite IH. split; [intros H; right; exact H|intros [H|H]; [contradiction|exact H]].
Qed.

Lemma NoDup_snoc {A} (l : list A) (x : A) :
  List.NoDup l -> ~ In x l -> List.NoDup (l ++ [x])%list.
Proof.
  intros Hl Hx. apply List.NoDup_app.
  - exact Hl.
  - constructor; [intros []|constructor].
  - intros y Hy [<-|[]]. exact (Hx Hy).
Qed.

Lemma next_id_fresh (rows : list Article.t) :
  ~ In (next_id rows) (map Article.id rows).
Proof.
  intros H. apply in_map_iff in H. destruct H as (r & He & Hr).
  pose proof (next_id_gt rows r Hr). lia.
Qed.

(** At most one record per identifier, counted. *)
Lemma records_for_le_1 (i : Z) (c : list Embedding) :
  List.NoDup (map emb_id c) -> (records_for i c <= 1)%nat.
Proof.
  induction c as [|e c IH]; intros Hnd; [unfold records_for; simpl; lia|].
  inversion Hnd as [|x l Hx Hnd']; subst.
  change (e :: c) with ([e] ++ c)%list. rewrite records_for_app.
  specialize (IH Hnd'). unfold records_for at 1. simpl.
  destruct (String.eqb_spec (emb_id e) (Py.str i)) as [Heq|_]; simpl; [|lia].
  assert (records_for i c = 0%nat); [|lia].
  destruct (records_for i c) eqn:E; [reflexivity|].
  exfalso. apply Hx. rewrite Heq. apply records_for_In. lia.
Qed.

Section Invariant.

Context (env : Env) (settings : Settings) (clf : ClassificationService).

Lemma save_one_well_formed (a : ArticleData) (f : Frame) :
  session_new f = [] -> well_formed (world f) ->
  well_formed (world (snd (save_one env settings clf a f))).
Proof.
  intros Hs [Hi Hu Hr Hsn].
  destruct (save_one_shape env settings clf a f Hs)
    as [(Ha & Hc)|(category & now & Hnew & Ha & Hc)].
  - constructor; rewrite ?Ha, ?Hc; assumption.
  - cbv zeta in *.
    set (row := new_row (articles (world f)) now (init_of a category)) in *.
    assert (Hold : forall e, In e (collection (world f)) ->
              exists r, In r (articles (world f) ++ [row])%list /\
                        e = record_of r (emb_vector e)).
    { intros e He. destruct (Hsn e He) as (r & Hr' & Hrec).
      exists r. split; [apply in_or_app; left; exact Hr'|exact Hrec]. }
    constructor; rewrite ?Ha.
    + rewrite List.map_app. apply NoDup_snoc; [exact Hi|]. apply next_id_fresh.
    + rewrite List.map_app. apply NoDup_snoc; [exact Hu|].
      intros Hin. apply url_exists_In in Hin. simpl in Hin.
      rewrite Hnew in Hin. discriminate.
    + destruct Hc as [Hc|(Hn & v & Hc)]; rewrite Hc; [exact Hr|].
      rewrite List.map_app. apply NoDup_snoc; [exact Hr|].
      intros Hin. apply (records_for_In (Article.id row)) in Hin. lia.
    + destruct Hc as [Hc|(Hn & v & Hc)]; rewrite Hc; [exact Hold|].
      intros e He. apply in_app_or in He. destruct He as [He|[<-|[]]].
      * apply Hold. exact He.
      * exists row. split; [apply in_or_app; right; left; reflexivity|reflexivity].
Qed.

End Invariant.

Lemma save_articles_invariant (env : Env) (settings : Settings)
    (clf : ClassificationService) (batch : list ArticleData) (w : World) :
  well_formed w ->
  well_formed (snd (save_articles env settings clf batch w)).
Proof.
  intros Hw. rewrite save_articles_run. simpl. unfold frame_after.
  apply (save_loop_invariant env settings clf (fun f => well_formed (world f))).
  - intros a f Hs Hf. apply save_one_well_formed; assumption.
  - reflexivity.
  - exact Hw.
Qed.

(** X1.  [save_articles] keeps the invariant of the two stores, whatever
    the batch and whatever the adapters and the stores answer: primary keys
    and URLs stay unique, no identifier gets a second Embedding Record, and
    every record stays the snapshot of a stored row. *)
Theorem save_articles_well_formed (env : Env) (settings : Settings)
    (clf : ClassificationService) (batch : list ArticleData) (w : World) :
  well_formed w ->
  well_formed (snd (save_articles env settings clf batch w)).
Proof. apply save_articles_invariant. Qed.

Lemma empty_world_well_formed : well_formed empty_world.
Proof. constructor; simpl; try constructor. intros e []. Qed.

(** [save_articles_well_formed] for a batch with a repeated URL on empty
    stores. *)
Lemma save_articles_well_formed_witness :
  well_formed (snd (save_articles env_ok settings_live (classifier settings_live)
                      [zero_day; zero_day; patch_day] empty_world)).
Proof.
  apply (save_articles_well_formed env_ok settings_live
           (classifier settings_live) [zero_day; zero_day; patch_day]
           empty_world).
  constructor; simpl; try constructor. intros e [].
Defined.

(** ** The reconciler on any stores *)

Section Reconciler.

Context (env : Env).

(** What [add_article] does when called for a stored row, as the
    reconciler calls it: nothing, or the record of that row. *)
Lemma add_article_row (r : Article.t) (w : World) :
  let w' := snd (add_article env (Article.id r) (Article.title r)
                   (Py.or_empty (Article.summary r)) (Article.category r)
                   (Article.source r) w) in
  articles w' = articles w /\
  (collection w' = collection w \/
   (records_for (Article.id r) (collection w) = 0%nat /\
    exists v, collection w' = (collection w ++ [record_of r v])%list)).
Proof.
  cbv zeta.
  destruct (add_article_shape env (Article.id r) (Article.title r)
              (Py.or_empty (Article.summary r)) (Article.category r)
              (Article.source r) w) as (Ha & Hc).
  split; [exact Ha|].
  destruct Hc as [Hc|(Hn & x & v & Hc)]; [left; exact Hc|].
  right. split; [exact Hn|]. exists (x :: v). exact Hc.
Qed.

Lemma add_article_row_well_formed (r : Article.t) (w : World) :
  In r (articles w) -> well_formed w ->
  well_formed (snd (add_article env (Article.id r) (Article.title r)
                      (Py.or_empty (Article.summary r)) (Article.category r)
                      (Article.source r) w)).
Proof.
  intros Hr [Hi Hu Hrec Hsn].
  destruct (add_article_row r w) as (Ha & Hc).
  constructor; rewrite ?Ha; try assumption.
  - destruct Hc as [Hc|(Hn & v & Hc)]; rewrite Hc; [exact Hrec|].
    rewrite List.map_app. apply NoDup_snoc; [exact Hrec|].
    intros Hin. apply (records_for_In (Article.id r)) in Hin. lia.
  - destruct Hc as [Hc|(Hn & v & Hc)]; rewrite Hc; [exact Hsn|].
    intros e He. apply in_app_or in He. destruct He as [He|[<-|[]]].
    + apply Hsn. exact He.
    + exists r. split; [exact Hr|reflexivity].
Qed.

(** The loop of the reconciler raises nothing, leaves the table alone,
    only appends to the collection, and keeps the invariant. *)
Lemma sync_loop_shape (existing : gset string) (l : list Article.t) (m : Z)
    (w : World) :
  exists m' w' new,
    sync_loop env existing l m w = (Ok m', w') /\
    articles w' = articles w /\
    collection w' = (collection w ++ new)%list /\
    ((forall r, In r l -> In r (articles w)) -> well_formed w -> well_formed w').
Proof.
  revert m w. induction l as [|r l IH]; intros m w.
  - exists m, w, []. rewrite List.app_nil_r.
    split; [reflexivity|]. split; [reflexivity|]. split; [reflexivity|].
    intros _ Hw. exact Hw.
  - simpl. destruct (negb (bool_decide _)).
    + unfold bind.
      pose proof (add_article_ok env (Article.id r) (Article.title r)
                    (Py.or_empty (Article.summary r)) (Article.category r)
                    (Article.source r) w) as Hok.
      destruct (add_article_row r w) as (Ha & Hc).
      pose proof (add_article_row_well_formed r w) as Hwf.
      destruct (add_article env _ _ _ _ _ w) as [res w1]. simpl in *. subst res.
      destruct (IH (m + 1) w1) as (m' & w' & new & Hl & Ha' & Hc' & Hwf').
      assert (Hpre : exists new1, collection w1 = (collection w ++ new1)%list).
      { destruct Hc as [Hc|(_ & v & Hc)]; rewrite Hc;
          [exists []; rewrite List.app_nil_r; reflexivity|eexists; reflexivity]. }
      destruct Hpre as (new1 & Hpre).
      exists m', w', (new1 ++ new)%list.
      split; [exact Hl|]. split; [rewrite Ha', Ha; reflexivity|].
      split; [rewrite Hc', Hpre, List.app_assoc; reflexivity|].
      intros Hin Hw. apply Hwf'.
      * intros r' Hr'. rewrite Ha. apply Hin. right. exact Hr'.
      * apply Hwf; [apply Hin; left; reflexivity|exact Hw].
    + destruct (IH m w) as (m' & w' & new & Hl & Ha' & Hc' & Hwf').
      exists m', w', new.
      split; [exact Hl|]. split; [exact Ha'|]. split; [exact Hc'|].
      intros Hin Hw. apply Hwf'; [|exact Hw].
      intros r' Hr'. apply Hin. right. exact Hr'.
Qed.

End Reconciler.

Lemma sync_shape (env : Env) (w : World) :
  exists w' new,
    sync_missing_embeddings env w = (Ok Py.None_, w') /\
    articles w' = articles w /\
    collection w' = (collection w ++ new)%list /\
    (well_formed w -> well_formed w').
Proof.
  rewrite sync_run. cbv zeta.
  set (w3 := if 0 <? Z.of_nat (length (collection w)) then _ else _).
  assert (Ha3 : articles w3 = articles w) by (subst w3; destruct (0 <? _); reflexivity).
  assert (Hc3 : collection w3 = collection w) by (subst w3; destruct (0 <? _); reflexivity).
  assert (Hw3 : well_formed w -> well_formed w3).
  { intros [Hi Hu Hr Hs]. subst w3. destruct (0 <? _); constructor; assumption. }
  destruct (sync_loop_shape env (existing_ids_of (collection w)) (articles w) 0 w3)
    as (m' & w' & new & Hl & Ha & Hc & Hwf).
  rewrite Hl. do 2 eexists. split; [reflexivity|]. simpl.
  split; [rewrite Ha; exact Ha3|].
  split; [rewrite Hc, Hc3; reflexivity|].
  intros Hw. specialize (Hwf ltac:(rewrite Ha3; auto) (Hw3 Hw)).
  destruct Hwf as [Hi Hu Hr Hs]. constructor; assumption.
Qed.

(** X2.  The reconciler absorbs every failure and is append-only: whatever
    the embedder and the Vector Index answer, [sync_missing_embeddings]
    raises nothing, leaves the Relational Store untouched, keeps every
    Embedding Record that was there, in place, and keeps the invariant of
    the two stores. *)
Theorem sync_append_only (env : Env) (w : World) :
  exists w' new,
    sync_missing_embeddings env w = (Ok Py.None_, w') /\
    articles w' = articles w /\
    collection w' = (collection w ++ new)%list /\
    (well_formed w -> well_formed w').
Proof. apply sync_shape. Qed.

(** [sync_append_only] on the world of the scenario, with an embedder that
    fails. *)
Lemma sync_append_only_witness :
  exists w' new,
    sync_missing_embeddings env_no_embedding world_unindexed = (Ok Py.None_, w') /\
    articles w' = articles world_unindexed /\
    collection w' = (collection world_unindexed ++ new)%list /\
    well_formed w'.
Proof.
  destruct (sync_append_only env_no_embedding world_unindexed)
    as (w' & new & Hs & Ha & Hc & Hw).
  exists w', new.
  split; [exact Hs|]. split; [exact Ha|]. split; [exact Hc|].
  apply Hw. constructor; vm_compute.
  - constructor; [intros []|constructor].
  - constructor; [intros []|constructor].
  - constructor.
  - intros e [].
Defined.

Lemma existing_ids_of_In (c : list Embedding) (x : string) :
  x ∈ existing_ids_of c <-> In x (map emb_id c).
Proof.
  unfold existing_ids_of. destruct c as [|e c].
  - simpl. split; [intros H; apply not_elem_of_empty in H; contradiction|tauto].
  - replace (0 <? Z.of_nat (length (e :: c))) with true
      by (symmetry; apply Z.ltb_lt; simpl; lia).
    change (nonempty (map emb_id (e :: c))) with true. cbv iota.
    rewrite elem_of_list_to_set, list_elem_of_In. reflexivity.
Qed.

Lemma existing_ids_of_has_record (c : list Embedding) (i : Z) :
  bool_decide (Py.str i ∈ existing_ids_of c) = has_record i c.
Proof.
  destruct (has_record i c) eqn:Hh.
  - apply bool_decide_eq_true_2. apply existing_ids_of_In.
    apply records_for_In. apply has_record_true. exact Hh.
  - apply bool_decide_eq_false_2. intros Hin. apply existing_ids_of_In in Hin.
    apply records_for_In in Hin. apply has_record_false in Hh. lia.
Qed.

Section Healing.

Context (env : Env).

(** With a working embedder for the rows and a Vector Index that accepts
    the writes, the loop writes the record of every row it does not skip. *)
Lemma sync_loop_heals (existing : gset string) (l : list Article.t) (m : Z)
    (w : World) :
  index_accepts env ->
  (forall r, In r l -> embeds env r) ->
  List.NoDup (map Article.id l) ->
  (forall r, In r l -> Py.str (Article.id r) ∉ existing ->
     records_for (Article.id r) (collection w) = 0%nat) ->
  let miss :=
    List.filter (fun r => negb (bool_decide (Py.str (Article.id r) ∈ existing))) l in
  exists w' new,
    sync_loop env existing l m w = (Ok (m + Z.of_nat (length miss)), w') /\
    collection w' = (collection w ++ new)%list /\
    Forall2 (fun e r => exists v, e = record_of r v) new miss /\
    articles w' = articles w /\
    log w' = log w /\
    embed_calls (trace w') = (embed_calls (trace w) + length miss)%nat.
Proof.
  intros Hacc. cbv zeta. revert m w.
  induction l as [|r l IH]; intros m w Hemb Hnd Hrec.
  - exists w, []. simpl. rewrite List.app_nil_r, Z.add_0_r.
    repeat split; [constructor|lia].
  - inversion Hnd as [|i ids Hni Hnd']; subst.
    simpl sync_loop. simpl List.filter.
    destruct (bool_decide (Py.str (Article.id r) ∈ existing)) eqn:Hex;
      cbn [negb]; cbv beta iota.
    + apply IH.
      * intros r' Hr'. apply Hemb. right. exact Hr'.
      * exact Hnd'.
      * intros r' Hr'. apply Hrec. right. exact Hr'.
    + apply bool_decide_eq_false_1 in Hex.
      assert (Hr0 : records_for (Article.id r) (collection w) = 0%nat)
        by (apply Hrec; [left; reflexivity|exact Hex]).
      unfold bind.
      pose proof (add_article_ok env (Article.id r) (Article.title r)
                    (Py.or_empty (Article.summary r)) (Article.category r)
                    (Article.source r) w) as Hok.
      pose proof (add_article_articles env (Article.id r) (Article.title r)
                    (Py.or_empty (Article.summary r)) (Article.category r)
                    (Article.source r) w) as Hart.
      pose proof (add_article_embed_calls env (Article.id r) (Article.title r)
                    (Py.or_empty (Article.summary r)) (Article.category r)
                    (Article.source r) w) as Hec.
      rewrite (proj2 (has_record_false _ _) Hr0) in Hec.
      destruct (Hemb r (or_introl eq_refl) (EvCollectionGet :: trace w))
        as (x & v & Hx).
      assert (Hrun : snd (add_article env (Article.id r) (Article.title r)
                       (Py.or_empty (Article.summary r)) (Article.category r)
                       (Article.source r) w)
                     = put_collection (collection w ++ [record_of r (x :: v)])
                         (add_event (EvCollectionAdd (Py.str (Article.id r)))
                            (add_event
                               (EvEmbeddingsCreate
                                  (embedding_text (Article.title r)
                                     (Py.or_empty (Article.summary r))))
                               (add_event EvCollectionGet w)))).
      { rewrite add_article_run. cbv zeta.
        rewrite (proj2 (has_record_false _ _) Hr0).
        unfold embedding_text in *. simpl trace. rewrite Hx, Hacc. reflexivity. }
      destruct (add_article env (Article.id r) (Article.title r)
                  (Py.or_empty (Article.summary r)) (Article.category r)
                  (Article.source r) w) as [res w1].
      simpl in Hok, Hart, Hec, Hrun. subst res.
      assert (Hcol : collection w1 = (collection w ++ [record_of r (x :: v)])%list)
        by (rewrite Hrun; reflexivity).
      assert (Hlog : log w1 = log w) by (rewrite Hrun; reflexivity).
      destruct (IH (m + 1) w1) as (w' & new & Hl & Hc & Hf2 & Ha & Hlg & He).
      * intros r' Hr'. apply Hemb. right. exact Hr'.
      * exact Hnd'.
      * intros r' Hr' Hn'. rewrite Hcol, records_for_app.
        rewrite (Hrec r' (or_intror Hr') Hn').
        rewrite (records_for_one (Article.id r') (Article.id r)
                   (record_of r (x :: v)) eq_refl).
        destruct (Z.eqb_spec (Article.id r') (Article.id r)) as [Heq|]; [|reflexivity].
        exfalso. apply Hni. rewrite <- Heq. apply in_map. exact Hr'.
      * exists w', (record_of r (x :: v) :: new).
        rewrite Hl, Hc, Hcol, Ha, Hart, Hlg, Hlog, He, Hec.
        rewrite <- List.app_assoc. cbn [length List.app].
        split; [f_equal; f_equal; lia|].
        split; [reflexivity|].
        split; [constructor; [exists (x :: v); reflexivity|exact Hf2]|].
        repeat split. lia.
Qed.

End Healing.

Lemma sync_heals (env : Env) (w : World) :
  List.NoDup (map Article.id (articles w)) ->
  (forall r, In r (articles w) -> embeds env r) ->
  index_accepts env ->
  let miss := unindexed (collection w) (articles w) in
  exists w' new,
    sync_missing_embeddings env w = (Ok Py.None_, w') /\
    articles w' = articles w /\
    collection w' = (collection w ++ new)%list /\
    Forall2 (fun e r => exists v, e = record_of r v) new miss /\
    log w' = InfoSyncComplete (Z.of_nat (length (articles w)))
               (Z.of_nat (length miss)) :: log w /\
    embed_calls (trace w') = (embed_calls (trace w) + length miss)%nat /\
    unindexed (collection w') (articles w') = [].
Proof.
  intros Hnd Hemb Hacc. cbv zeta.
  rewrite sync_run. cbv zeta.
  set (w3 := if 0 <? Z.of_nat (length (collection w)) then _ else _).
  assert (Ha3 : articles w3 = articles w) by (subst w3; destruct (0 <? _); reflexivity).
  assert (Hc3 : collection w3 = collection w) by (subst w3; destruct (0 <? _); reflexivity).
  assert (Hl3 : log w3 = log w) by (subst w3; destruct (0 <? _); reflexivity).
  assert (He3 : embed_calls (trace w3) = embed_calls (trace w))
    by (subst w3; destruct (0 <? _); reflexivity).
  assert (Hmiss : List.filter
            (fun r => negb (bool_decide
                              (Py.str (Article.id r) ∈ existing_ids_of (collection w))))
            (articles w) = unindexed (collection w) (articles w)).
  { unfold unindexed. apply List.filter_ext. intros r.
    rewrite existing_ids_of_has_record. reflexivity. }
  destruct (sync_loop_heals env (existing_ids_of (collection w)) (articles w) 0 w3
              Hacc Hemb Hnd) as (w' & new & Hl & Hc & Hf2 & Ha & Hlg & He).
  { intros r Hr Hn. rewrite Hc3.
    apply has_record_false. rewrite <- existing_ids_of_has_record.
    apply bool_decide_eq_false_2. exact Hn. }
  cbv zeta in Hl, Hf2, He. rewrite Hmiss in Hl, Hf2, He.
  rewrite Hl. do 2 eexists. split; [reflexivity|]. cbn [snd articles collection log trace add_log].
  split; [rewrite Ha; exact Ha3|].
  split; [rewrite Hc, Hc3; reflexivity|].
  split; [exact Hf2|].
  split; [rewrite Hlg, Hl3, Z.add_0_l; reflexivity|].
  split; [rewrite He, He3; reflexivity|].
  rewrite Ha, Ha3, Hc, Hc3. unfold unindexed.
  assert (Hall : forall r, In r (articles w) ->
            negb (has_record (Article.id r) (collection w ++ new)%list) = false).
  { intros r Hr. apply negb_false_iff. apply has_record_true.
    rewrite records_for_app.
    destruct (has_record (Article.id r) (collection w)) eqn:Hh.
    - apply has_record_true in Hh. lia.
    - assert (Hin : In r (unindexed (collection w) (articles w))).
      { unfold unindexed. apply List.filter_In. split; [exact Hr|].
        rewrite Hh. reflexivity. }
      destruct (Forall2_In_left (fun r e => exists v, e = record_of r v)
                  (unindexed (collection w) (articles w)) new r) as (e & He' & v & Hev).
      { clear - Hf2. induction Hf2; constructor; assumption. }
      { exact Hin. }
      assert (0 < records_for (Article.id r) new)%nat; [|lia].
      apply records_for_In. apply in_map_iff. exists e. split; [|exact He'].
      rewrite Hev. reflexivity. }
  clear - Hall. induction (articles w) as [|r l IH]; [reflexivity|].
  simpl. rewrite (Hall r (or_introl eq_refl)). apply IH.
  intros r' Hr'. apply Hall. right. exact Hr'.
Qed.

(** X3.  The reconciler heals drift from any state.  If the rows have
    distinct primary keys, the embedder returns a non-empty vector for the
    text of every row and the Vector Index accepts the writes, then one
    call embeds exactly the rows that had no Embedding Record, in table
    order, and touches no other record; it calls the embedder once per
    such row and reports their number in its log; afterwards every row has
    a record. *)
Theorem sync_heals_drift (env : Env) (w : World) :
  List.NoDup (map Article.id (articles w)) ->
  (forall r, In r (articles w) -> embeds env r) ->
  index_accepts env ->
  let miss := unindexed (collection w) (articles w) in
  exists w' new,
    sync_missing_embeddings env w = (Ok Py.None_, w') /\
    articles w' = articles w /\
    collection w' = (collection w ++ new)%list /\
    Forall2 (fun e r => exists v, e = record_of r v) new miss /\
    log w' = InfoSyncComplete (Z.of_nat (length (articles w)))
               (Z.of_nat (length miss)) :: log w /\
    embed_calls (trace w') = (embed_calls (trace w) + length miss)%nat /\
    unindexed (collection w') (articles w') = [].
Proof. apply sync_heals. Qed.

(** [sync_heals_drift] on [world_drift]: the one row without record gets
    its record. *)
Lemma sync_heals_drift_witness :
  exists w' new,
    sync_missing_embeddings env_ok world_drift = (Ok Py.None_, w') /\
    collection w' = (collection world_drift ++ new)%list /\
    length new = 1%nat /\
    unindexed (collection w') (articles w') = [].
Proof.
  destruct (sync_heals_drift env_ok world_drift)
    as (w' & new & Hs & _ & Hc & Hf & _ & _ & Hu).
  - vm_compute. constructor; [intros [H|[]]; discriminate H|].
    constructor; [intros []|constructor].
  - intros r _ tr. exists 1%Q, [0%Q]. reflexivity.
  - intros tr e. reflexivity.
  - exists w', new. split; [exact Hs|]. split; [exact Hc|]. split; [|exact Hu].
    apply Forall2_length in Hf. rewrite Hf. reflexivity.
Defined.

(** ** Requests to the API only read *)

Section ReadOnly.

Context (env : Env) (settings : Settings).

(** A search request ends in a response or in status 400, and leaves both
    stores as they were. *)
Lemma search_news_outcome (request : SearchRequest) (w : World) :
  let r := search_news env settings request w in
  articles (snd r) = articles w /\
  collection (snd r) = collection w /\
  ((exists response, fst r = Ok response) \/
   (exists detail, fst r = Raised (HTTPException 400 detail))).
Proof.
  cbv zeta.
  destruct (negb (Py.truthy_opt (prompt request))
            && negb (Py.truthy_opt (category request))) eqn:H1.
  { unfold search_news. rewrite H1. simpl. repeat split. right. eauto. }
  destruct (Py.truthy_opt (category request)
            && negb (Py.mem_opt (category request) (news_categories settings)))
    eqn:H2.
  { unfold search_news. rewrite H1, H2. simpl. repeat split. right. eauto. }
  apply category_accepted_check in H2.
  destruct (Py.truthy_opt (prompt request)) eqn:Hp.
  - destruct (prompt request) as [query|] eqn:Hq; [|discriminate].
    simpl in Hp.
    destruct (search_news_semantic env settings request query w Hq Hp H2)
      as (results & w1 & _ & Ha & Hc & _ & Hs).
    rewrite Hs. simpl.
    destruct (after_lookups_stores (length results) w1) as [Ha' Hc'].
    rewrite Ha', Hc', Ha, Hc. repeat split. left. eauto.
  - destruct (Py.truthy_opt (category request)) eqn:Hc; [|discriminate].
    destruct (search_news_category env settings request w Hp Hc H2)
      as (rows & _ & Hs).
    rewrite Hs. simpl. repeat split. left. eauto.
Qed.

End ReadOnly.

Lemma get_article_run (i : Z) (w : World) :
  Api.get_article i w =
    match find (fun r => Article.id r =? i) (articles w) with
    | Some a => (Ok (to_dict a), add_event EvSqlSelect w)
    | None => (Raised (HTTPException 404 "Article not found"),
               add_event EvSqlSelect w)
    end.
Proof.
  unfold Api.get_article, query_by_id, bind, emit, gets, modify, ret, raise.
  simpl. destruct (find _ (articles w)); reflexivity.
Qed.

Lemma get_stats_run (w : World) :
  Api.get_stats w =
    (Ok {| Api.total_articles := Z.of_nat (length (articles w));
           Api.by_category := Api.group_count Article.category (articles w);
           Api.by_source := Api.group_count Article.source (articles w);
           Api.embeddings :=
             {| EmbeddingService.total_embeddings :=
                  Z.of_nat (length (collection w));
                EmbeddingService.storage_path :=
                  EmbeddingService.CHROMA_PERSIST_DIR |} |},
     add_event EvCollectionCount
       (add_event EvSqlSelect (add_event EvSqlSelect (add_event EvSqlSelect w)))).
Proof. reflexivity. Qed.

(** ** Every reachable world is well formed *)

Lemma reachable_invariant (settings : Settings) (clf : ClassificationService)
    (w : World) :
  reachable settings clf w -> well_formed w.
Proof.
  induction 1 as [|env batch w Hr IH|env w Hr IH|env request w Hr IH
                  |i w Hr IH|w Hr IH].
  - apply empty_world_well_formed.
  - apply save_articles_invariant. exact IH.
  - destruct (sync_shape env w) as (w' & new & Hs & _ & _ & Hw).
    rewrite Hs. apply Hw. exact IH.
  - destruct (search_news_outcome env settings request w) as (Ha & Hc & _).
    destruct IH as [Hi Hu Hrec Hsn].
    constructor; rewrite ?Ha, ?Hc; assumption.
  - rewrite get_article_run. destruct IH as [Hi Hu Hrec Hsn].
    destruct (find _ (articles w)); constructor; assumption.
  - rewrite get_stats_run. destruct IH as [Hi Hu Hrec Hsn].
    constructor; assumption.
Qed.

(** In a well-formed world there are no more Embedding Records than
    rows. *)
Lemma well_formed_counts (w : World) :
  well_formed w -> (length (collection w) <= length (articles w))%nat.
Proof.
  intros [Hi Hu Hrec Hsn].
  rewrite <- (List.length_map emb_id (collection w)).
  rewrite <- (List.length_map (fun r => Py.str (Article.id r)) (articles w)).
  apply List.NoDup_incl_length; [exact Hrec|].
  intros x Hx. apply in_map_iff in Hx. destruct Hx as (e & <- & He).
  destruct (Hsn e He) as (r & Hr & Heq).
  apply in_map_iff. exists r. split; [|exact Hr]. rewrite Heq. reflexivity.
Qed.

(** X4.  Starting on empty stores, whatever sequence of ingestion batches,
    reconciler runs and API requests is performed and whatever the
    adapters and the stores answer, the two stores stay well formed:
    primary keys and URLs are unique, there is at most one Embedding Record
    per article identifier, every record is the snapshot of a stored
    article, and so there are never more Embedding Records than
    articles. *)
Theorem reachable_well_formed (settings : Settings)
    (clf : ClassificationService) (w : World) :
  reachable settings clf w ->
  well_formed w /\
  (forall i, (records_for i (collection w) <= 1)%nat) /\
  coherent w /\
  (length (collection w) <= length (articles w))%nat.
Proof.
  intros Hr. pose proof (reachable_invariant settings clf w Hr) as Hw.
  split; [exact Hw|]. split; [|split].
  - intros i. apply records_for_le_1. apply (wf_records w Hw).
  - intros e He. destruct (wf_snapshot w Hw e He) as (r & Hr' & Heq).
    exists r. split; [exact Hr'|]. rewrite Heq. reflexivity.
  - apply well_formed_counts. exact Hw.
Qed.

(** [reachable_well_formed] for the world reached by one batch, a run of
    the reconciler and a search. *)
Lemma reachable_well_formed_witness :
  well_formed
    (snd (search_news env_ok settings_live request_prompt
            (snd (sync_missing_embeddings env_ok
                    (snd (save_articles env_no_embedding settings_live
                            (classifier settings_live) [zero_day; patch_day]
                            empty_world)))))).
Proof.
  apply (reachable_well_formed settings_live (classifier settings_live)).
  apply reach_search_news, reach_sync, reach_save_articles, reach_empty.
Defined.

(** X5.  A search request never writes.  For a limit of the 64-bit range
    and a Vector Index whose identifiers are those of 64-bit integers,
    whatever the adapters and the stores do, [search_news] leaves the rows
    and the Embedding Records as they were, and it ends in a response or in
    status 400; no failure of the embedder or of the Vector Index escapes
    it. *)
Theorem search_news_read_only (env : Env) (settings : Settings)
    (request : SearchRequest) (w : World) :
  int64 (limit request) ->
  ids_int64 (collection w) ->
  let r := search_news env settings request w in
  articles (snd r) = articles w /\
  collection (snd r) = collection w /\
  ((exists response, fst r = Ok response) \/
   (exists detail, fst r = Raised (HTTPException 400 detail))).
Proof. intros _ _. apply search_news_outcome. Qed.

(** [search_news_read_only] for the prompt search of the scenario. *)
Lemma search_news_read_only_witness :
  let r := search_news env_ok settings_live request_prompt world_one in
  articles (snd r) = articles world_one /\
  collection (snd r) = collection world_one.
Proof.
  cbv zeta.
  destruct (search_news_read_only env_ok settings_live request_prompt world_one)
    as (Ha & Hc & _).
  - unfold int64. simpl. lia.
  - intros e He. vm_compute in He. destruct He as [<-|[]].
    exists 1. split; [reflexivity|]. unfold int64. lia.
  - split; [exact Ha|exact Hc].
Defined.

(** ** [GET /news/{article_id}] *)

Lemma find_by_id_In (rows : list Article.t) (i : Z) (r : Article.t) :
  find (fun r => Article.id r =? i) rows = Some r ->
  In r rows /\ Article.id r = i.
Proof.
  intros H. apply List.find_some in H. destruct H as [Hin Heq].
  split; [exact Hin|]. apply Z.eqb_eq. exact Heq.
Qed.

Lemma find_by_id_unique (rows : list Article.t) (r : Article.t) :
  List.NoDup (map Article.id rows) -> In r rows ->
  find (fun r' => Article.id r' =? Article.id r) rows = Some r.
Proof.
  induction rows as [|r0 rows IH]; intros Hnd Hin; [destruct Hin|].
  inversion Hnd as [|i ids Hni Hnd']; subst. simpl.
  destruct (Z.eqb_spec (Article.id r0) (Article.id r)) as [Heq|Hne].
  - destruct Hin as [->|Hin]; [reflexivity|].
    exfalso. apply Hni. rewrite Heq. apply in_map. exact Hin.
  - destruct Hin as [->|Hin]; [congruence|]. apply IH; assumption.
Qed.

Lemma find_by_id_none (rows : list Article.t) (i : Z) :
  find (fun r => Article.id r =? i) rows = None <->
  (forall r, In r rows -> Article.id r <> i).
Proof.
  split.
  - intros H r Hr Heq. apply (List.find_none _ _ H) in Hr.
    apply Z.eqb_neq in Hr. contradiction.
  - intros H. destruct (find _ rows) as [r|] eqn:Hf; [|reflexivity].
    apply find_by_id_In in Hf. destruct Hf as [Hin Heq].
    exfalso. exact (H r Hin Heq).
Qed.

(** X6.  [get_article] reads and never writes.  For an identifier of the
    64-bit range and distinct primary keys, it returns the dict of the row
    that has the identifier, and it raises status 404 exactly when no row
    has it; what it returns always carries the identifier asked for. *)
Theorem get_article_by_id (i : Z) (w : World) :
  int64 i ->
  List.NoDup (map Article.id (articles w)) ->
  let r := Api.get_article i w in
  articles (snd r) = articles w /\
  collection (snd r) = collection w /\
  (forall row, In row (articles w) -> Article.id row = i ->
     fst r = Ok (to_dict row)) /\
  (fst r = Raised (HTTPException 404 "Article not found") <->
   forall row, In row (articles w) -> Article.id row <> i) /\
  (forall d, fst r = Ok d ->
     d_id d = i /\ exists row, In row (articles w) /\ d = to_dict row).
Proof.
  intros _ Hnd. cbv zeta. rewrite get_article_run.
  split; [destruct (find _ (articles w)); reflexivity|].
  split; [destruct (find _ (articles w)); reflexivity|].
  split; [|split].
  - intros row Hin <-. rewrite (find_by_id_unique _ _ Hnd Hin). reflexivity.
  - destruct (find _ (articles w)) as [a|] eqn:Hf; simpl.
    + split; [discriminate|]. intros Hno. exfalso.
      apply find_by_id_In in Hf. destruct Hf as [Hin Heq]. exact (Hno a Hin Heq).
    + split; [|reflexivity]. intros _. apply find_by_id_none. exact Hf.
  - intros d. destruct (find _ (articles w)) as [a|] eqn:Hf; simpl;
      [|discriminate].
    intros Hd. injection Hd as <-. apply find_by_id_In in Hf.
    destruct Hf as [Hin Heq]. split; [exact Heq|]. exists a. split; [exact Hin|reflexivity].
Qed.

(** [get_article_by_id] on the world of the scenario: identifier 1 is
    found, identifier 2 is not. *)
Lemma get_article_by_id_witness :
  (exists d, fst (Api.get_article 1 world_one) = Ok d /\ d_url d = "https://e/1") /\
  fst (Api.get_article 2 world_one)
    = Raised (HTTPException 404 "Article not found").
Proof.
  assert (Hnd : List.NoDup (map Article.id (articles world_one))).
  { vm_compute. constructor; [intros []|constructor]. }
  assert (H1 : int64 1) by (unfold int64; lia).
  assert (H2 : int64 2) by (unfold int64; lia).
  split.
  - destruct (get_article_by_id 1 world_one H1 Hnd) as (_ & _ & _ & _ & Hd).
    destruct (fst (Api.get_article 1 world_one)) as [d|e] eqn:Hg;
      [|vm_compute in Hg; discriminate Hg].
    exists d. split; [reflexivity|].
    vm_compute in Hg. injection Hg as <-. reflexivity.
  - destruct (get_article_by_id 2 world_one H2 Hnd) as (_ & _ & _ & H404 & _).
    apply H404. intros row Hin. vm_compute in Hin.
    destruct Hin as [<-|[]]. discriminate.
Defined.

(** ** Category-only search *)

Lemma in_category_Forall (c : string) (rows : list Article.t) :
  Forall (fun r => Article.category r = Some c) (in_category c rows).
Proof.
  apply List.Forall_forall. intros r Hr. apply List.filter_In in Hr.
  destruct Hr as [_ Hr]. destruct (Article.category r) as [x|]; [|discriminate].
  apply String.eqb_eq in Hr. congruence.
Qed.

(** X7.  A request without prompt, with a category of the enumeration and
    a limit of the 64-bit range is answered from the Relational Store
    alone: the rows of that category in table order, cut at the limit;
    every article returned has the category asked for.  A negative limit
    cuts nothing, and only one read is made: neither the embedder nor the
    Vector Index is used. *)
Theorem category_search_exact (env : Env) (settings : Settings)
    (request : SearchRequest) (c : string) (w : World) :
  int64 (limit request) ->
  Py.truthy_opt (prompt request) = false ->
  category request = Some c -> c <> "" -> In c (news_categories settings) ->
  exists rows rest,
    in_category c (articles w) = (rows ++ rest)%list /\
    (limit request < 0 -> rest = []) /\
    (0 <= limit request ->
     length rows = Nat.min (Z.to_nat (limit request))
                     (length (in_category c (articles w)))) /\
    Forall (fun d => d_category d = Some c) (map to_dict rows) /\
    search_news env settings request w =
      (Ok {| SearchResponse.count := Z.of_nat (length rows);
             SearchResponse.articles := map to_dict rows;
             SearchResponse.search_type := "category" |},
       add_event EvSqlSelect w).
Proof.
  intros _ Hp Hc Hne Hin.
  assert (Ht : Py.truthy_opt (category request) = true).
  { rewrite Hc. simpl. destruct c; [congruence|reflexivity]. }
  assert (Hacc : category_accepted settings request).
  { intros c' Hc'. rewrite Hc in Hc'. injection Hc' as <-. right. exact Hin. }
  destruct (search_news_category env settings request w Hp Ht Hacc)
    as (rows & Hrows & Hs).
  rewrite Hc in Hrows. fold (in_category c (articles w)) in Hrows.
  exists rows, (if limit request <? 0 then []
                else skipn (Z.to_nat (limit request)) (in_category c (articles w))).
  rewrite Hs, List.length_map.
  unfold sql_limit in Hrows.
  destruct (Z.ltb_spec (limit request) 0) as [Hneg|Hpos]; subst rows.
  - split; [symmetry; apply List.app_nil_r|].
    split; [reflexivity|]. split; [lia|].
    split; [|reflexivity].
    apply List.Forall_map. apply (in_category_Forall c (articles w)).
  - split; [symmetry; apply List.firstn_skipn|].
    split; [lia|]. split; [intros _; apply List.length_firstn|].
    split; [|reflexivity].
    apply List.Forall_map. apply List.Forall_forall. intros r Hr.
    apply firstn_In in Hr.
    exact (proj1 (List.Forall_forall _ _) (in_category_Forall c (articles w)) r Hr).
Qed.

(** [category_search_exact] on the world of the scenario. *)
Lemma category_search_exact_witness :
  exists rows,
    Forall (fun d => d_category d = Some "Cybersecurity") (map to_dict rows) /\
    fst (search_news env_ok settings_live request_category world_one) =
      Ok {| SearchResponse.count := Z.of_nat (length rows);
            SearchResponse.articles := map to_dict rows;
            SearchResponse.search_type := "category" |}.
Proof.
  destruct (category_search_exact env_ok settings_live request_category
              "Cybersecurity" world_one)
    as (rows & rest & _ & _ & _ & Hf & Hs).
  - unfold int64. simpl. lia.
  - reflexivity.
  - reflexivity.
  - discriminate.
  - vm_compute. left. reflexivity.
  - exists rows. split; [exact Hf|]. rewrite Hs. reflexivity.
Defined.

(** ** Semantic search on well-formed stores *)

Lemma insert_hit_perm (h : Hit) (l : list Hit) :
  Permutation (insert_hit h l) (h :: l).
Proof.
  induction l as [|h' l IH]; simpl; [reflexivity|].
  destruct (Qle_bool (hit_distance h) (hit_distance h')); [reflexivity|].
  etransitivity; [apply perm_skip, IH|apply perm_swap].
Qed.

Lemma nearest_first_perm (l : list Hit) : Permutation (nearest_first l) l.
Proof.
  induction l as [|h l IH]; simpl; [constructor|].
  etransitivity; [apply insert_hit_perm|apply perm_skip, IH].
Qed.

Lemma query_hits_count (c : list Embedding) (q : list Q) (n : Z)
    (where_filter : option string) :
  length (query_hits c q n where_filter) =
    Nat.min (Z.to_nat n) (length (List.filter (where_matches where_filter) c)).
Proof.
  unfold query_hits. rewrite List.length_firstn.
  rewrite (Permutation_length (nearest_first_perm _)), List.length_map.
  reflexivity.
Qed.

Lemma NoDup_map_filter {A B} (f : A -> B) (p : A -> bool) (l : list A) :
  List.NoDup (map f l) -> List.NoDup (map f (List.filter p l)).
Proof.
  induction l as [|a l IH]; intros Hnd; [constructor|].
  inversion Hnd as [|b bs Hni Hnd']; subst. simpl.
  destruct (p a); [|apply IH; exact Hnd'].
  simpl. constructor; [|apply IH; exact Hnd'].
  intros Hin. apply Hni. apply in_map_iff in Hin.
  destruct Hin as (a' & Heq & Ha'). apply List.filter_In in Ha'.
  apply in_map_iff. exists a'. split; [exact Heq|apply Ha'].
Qed.

Lemma query_hits_NoDup (c : list Embedding) (q : list Q) (n : Z)
    (where_filter : option string) :
  List.NoDup (map emb_id c) ->
  List.NoDup (map hit_id (query_hits c q n where_filter)).
Proof.
  intros Hnd. unfold query_hits.
  set (l := nearest_first _).
  assert (Hl : List.NoDup (map hit_id l)).
  { subst l.
    apply (Permutation_NoDup
             (Permutation_sym (Permutation_map hit_id (nearest_first_perm _)))).
    rewrite List.map_map. simpl.
    apply (NoDup_map_filter emb_id). exact Hnd. }
  rewrite <- (List.firstn_skipn (Z.to_nat n) l), List.map_app in Hl.
  apply List.NoDup_app_remove_r in Hl. exact Hl.
Qed.

Lemma query_hits_filter_In (c : list Embedding) (q : list Q) (n : Z)
    (where_filter : option string) (h : Hit) :
  In h (query_hits c q n where_filter) ->
  exists e, In e c /\ where_matches where_filter e = true /\ h = hit_of q e.
Proof.
  unfold query_hits. intros H. apply firstn_In in H.
  apply (proj1 (nearest_first_In _ _)) in H. apply in_map_iff in H.
  destruct H as (e & <- & He). apply List.filter_In in He.
  exists e. split; [apply He|]. split; [apply He|reflexivity].
Qed.

Lemma hydrate_hits (w : World) (q : list Q) (matches : list Match)
    (hits : list Hit) :
  well_formed w ->
  Forall2 match_of_hit matches hits ->
  (forall h, In h hits -> exists e, In e (collection w) /\ h = hit_of q e) ->
  Forall2 (hydrated_from w q) (hydrate (articles w) matches) hits.
Proof.
  intros Hw Hf. induction Hf as [|m h matches hits Hm Hf IH]; intros Hin.
  - constructor.
  - destruct (Hin h (or_introl eq_refl)) as (e & He & Hh).
    destruct (wf_snapshot w Hw e He) as (r & Hr & Heq).
    destruct Hm as (Hid & _ & _).
    assert (Hm_id : article_id m = Article.id r).
    { rewrite Hh in Hid. unfold hit_of, hit_id in Hid. simpl in Hid.
      rewrite Heq in Hid. simpl in Hid. rewrite int_str in Hid. congruence. }
    unfold hydrate. cbn [omap list_omap]. rewrite Hm_id.
    rewrite (find_by_id_unique _ _ (wf_ids w Hw) Hr). simpl fmap. cbv beta iota.
    constructor.
    + exists r, (emb_vector e). rewrite <- Heq.
      split; [exact Hr|]. split; [exact He|]. split; [reflexivity|exact Hh].
    + apply IH. intros h' Hh'. apply Hin. right. exact Hh'.
Qed.

Lemma hydrated_NoDup (w : World) (q : list Q) (ds : list ArticleDict)
    (hits : list Hit) :
  Forall2 (hydrated_from w q) ds hits ->
  List.NoDup (map hit_id hits) -> List.NoDup (map d_id ds).
Proof.
  intros Hf. induction Hf as [|d h ds hits Hd Hf IH]; intros Hnd; [constructor|].
  inversion Hnd as [|i ids Hni Hnd']; subst. simpl. constructor; [|apply IH; exact Hnd'].
  intros Hin. apply Hni. apply in_map_iff in Hin. destruct Hin as (d' & Heq & Hd').
  destruct (Forall2_In_left _ _ _ _ Hf Hd') as (h' & Hh' & r' & v' & _ & _ & Hdr' & Hhr').
  destruct Hd as (r & v & _ & _ & Hdr & Hhr).
  apply in_map_iff. exists h'. split; [|exact Hh'].
  rewrite Hhr, Hhr'. unfold hit_of, hit_id. simpl.
  rewrite Hdr, Hdr' in Heq. simpl in Heq. rewrite Heq. reflexivity.
Qed.

(** X8.  On well-formed stores a semantic search that reaches the Vector
    Index, with a limit that is positive and below [2 ^ 32], drops no hit
    and returns no article twice: every article returned is a stored row
    whose Embedding Record passes the category filter, and [count] is the
    smaller of the limit and the number of records the filter keeps; with
    a category filter every article returned has the category asked
    for.  Nothing is said of which records are chosen among those at the
    same distance, nor of the order of the articles. *)
Theorem semantic_search_hydrates (env : Env) (settings : Settings)
    (request : SearchRequest) (query : string) (w : World) (x : Q) (v : list Q) :
  well_formed w ->
  prompt request = Some query ->
  Py.truthy query = true ->
  category_accepted settings request ->
  embeddings_create env (trace w) (Py.take 8000 query) = Some (x :: v) ->
  0 < limit request < 2 ^ 32 ->
  same_dimension (collection w) (x :: v) = true ->
  let where_filter := where_of (category request) in
  exists response w',
    search_news env settings request w = (Ok response, w') /\
    SearchResponse.search_type response = "semantic" /\
    Forall (fun d =>
              exists r u,
                In r (articles w) /\ In (record_of r u) (collection w) /\
                where_matches where_filter (record_of r u) = true /\
                d = to_dict r)
      (SearchResponse.articles response) /\
    SearchResponse.count response =
      Z.of_nat (Nat.min (Z.to_nat (limit request))
                  (length (List.filter (where_matches where_filter) (collection w)))) /\
    SearchResponse.count response
      = Z.of_nat (length (SearchResponse.articles response)) /\
    List.NoDup (map d_id (SearchResponse.articles response)) /\
    (forall c, category request = Some c -> c <> "" ->
       Forall (fun d => d_category d = Some c) (SearchResponse.articles response)).
Proof.
  intros Hw Hp Ht Hacc Hemb [Hlim _] Hdim. cbv zeta.
  set (hits := query_hits (collection w) (x :: v) (limit request)
                 (where_of (category request))).
  assert (Hsrc : forall h, In h hits ->
            exists e, In e (collection w) /\ h = hit_of (x :: v) e).
  { intros h Hh. apply query_hits_In in Hh. exact Hh. }
  destruct (to_matches_canonical hits) as (matches & Hto & Hf2).
  { intros h Hh. destruct (Hsrc h Hh) as (e & He & ->).
    destruct (wf_snapshot w Hw e He) as (r & _ & Heq).
    exists (Article.id r). rewrite Heq. reflexivity. }
  pose proof (search_result env query (category request) (limit request) w) as Hs.
  cbv zeta in Hs. rewrite Hemb in Hs.
  replace (limit request <=? 0) with false in Hs by (symmetry; apply Z.leb_gt; lia).
  rewrite Hdim in Hs. fold hits in Hs. rewrite Hto in Hs.
  destruct (search_news_semantic env settings request query w Hp Ht Hacc)
    as (results & w1 & Hs1 & _ & _ & _ & Hnews).
  rewrite Hs in Hs1. injection Hs1 as <- <-.
  pose proof (hydrate_hits w (x :: v) matches hits Hw Hf2 Hsrc) as Hhyd.
  assert (Hpass : forall d, In d (hydrate (articles w) matches) ->
            exists r u,
              In r (articles w) /\ In (record_of r u) (collection w) /\
              where_matches (where_of (category request)) (record_of r u) = true /\
              d = to_dict r).
  { intros d Hd.
    destruct (Forall2_In_left _ _ _ _ Hhyd Hd)
      as (h & Hh & r & u & Hr & Hrec & Hdr & Hhr).
    apply query_hits_filter_In in Hh. destruct Hh as (e & _ & Hwm & Hhe).
    exists r, u. split; [exact Hr|]. split; [exact Hrec|]. split; [|exact Hdr].
    assert (Hmeta : emb_metadata e = emb_metadata (record_of r u)).
    { rewrite Hhr in Hhe. unfold hit_of in Hhe. congruence. }
    unfold where_matches in *. rewrite <- Hmeta. exact Hwm. }
  rewrite Hnews. do 2 eexists. split; [reflexivity|].
  cbn [SearchResponse.search_type SearchResponse.articles SearchResponse.count].
  split; [reflexivity|].
  split; [apply List.Forall_forall; exact Hpass|].
  split; [|split; [reflexivity|split]].
  - pose proof Hhyd as Hlen. apply Forall2_length in Hlen. rewrite Hlen.
    unfold hits. rewrite query_hits_count. reflexivity.
  - apply (hydrated_NoDup w (x :: v) _ hits Hhyd).
    apply query_hits_NoDup. apply (wf_records w Hw).
  - intros c Hc Hne. apply List.Forall_forall. intros d Hd.
    destruct (Hpass d Hd) as (r & u & _ & _ & Hwm & ->).
    unfold where_of in Hwm. rewrite Hc in Hwm. simpl in Hwm.
    destruct c as [|a c]; [congruence|]. simpl in Hwm.
    cbn [d_category to_dict].
    destruct (Article.category r) as [c'|]; [|discriminate].
    apply String.eqb_eq in Hwm. congruence.
Qed.

(** [semantic_search_hydrates] on the world of the scenario. *)
Lemma semantic_search_hydrates_witness :
  exists response w',
    search_news env_ok settings_live request_prompt world_one
      = (Ok response, w') /\
    SearchResponse.count response = 1 /\
    List.NoDup (map d_id (SearchResponse.articles response)).
Proof.
  destruct (semantic_search_hydrates env_ok settings_live request_prompt
              "zero day" world_one 1%Q [0%Q])
    as (response & w' & Hs & _ & _ & Hc & _ & Hn & _).
  - constructor.
    + vm_compute. constructor; [intros []|constructor].
    + vm_compute. constructor; [intros []|constructor].
    + vm_compute. constructor; [intros []|constructor].
    + intros e He. vm_compute in He. destruct He as [<-|[]].
      eexists. split; [left; reflexivity|]. vm_compute. reflexivity.
  - reflexivity.
  - reflexivity.
  - intros c Hc. discriminate Hc.
  - reflexivity.
  - simpl. lia.
  - reflexivity.
  - exists response, w'. split; [exact Hs|]. split; [|exact Hn].
    rewrite Hc. reflexivity.
Defined.

(** ** Deduplication of a batch *)

Lemma mem_urls (u : string) (rows : list Article.t) :
  Py.mem u (map Article.url rows) = url_exists u rows.
Proof.
  unfold Py.mem, url_exists. induction rows as [|r rows IH]; [reflexivity|].
  simpl. rewrite IH, (String.eqb_sym u). reflexivity.
Qed.

Lemma first_new_ext (s1 s2 urls : list string) :
  (forall x, Py.mem x s1 = Py.mem x s2) ->
  first_new s1 urls = first_new s2 urls.
Proof.
  revert s1 s2. induction urls as [|u urls IH]; intros s1 s2 Hs; [reflexivity|].
  simpl. rewrite (Hs u). destruct (Py.mem u s2).
  - apply IH. exact Hs.
  - f_equal. apply IH. intros x. unfold Py.mem. simpl. f_equal. apply Hs.
Qed.

Lemma first_new_covers (seen urls : list string) (u : string) :
  In u urls -> In u seen \/ In u (first_new seen urls).
Proof.
  revert seen. induction urls as [|u0 urls IH]; intros seen Hin; [destruct Hin|].
  simpl. destruct (Py.mem u0 seen) eqn:Hm.
  - destruct Hin as [<-|Hin]; [left; apply mem_In; exact Hm|]. apply IH. exact Hin.
  - destruct Hin as [<-|Hin]; [right; left; reflexivity|].
    destruct (IH (u0 :: seen) Hin) as [[<-|Hs]|Hf].
    + right. left. reflexivity.
    + left. exact Hs.
    + right. right. exact Hf.
Qed.

Section Dedupe.

Context (env : Env) (settings : Settings) (clf : ClassificationService).

Lemma classify_article_total (title summary : string) (w : World) :
  classifies settings clf ->
  exists c w1,
    classify_article env settings clf title summary w = (Ok c, w1) /\
    articles w1 = articles w.
Proof.
  intros Hcl.
  pose proof (classify_article_effect env settings clf title summary w) as He.
  cbv zeta in He. destruct He as (Ha & _ & _ & _ & _ & Hr).
  destruct (classify_article env settings clf title summary w) as [res w1] eqn:Hc.
  simpl in Ha, Hr. destruct Hr as [(c & ->)|[-> Hm]].
  - exists c, w1. split; [reflexivity|exact Ha].
  - exfalso. destruct Hcl as [Hf|Hne]; [congruence|].
    rewrite (classify_article_mock_run env settings clf title summary w Hm) in Hc.
    cbv zeta in Hc. destruct (news_categories settings); [congruence|discriminate Hc].
Qed.

(** One turn of the loop when the store accepts the writes and
    classification cannot raise: the article is inserted exactly when its
    URL is new. *)
Lemma save_one_accepted (a : ArticleData) (f : Frame) :
  store_accepts env -> classifies settings clf -> session_new f = [] ->
  let f' := snd (save_one env settings clf a f) in
  if url_exists (data_url a) (articles (world f))
  then articles (world f') = articles (world f) /\
       saved_count f' = saved_count f
  else exists row,
         Article.url row = data_url a /\
         articles (world f') = (articles (world f) ++ [row])%list /\
         saved_count f' = saved_count f + 1.
Proof.
  intros Hst Hcl Hs. cbv zeta. rewrite (save_one_run env settings clf a f Hs).
  destruct (classify_article_total (data_title a) (get_summary a) (world f) Hcl)
    as (c & w1 & Hc & Ha).
  rewrite Hc. cbv zeta. rewrite Ha, Hst.
  destruct (url_exists (data_url a) (articles (world f))).
  - simpl. split; [exact Ha|reflexivity].
  - eexists. cbn [snd world saved_count mk_frame].
    rewrite add_article_articles. cbn [articles add_event put_articles].
    split; [|split; reflexivity]. reflexivity.
Qed.

Lemma save_loop_urls (l : list ArticleData) (f : Frame) :
  store_accepts env -> classifies settings clf -> session_new f = [] ->
  let f' := snd (save_loop env settings clf l f) in
  let seen := map Article.url (articles (world f)) in
  map Article.url (articles (world f'))
    = (seen ++ first_new seen (map data_url l))%list /\
  saved_count f'
    = saved_count f + Z.of_nat (length (first_new seen (map data_url l))).
Proof.
  intros Hst Hcl. cbv zeta. revert f.
  induction l as [|a l IH]; intros f Hs.
  - simpl. rewrite List.app_nil_r. split; [reflexivity|lia].
  - rewrite (save_loop_cons env settings clf a l f Hs).
    pose proof (save_one_accepted a f Hst Hcl Hs) as H1. cbv zeta in H1.
    pose proof (save_one_effect env settings clf a f Hs) as He.
    cbv zeta in He. destruct He as (_ & Hs' & _).
    specialize (IH (snd (save_one env settings clf a f)) Hs').
    destruct IH as [IHu IHn]. rewrite IHu, IHn.
    cbn [map first_new]. rewrite mem_urls.
    destruct (url_exists (data_url a) (articles (world f))).
    + destruct H1 as [Ha Hn]. rewrite Ha, Hn. split; reflexivity.
    + destruct H1 as (row & Hu & Ha & Hn). rewrite Ha, Hn.
      rewrite List.map_app. cbn [map]. rewrite Hu.
      rewrite (first_new_ext
                 (map Article.url (articles (world f)) ++ [data_url a])%list
                 (data_url a :: map Article.url (articles (world f)))).
      * rewrite <- List.app_assoc. cbn [List.app length].
        split; [reflexivity|lia].
      * intros x. unfold Py.mem. rewrite List.existsb_app. simpl.
        rewrite orb_false_r. apply orb_comm.
Qed.

(** A batch whose URLs are all stored already changes neither store and
    saves nothing, whatever the adapters and the stores answer. *)
Lemma save_loop_known (l : list ArticleData) (f : Frame) :
  session_new f = [] ->
  (forall a, In a l -> url_exists (data_url a) (articles (world f)) = true) ->
  let f' := snd (save_loop env settings clf l f) in
  articles (world f') = articles (world f) /\
  collection (world f') = collection (world f) /\
  saved_count f' = saved_count f.
Proof.
  cbv zeta. revert f. induction l as [|a l IH]; intros f Hs Hk.
  - simpl. repeat split.
  - rewrite (save_loop_cons env settings clf a l f Hs).
    pose proof (save_one_effect env settings clf a f Hs) as He.
    cbv zeta in He. destruct He as (_ & Hs' & _ & _ & He).
    destruct He as [(Ha & Hc & Hn & _)|(c & w1 & row & _ & Hu & _)].
    + destruct (IH (snd (save_one env settings clf a f)) Hs') as (Ha' & Hc' & Hn').
      * intros a' Ha'. rewrite Ha. apply Hk. right. exact Ha'.
      * rewrite Ha', Hc', Hn'. split; [exact Ha|]. split; [exact Hc|exact Hn].
    + rewrite (Hk a (or_introl eq_refl)) in Hu. discriminate Hu.
Qed.

End Dedupe.

(** X9.  A batch is deduplicated by URL.  When the Relational Store
    accepts the writes and classification cannot raise, [save_articles]
    stores one row for each URL of the batch that is not stored yet, at its
    first occurrence and in batch order, and returns their number.
    Submitting the same batch again then stores nothing and returns 0,
    whatever the adapters and the stores do the second time. *)
Theorem save_articles_dedupes (env : Env) (settings : Settings)
    (clf : ClassificationService) (batch : list ArticleData) (w : World) :
  store_accepts env -> classifies settings clf ->
  let seen := map Article.url (articles w) in
  let fresh := first_new seen (map data_url batch) in
  let r := save_articles env settings clf batch w in
  fst r = Ok (Z.of_nat (length fresh)) /\
  map Article.url (articles (snd r)) = (seen ++ fresh)%list /\
  forall env',
    let r' := save_articles env' settings clf batch (snd r) in
    fst r' = Ok 0 /\
    articles (snd r') = articles (snd r) /\
    collection (snd r') = collection (snd r).
Proof.
  intros Hst Hcl. cbv zeta. rewrite save_articles_run. cbn [fst snd].
  unfold frame_after.
  destruct (save_loop_urls env settings clf batch (init_frame w) Hst Hcl eq_refl)
    as [Hu Hn].
  cbn [world init_frame saved_count] in Hu, Hn.
  split; [rewrite Hn; reflexivity|]. split; [exact Hu|].
  intros env'. rewrite save_articles_run. cbn [fst snd]. unfold frame_after.
  destruct (save_loop_known env' settings clf batch
              (init_frame (world (snd (save_loop env settings clf batch (init_frame w)))))
              eq_refl) as (Ha & Hc & Hs).
  - intros a Ha. cbn [world init_frame]. rewrite <- mem_urls. apply mem_In.
    rewrite Hu. apply List.in_app_iff. apply first_new_covers.
    apply in_map. exact Ha.
  - cbn [world init_frame saved_count] in Ha, Hc, Hs.
    rewrite Hs, Ha, Hc. repeat split.
Qed.

(** [save_articles_dedupes] on a batch that repeats a URL. *)
Lemma save_articles_dedupes_witness :
  let r := save_articles env_ok settings_live (classifier settings_live)
             [zero_day; zero_day; patch_day] empty_world in
  fst r = Ok 2 /\
  map Article.url (articles (snd r)) = ["https://e/1"; "https://e/2"] /\
  fst (save_articles env_no_embedding settings_live (classifier settings_live)
         [zero_day; zero_day; patch_day] (snd r)) = Ok 0.
Proof.
  destruct (save_articles_dedupes env_ok settings_live (classifier settings_live)
              [zero_day; zero_day; patch_day] empty_world)
    as (Hn & Hu & Hre).
  - intros tr a. reflexivity.
  - left. reflexivity.
  - cbv zeta. split; [exact Hn|]. split; [exact Hu|].
    apply (Hre env_no_embedding).
Defined.

(** ** The categories that get stored *)

Section Categories.

Context (env : Env) (settings : Settings) (clf : ClassificationService).

(** What [classify_article] returns is in the enumeration, or is the
    fallback. *)
Lemma classify_article_known (title summary c : string) (w w1 : World) :
  classify_article env settings clf title summary w = (Ok c, w1) ->
  In c (news_categories settings) \/ c = fallback_category.
Proof.
  destruct (mock_mode clf) eqn:Hm.
  - rewrite (classify_article_mock_run env settings clf title summary w Hm).
    cbv zeta. destruct (news_categories settings) as [|c0 rest] eqn:Hcat;
      [discriminate|].
    intros H. left.
    replace c with (nth (random_index env (trace w) mod length (c0 :: rest))%nat
                      (c0 :: rest) c0) by congruence.
    apply nth_In. apply Nat.mod_upper_bound. discriminate.
  - rewrite (classify_article_run env settings clf title summary w Hm).
    cbv zeta. destruct (responses_parse env _ _ _) as [cl|].
    + destruct (Py.mem (cc_category cl) (news_categories settings)) eqn:Hmem;
        intros H; injection H as <- _.
      * left. apply mem_In. exact Hmem.
      * right. reflexivity.
    + intros H. injection H as <- _. right. reflexivity.
Qed.

Lemma save_one_known (a : ArticleData) (f : Frame) :
  session_new f = [] ->
  Forall (category_known settings) (articles (world f)) ->
  Forall (category_known settings)
    (articles (world (snd (save_one env settings clf a f)))).
Proof.
  intros Hs Hk.
  pose proof (save_one_effect env settings clf a f Hs) as He.
  cbv zeta in He. destruct He as (_ & _ & _ & _ & He).
  destruct He as [(Ha & _)|(c & w1 & row & Hc & _ & _ & Hrow & Ha & _)].
  - rewrite Ha. exact Hk.
  - rewrite Ha. apply List.Forall_app. split; [exact Hk|].
    constructor; [|constructor].
    exists c. split; [rewrite Hrow; reflexivity|].
    exact (classify_article_known _ _ _ _ _ Hc).
Qed.

End Categories.

(** X10.  No category outside the enumeration is ever stored, except the
    fallback: starting on empty stores, whatever the classifier adapter
    answers, every row has a category, and that category is a member of
    the configured enumeration or is "Software & Development". *)
Theorem stored_categories_known (settings : Settings)
    (clf : ClassificationService) (w : World) :
  reachable settings clf w ->
  Forall (category_known settings) (articles w).
Proof.
  induction 1 as [|env batch w Hr IH|env w Hr IH|env request w Hr IH
                  |i w Hr IH|w Hr IH].
  - constructor.
  - rewrite save_articles_run. cbn [snd]. unfold frame_after.
    apply (save_loop_invariant env settings clf
             (fun f => Forall (category_known settings) (articles (world f)))).
    + intros a f Hs Hf. apply save_one_known; assumption.
    + reflexivity.
    + exact IH.
  - destruct (sync_shape env w) as (w' & new & Hs & Ha & _).
    rewrite Hs. cbn [snd]. rewrite Ha. exact IH.
  - destruct (search_news_outcome env settings request w) as (Ha & _).
    rewrite Ha. exact IH.
  - rewrite get_article_run. destruct (find _ (articles w)); exact IH.
  - rewrite get_stats_run. exact IH.
Qed.

(** [stored_categories_known] after a batch classified by an adapter that
    answers with a category outside the enumeration. *)
Lemma stored_categories_known_witness :
  Forall (category_known settings_live)
    (articles (snd (save_articles env_wrong_category settings_live
                      (classifier settings_live) [zero_day; patch_day]
                      empty_world))).
Proof.
  apply (stored_categories_known settings_live (classifier settings_live)).
  apply reach_save_articles, reach_empty.
Defined.

(** ** Ingestion with failures, then one run of the reconciler *)

Lemma NoDup_str_ids (rows : list Article.t) :
  List.NoDup (map Article.id rows) ->
  List.NoDup (map (fun r => Py.str (Article.id r)) rows).
Proof.
  induction rows as [|a rows IH]; intros Hnd; [constructor|].
  inversion Hnd as [|i ids Hni Hnd']; subst. simpl.
  constructor; [|apply IH; exact Hnd'].
  intros Hin. apply Hni. apply in_map_iff in Hin. destruct Hin as (r & Heq & Hr).
  apply str_inj in Heq. rewrite <- Heq. apply in_map. exact Hr.
Qed.

(** X11.  The Vector Index is eventually consistent with the Relational
    Store.  Whatever happened before on stores that started empty (batches
    ingested while the embedder or the index failed, earlier runs of the
    reconciler, requests), one run of [sync_missing_embeddings] with an
    embedder that answers and an index that accepts the writes leaves
    exactly one Embedding Record for every article, and as many records
    as articles. *)
Theorem sync_completes_index (settings : Settings)
    (clf : ClassificationService) (env : Env) (w : World) :
  reachable settings clf w ->
  embedder_works env -> index_accepts env ->
  let w' := snd (sync_missing_embeddings env w) in
  fst (sync_missing_embeddings env w) = Ok Py.None_ /\
  articles w' = articles w /\
  (forall r, In r (articles w') ->
     records_for (Article.id r) (collection w') = 1%nat) /\
  length (collection w') = length (articles w') /\
  well_formed w'.
Proof.
  intros Hr Hemb Hacc. cbv zeta.
  pose proof (reachable_invariant settings clf w Hr) as Hw.
  destruct (sync_heals env w (wf_ids w Hw)) as (w' & new & Hs & Ha & _ & _ & _ & _ & Hu).
  { intros r _ tr. apply Hemb. }
  { exact Hacc. }
  destruct (sync_shape env w) as (w2 & new2 & Hs2 & _ & _ & Hw2).
  rewrite Hs in Hs2. injection Hs2 as <-. specialize (Hw2 Hw).
  rewrite Hs. cbn [fst snd].
  assert (Hone : forall r, In r (articles w') ->
            records_for (Article.id r) (collection w') = 1%nat).
  { intros r Hin.
    pose proof (records_for_le_1 (Article.id r) (collection w') (wf_records w' Hw2)).
    assert (Hh : has_record (Article.id r) (collection w') = true).
    { destruct (has_record (Article.id r) (collection w')) eqn:Hh; [reflexivity|].
      exfalso. assert (Hin' : In r (unindexed (collection w') (articles w'))).
      { unfold unindexed. apply List.filter_In. split; [exact Hin|].
        rewrite Hh. reflexivity. }
      rewrite Hu in Hin'. destruct Hin'. }
    apply has_record_true in Hh. lia. }
  split; [reflexivity|]. split; [exact Ha|]. split; [exact Hone|].
  split; [|exact Hw2].
  apply Nat.le_antisymm; [apply well_formed_counts; exact Hw2|].
  rewrite <- (List.length_map emb_id (collection w')).
  rewrite <- (List.length_map (fun r => Py.str (Article.id r)) (articles w')).
  apply List.NoDup_incl_length.
  - apply NoDup_str_ids. apply (wf_ids w' Hw2).
  - intros x Hx. apply in_map_iff in Hx. destruct Hx as (r & <- & Hin).
    apply records_for_In. rewrite (Hone r Hin). lia.
Qed.

(** [sync_completes_index] after a batch ingested while the embedder was
    down. *)
Lemma sync_completes_index_witness :
  let w := snd (save_articles env_no_embedding settings_live
                  (classifier settings_live) [zero_day; patch_day] empty_world) in
  let w' := snd (sync_missing_embeddings env_ok w) in
  collection w = [] /\
  length (articles w') = 2%nat /\
  length (collection w') = 2%nat.
Proof.
  cbv zeta.
  destruct (sync_completes_index settings_live (classifier settings_live) env_ok
              (snd (save_articles env_no_embedding settings_live
                      (classifier settings_live) [zero_day; patch_day]
                      empty_world)))
    as (_ & Ha & _ & Hl & _).
  - apply reach_save_articles, reach_empty.
  - intros tr text. exists 1%Q, [0%Q]. reflexivity.
  - intros tr e. reflexivity.
  - split; [reflexivity|]. rewrite Hl, Ha. split; reflexivity.
Defined.

(** ** Without an API key *)

Lemma save_loop_parse_calls (env : Env) (settings : Settings)
    (clf : ClassificationService) (l : list ArticleData) (f : Frame) :
  mock_mode clf = true -> session_new f = [] ->
  parse_calls (trace (world (snd (save_loop env settings clf l f))))
    = parse_calls (trace (world f)).
Proof.
  intros Hm Hs.
  apply (save_loop_invariant env settings clf
           (fun f' => parse_calls (trace (world f')) = parse_calls (trace (world f)))).
  - intros a f0 Hs0 Hf0.
    pose proof (save_one_effect env settings clf a f0 Hs0) as He.
    cbv zeta in He. destruct He as (_ & _ & _ & Hp & _).
    rewrite Hm in Hp. rewrite Hp. exact Hf0.
  - exact Hs.
  - reflexivity.
Qed.

(** X12.  Without an API key the classifier is in mock mode, even when it
    is constructed with [mock_mode=False]: a classification draws a
    member of the enumeration, leaves stores and log alone and never
    calls the model; a whole batch goes through [save_articles] without
    one call to the classifier adapter. *)
Theorem no_api_key_no_model_call (env : Env) (settings : Settings)
    (requested : bool) :
  openai_api_key settings = "" ->
  let clf := ClassificationService_init settings requested in
  mock_mode clf = true /\
  (forall title summary w,
     news_categories settings <> [] ->
     exists c,
       classify_article env settings clf title summary w
         = (Ok c, add_event EvRandomChoice w) /\
       In c (news_categories settings)) /\
  (forall batch w,
     parse_calls (trace (snd (save_articles env settings clf batch w)))
       = parse_calls (trace w)).
Proof.
  intros Hkey. cbv zeta.
  assert (Hm : mock_mode (ClassificationService_init settings requested) = true).
  { unfold ClassificationService_init. simpl. rewrite Hkey. simpl.
    apply orb_true_r. }
  split; [exact Hm|]. split.
  - intros title summary w Hne.
    rewrite (classify_article_mock_run env settings _ title summary w Hm).
    cbv zeta. destruct (news_categories settings) as [|c0 rest]; [congruence|].
    eexists. split; [reflexivity|].
    apply nth_In. apply Nat.mod_upper_bound. discriminate.
  - intros batch w. rewrite save_articles_run. cbn [snd]. unfold frame_after.
    apply (save_loop_parse_calls env settings _ batch (init_frame w) Hm eq_refl).
Qed.

(** [no_api_key_no_model_call] with the default settings. *)
Lemma no_api_key_no_model_call_witness :
  mock_mode (classifier Settings_defaults) = true /\
  parse_calls (trace (snd (save_articles env_ok Settings_defaults
                             (classifier Settings_defaults)
                             [zero_day; patch_day] empty_world))) = 0%nat.
Proof.
  destruct (no_api_key_no_model_call env_ok Settings_defaults false eq_refl)
    as (Hm & _ & Hb).
  split; [exact Hm|]. exact (Hb [zero_day; patch_day] empty_world).
Defined.

(** ** [GET /stats] *)

(** The rows of a group. *)
Lemma group_count_lookup {K} `{Countable K} (key : Article.t -> K)
    (rows : list Article.t) (k : K) :
  Api.group_count key rows !! k =
    let n := length (List.filter (fun r => bool_decide (key r = k)) rows) in
    if Nat.eqb n 0 then None else Some (Z.of_nat n).
Proof.
  cbv zeta. induction rows as [|r rows IH]; [apply lookup_empty|].
  unfold Api.group_count. cbn [fold_right List.filter].
  fold (Api.group_count key rows).
  destruct (decide (key r = k)) as [Heq|Hne].
  - rewrite (bool_decide_eq_true_2 _ Heq). subst k.
    rewrite lookup_insert_eq, IH. cbn [length Nat.eqb].
    destruct (Nat.eqb _ 0) eqn:Hz.
    + apply Nat.eqb_eq in Hz. rewrite Hz. reflexivity.
    + simpl default. f_equal. lia.
  - rewrite (bool_decide_eq_false_2 _ Hne).
    rewrite lookup_insert_ne by exact Hne. exact IH.
Qed.

(** The counts of the groups add up to the number of rows. *)
Lemma group_count_total {K} `{Countable K} (key : Article.t -> K)
    (rows : list Article.t) :
  map_fold (fun _ n acc => n + acc) 0 (Api.group_count key rows)
    = Z.of_nat (length rows).
Proof.
  assert (Hcomm : forall (m : gmap K Z) (i : K) (x : Z),
            m !! i = None ->
            map_fold (fun _ n acc => n + acc) 0 (<[i:=x]> m)
              = x + map_fold (fun _ n acc => n + acc) 0 m).
  { intros m i x Hi. apply (map_fold_insert_L (fun _ n acc => n + acc)); [|exact Hi].
    intros. lia. }
  induction rows as [|r rows IH]; [apply map_fold_empty|].
  unfold Api.group_count. cbn [fold_right]. fold (Api.group_count key rows).
  set (m := Api.group_count key rows) in *.
  destruct (m !! key r) as [y|] eqn:Hl.
  - simpl default.
    rewrite <- (insert_delete_eq m (key r) (1 + y)).
    rewrite Hcomm by apply lookup_delete_eq.
    rewrite <- (insert_delete_id m (key r) y Hl) in IH.
    rewrite Hcomm in IH by apply lookup_delete_eq.
    cbn [length]. lia.
  - simpl default. rewrite Hcomm by exact Hl. rewrite IH. cbn [length]. lia.
Qed.

(** X13.  [get_stats] reads and never writes.  [total_articles] is the
    number of rows; each breakdown has one entry for every category (the
    missing category included) or source that occurs, with the number of
    its rows, has no entry for one that does not occur, and adds up to
    [total_articles]; on well-formed stores [total_embeddings] is at most
    [total_articles]. *)
Theorem get_stats_counts (w : World) :
  exists stats w',
    Api.get_stats w = (Ok stats, w') /\
    articles w' = articles w /\ collection w' = collection w /\
    Api.total_articles stats = Z.of_nat (length (articles w)) /\
    (forall c,
       let n := length (List.filter
                          (fun r => bool_decide (Article.category r = c))
                          (articles w)) in
       Api.by_category stats !! c = if Nat.eqb n 0 then None else Some (Z.of_nat n)) /\
    (forall s,
       let n := length (List.filter
                          (fun r => bool_decide (Article.source r = s))
                          (articles w)) in
       Api.by_source stats !! s = if Nat.eqb n 0 then None else Some (Z.of_nat n)) /\
    map_fold (fun _ n acc => n + acc) 0 (Api.by_category stats)
      = Api.total_articles stats /\
    map_fold (fun _ n acc => n + acc) 0 (Api.by_source stats)
      = Api.total_articles stats /\
    EmbeddingService.total_embeddings (Api.embeddings stats)
      = Z.of_nat (length (collection w)) /\
    (well_formed w ->
     EmbeddingService.total_embeddings (Api.embeddings stats)
       <= Api.total_articles stats).
Proof.
  rewrite get_stats_run. do 2 eexists. split; [reflexivity|].
  cbn [Api.total_articles Api.by_category Api.by_source Api.embeddings
       EmbeddingService.total_embeddings].
  split; [reflexivity|]. split; [reflexivity|]. split; [reflexivity|].
  split; [intros c; apply group_count_lookup|].
  split; [intros s; apply group_count_lookup|].
  split; [apply group_count_total|].
  split; [apply group_count_total|].
  split; [reflexivity|].
  intros Hw. apply Nat2Z.inj_le. apply well_formed_counts. exact Hw.
Qed.

(** [get_stats_counts] on the world of the scenario. *)
Lemma get_stats_counts_witness :
  exists stats,
    fst (Api.get_stats world_one) = Ok stats /\
    EmbeddingService.total_embeddings (Api.embeddings stats)
      <= Api.total_articles stats.
Proof.
  destruct (get_stats_counts world_one)
    as (stats & w' & Hs & _ & _ & _ & _ & _ & _ & _ & _ & Hle).
  exists stats. split; [rewrite Hs; reflexivity|].
  apply Hle. constructor.
  - vm_compute. constructor; [intros []|constructor].
  - vm_compute. constructor; [intros []|constructor].
  - vm_compute. constructor; [intros []|constructor].
  - intros e He. vm_compute in He. destruct He as [<-|[]].
    eexists. split; [left; reflexivity|]. vm_compute. reflexivity.
Defined.

(** ** Bounds on what is sent and stored *)

Lemma substring_length (n : nat) (s : string) :
  (String.length (substring 0 n s) <= n)%nat.
Proof.
  revert s. induction n as [|n IH]; intros s.
  - destruct s; simpl; lia.
  - destruct s as [|a s]; simpl; [lia|]. specialize (IH s). lia.
Qed.

Lemma take_length (n : Z) (s : string) :
  0 <= n -> Z.of_nat (String.length (Py.take n s)) <= n.
Proof.
  intros Hn. pose proof (substring_length (Z.to_nat n) s) as H.
  unfold Py.take. lia.
Qed.

Lemma bounded_event (e : Event) (w : World) :
  within_limit e -> bounded w -> bounded (add_event e w).
Proof. intros He Hw. constructor; assumption. Qed.

Lemma bounded_embed (text : string) (w : World) :
  bounded w -> bounded (add_event (EvEmbeddingsCreate (Py.take 8000 text)) w).
Proof. apply bounded_event. apply (take_length 8000). lia. Qed.

Lemma bounded_after_lookups (n : nat) (w : World) :
  bounded w -> bounded (after_lookups n w).
Proof.
  intros Hw. induction n as [|n IH]; [exact Hw|].
  unfold after_lookups. simpl. apply bounded_event; [exact I|exact IH].
Qed.

Ltac bounded_step :=
  unfold bounded in *;
  cbn [trace add_event add_log put_articles put_collection fst snd world mk_frame]
    in *;
  repeat first
    [ assumption
    | apply List.Forall_cons;
      [first [exact I | apply (take_length 8000); lia]|] ].

Section Bounds.

Context (env : Env) (settings : Settings) (clf : ClassificationService).

Lemma add_article_bounded (i : Z) (t s : string) (c : option string)
    (src : string) (w : World) :
  bounded w -> bounded (snd (add_article env i t s c src w)).
Proof.
  intros Hw. rewrite add_article_run. cbv zeta.
  destruct (has_record i (collection w)); [simpl; bounded_step|].
  destruct (embeddings_create env _ _) as [[|x v]|]; try (simpl; bounded_step).
  destruct (collection_add_fails env _ _); simpl; bounded_step.
Qed.

Lemma classify_article_bounded (title summary : string) (w : World) :
  bounded w ->
  bounded (snd (classify_article env settings clf title summary w)).
Proof.
  intros Hw. destruct (mock_mode clf) eqn:Hm.
  - rewrite (classify_article_mock_run env settings clf title summary w Hm).
    cbv zeta. destruct (news_categories settings); simpl; bounded_step.
  - rewrite (classify_article_run env settings clf title summary w Hm).
    cbv zeta. destruct (responses_parse env _ _ _) as [cl|];
      [destruct (Py.mem _ _)|]; simpl; bounded_step.
Qed.

Lemma save_one_bounded (a : ArticleData) (f : Frame) :
  session_new f = [] -> bounded (world f) ->
  bounded (world (snd (save_one env settings clf a f))).
Proof.
  intros Hs Hw. rewrite (save_one_run env settings clf a f Hs).
  pose proof (classify_article_bounded (data_title a) (get_summary a) (world f) Hw)
    as Hc.
  destruct (classify_article env settings clf (data_title a) (get_summary a)
              (world f)) as [[c|e] w1]; cbn [snd] in Hc.
  - cbv zeta. destruct (url_exists _ _); [simpl; bounded_step|].
    destruct (commit_fails env _ _); [simpl; bounded_step|].
    cbn [snd world mk_frame]. apply add_article_bounded. bounded_step.
  - destruct e; simpl; bounded_step.
Qed.

Lemma sync_loop_bounded (existing : gset string) (l : list Article.t) (m : Z)
    (w : World) :
  bounded w -> bounded (snd (sync_loop env existing l m w)).
Proof.
  revert m w. induction l as [|r l IH]; intros m w Hw; [exact Hw|].
  simpl sync_loop. destruct (negb _); [|apply IH; exact Hw].
  unfold bind.
  pose proof (add_article_ok env (Article.id r) (Article.title r)
                (Py.or_empty (Article.summary r)) (Article.category r)
                (Article.source r) w) as Hok.
  pose proof (add_article_bounded (Article.id r) (Article.title r)
                (Py.or_empty (Article.summary r)) (Article.category r)
                (Article.source r) w Hw) as Hb.
  destruct (add_article env _ _ _ _ _ w) as [res w1]. simpl in Hok, Hb.
  subst res. apply IH. exact Hb.
Qed.

Lemma sync_bounded (w : World) :
  bounded w -> bounded (snd (sync_missing_embeddings env w)).
Proof.
  intros Hw. rewrite sync_run. cbv zeta.
  set (w3 := if 0 <? Z.of_nat (length (collection w)) then _ else _).
  assert (H3 : bounded w3) by (subst w3; destruct (0 <? _); bounded_step).
  pose proof (sync_loop_bounded (existing_ids_of (collection w)) (articles w) 0 w3 H3)
    as Hl.
  destruct (sync_loop env _ _ 0 w3) as [[n|e] w4]; simpl in *; bounded_step.
Qed.

Lemma search_bounded (query : string) (category : option string) (limit : Z)
    (w : World) :
  bounded w -> bounded (snd (search env query category limit w)).
Proof.
  intros Hw.
  pose proof (search_result env query category limit w) as Hs. cbv zeta in Hs.
  destruct (embeddings_create env (trace w) (Py.take 8000 query)) as [[|x v]|];
    [rewrite Hs; simpl; bounded_step| |rewrite Hs; simpl; bounded_step].
  destruct (limit <=? 0); [rewrite Hs; simpl; bounded_step|].
  destruct (same_dimension _ _); [|rewrite Hs; simpl; bounded_step].
  destruct (to_matches _); rewrite Hs; simpl; bounded_step.
Qed.

Lemma search_news_bounded (request : SearchRequest) (w : World) :
  bounded w -> bounded (snd (search_news env settings request w)).
Proof.
  intros Hw.
  destruct (negb (Py.truthy_opt (prompt request))
            && negb (Py.truthy_opt (category request))) eqn:H1.
  { unfold search_news. rewrite H1. exact Hw. }
  destruct (Py.truthy_opt (category request)
            && negb (Py.mem_opt (category request) (news_categories settings)))
    eqn:H2.
  { unfold search_news. rewrite H1, H2. exact Hw. }
  apply category_accepted_check in H2.
  destruct (Py.truthy_opt (prompt request)) eqn:Hp.
  - destruct (prompt request) as [query|] eqn:Hq; [|discriminate].
    simpl in Hp.
    destruct (search_news_semantic env settings request query w Hq Hp H2)
      as (results & w1 & Hs1 & _ & _ & _ & Hs).
    rewrite Hs. cbn [snd]. apply bounded_after_lookups.
    pose proof (search_bounded query (category request) (limit request) w Hw) as Hb.
    rewrite Hs1 in Hb. exact Hb.
  - destruct (Py.truthy_opt (category request)) eqn:Hc; [|discriminate].
    destruct (search_news_category env settings request w Hp Hc H2)
      as (rows & _ & Hs).
    rewrite Hs. simpl. bounded_step.
Qed.

End Bounds.

Lemma reachable_bounded (settings : Settings) (clf : ClassificationService)
    (w : World) :
  reachable settings clf w -> bounded w.
Proof.
  induction 1 as [|env batch w Hr IH|env w Hr IH|env request w Hr IH
                  |i w Hr IH|w Hr IH].
  - constructor.
  - rewrite save_articles_run. cbn [snd]. unfold frame_after.
    apply (save_loop_invariant env settings clf (fun f => bounded (world f))).
    + intros a f Hs Hf. apply save_one_bounded; assumption.
    + reflexivity.
    + exact IH.
  - apply sync_bounded. exact IH.
  - apply search_news_bounded. exact IH.
  - rewrite get_article_run. destruct (find _ (articles w)); simpl; bounded_step.
  - rewrite get_stats_run. simpl. bounded_step.
Qed.

(** X14.  The limits the code sets are kept.  Starting on empty stores, no
    text of more than 8000 characters is ever sent to the embedder, by
    ingestion, by the reconciler or by a search; and every Embedding
    Record holds a document of at most 1000 characters and a title of at
    most 200. *)
Theorem reachable_within_limits (settings : Settings)
    (clf : ClassificationService) (w : World) :
  reachable settings clf w ->
  (forall input, In (EvEmbeddingsCreate input) (trace w) ->
     Z.of_nat (String.length input) <= 8000) /\
  (forall e, In e (collection w) ->
     Z.of_nat (String.length (emb_document e)) <= 1000 /\
     Z.of_nat (String.length (meta_title (emb_metadata e))) <= 200).
Proof.
  intros Hr. split.
  - intros input Hin. pose proof (reachable_bounded settings clf w Hr) as Hb.
    unfold bounded in Hb.
    exact (proj1 (List.Forall_forall _ _) Hb _ Hin).
  - intros e He.
    destruct (wf_snapshot w (reachable_invariant settings clf w Hr) e He)
      as (r & _ & Heq).
    rewrite Heq. simpl. split.
    + apply (take_length 1000). lia.
    + apply (take_length 200). lia.
Qed.

(** [reachable_within_limits] after a batch and a search: the prompt was
    sent to the embedder, within the limit. *)
Lemma reachable_within_limits_witness :
  let w := snd (search_news env_ok settings_live request_prompt
                  (snd (save_articles env_ok settings_live
                          (classifier settings_live) [zero_day; patch_day]
                          empty_world))) in
  In (EvEmbeddingsCreate "zero day") (trace w) /\
  Z.of_nat (String.length "zero day") <= 8000.
Proof.
  cbv zeta.
  assert (Hin : In (EvEmbeddingsCreate "zero day")
                  (trace (snd (search_news env_ok settings_live request_prompt
                                 (snd (save_articles env_ok settings_live
                                         (classifier settings_live)
                                         [zero_day; patch_day] empty_world)))))).
  { vm_compute. repeat first [left; reflexivity | right]. }
  split; [exact Hin|].
  destruct (reachable_within_limits settings_live (classifier settings_live)
              (snd (search_news env_ok settings_live request_prompt
                      (snd (save_articles env_ok settings_live
                              (classifier settings_live) [zero_day; patch_day]
                              empty_world))))) as [Hb _].
  - apply reach_search_news, reach_save_articles, reach_empty.
  - exact (Hb _ Hin).
Defined.

(** ** Strings of the collector *)

Section StringLemmas.

Import PyStr.

Lemma string_app_cons (a : ascii) (s t : string) :
  String a s ++ t = String a (s ++ t).
Proof. reflexivity. Qed.

Lemma string_app_nil_l (s : string) : "" ++ s = s.
Proof. reflexivity. Qed.

Lemma string_app_nil_r (s : string) : s ++ "" = s.
Proof.
  induction s as [|a s IH]; [reflexivity|].
  rewrite string_app_cons, IH. reflexivity.
Qed.

Lemma string_app_assoc (a b c : string) : (a ++ b) ++ c = a ++ b ++ c.
Proof.
  induction a as [|x a IH]; [reflexivity|].
  rewrite !string_app_cons, IH. reflexivity.
Qed.

Lemma string_app_length (a b : string) :
  String.length (a ++ b) = (String.length a + String.length b)%nat.
Proof.
  induction a as [|x a IH]; [reflexivity|].
  rewrite string_app_cons. simpl. rewrite IH. reflexivity.
Qed.

Ltac sapp := rewrite ?string_app_cons, ?string_app_nil_l in *.

Lemma prefix_length (p s : string) :
  String.prefix p s = true -> (String.length p <= String.length s)%nat.
Proof.
  revert s. induction p as [|a p IH]; intros s H; simpl; [lia|].
  destruct s as [|b s]; simpl in H; [discriminate|].
  destruct (Ascii.ascii_dec a b); [|discriminate]. simpl. specialize (IH s H). lia.
Qed.

Lemma prefix_app (p r : string) : String.prefix p (p ++ r) = true.
Proof.
  induction p as [|a p IH]; sapp; simpl; [destruct r; reflexivity|].
  destruct (Ascii.ascii_dec a a); [exact IH|congruence].
Qed.

Lemma prefix_split (p s : string) :
  String.prefix p s = true -> s = p ++ drop (String.length p) s.
Proof.
  revert s. induction p as [|a p IH]; intros s H; simpl.
  - destruct s; reflexivity.
  - destruct s as [|b s]; simpl in H; [discriminate|].
    destruct (Ascii.ascii_dec a b); [|discriminate]. subst b. sapp.
    f_equal. apply IH. exact H.
Qed.

(** A prefix no longer than [u] is read inside [u]. *)
Lemma prefix_app_long (p u v : string) :
  (String.length p <= String.length u)%nat ->
  String.prefix p (u ++ v) = String.prefix p u.
Proof.
  revert u. induction p as [|a p IH]; intros u Hl.
  - destruct u, v; reflexivity.
  - destruct u as [|b u]; simpl in Hl; [lia|]. sapp. simpl.
    destruct (Ascii.ascii_dec a b); [|reflexivity]. apply IH. lia.
Qed.

Lemma split_from_skip (sep : string) (k : nat) (cur s : string) :
  (k <= String.length s)%nat ->
  split_from sep k cur s = split_from sep 0 cur (drop k s).
Proof.
  revert s. induction k as [|k IH]; intros s Hk.
  - destruct s; reflexivity.
  - destruct s as [|a s]; simpl in Hk; [lia|]. simpl. apply IH. lia.
Qed.

(** [split] cuts at the first occurrence of the separator and goes on
    behind it. *)
Lemma split_cut (sep : string) (cur s : string) :
  sep <> "" ->
  split_from sep 0 cur s =
    (cur ++ before sep s) ::
    match after sep s with
    | Some rest => split_from sep 0 "" rest
    | None => []
    end.
Proof.
  intros Hsep. revert cur. induction s as [|a s IH]; intros cur.
  - destruct sep as [|b sep]; [congruence|]. simpl. rewrite string_app_nil_r.
    reflexivity.
  - cbn [split_from before after].
    destruct (String.prefix sep (String a s)) eqn:Hp.
    + rewrite string_app_nil_r. f_equal.
      pose proof (prefix_length _ _ Hp) as Hlen.
      destruct sep as [|b sep]; [congruence|]. simpl in Hlen.
      rewrite split_from_skip by (simpl; lia).
      simpl. rewrite Nat.sub_0_r. reflexivity.
    + rewrite IH. rewrite string_app_assoc. reflexivity.
Qed.

Lemma after_contains (sep s : string) :
  after sep s = None <-> contains sep s = false.
Proof.
  induction s as [|a s IH]; cbn [after contains];
    destruct (String.prefix sep _); simpl; split; intros; try congruence;
    try tauto; apply IH; assumption.
Qed.

Lemma contains_app_l (sub x y : string) :
  contains sub y = true -> contains sub (x ++ y) = true.
Proof.
  intros H. induction x as [|a x IH]; [exact H|].
  sapp. cbn [contains]. rewrite IH. apply orb_true_r.
Qed.

Lemma contains_prefix (sub s : string) :
  String.prefix sub s = true -> contains sub s = true.
Proof. intros H. destruct s; cbn [contains]; rewrite H; reflexivity. Qed.

Lemma contains_suffix (a b s : string) :
  contains (a ++ b) s = true -> contains b s = true.
Proof.
  induction s as [|c s IH]; cbn [contains].
  - rewrite orb_false_r. intros Hp. apply prefix_split in Hp.
    destruct a; sapp; [|discriminate]. destruct b; [reflexivity|discriminate].
  - intros H. apply orb_true_iff in H. destruct H as [Hp|Hc].
    + apply prefix_split in Hp. rewrite string_app_assoc in Hp.
      change (contains b (String c s) = true).
      rewrite Hp. apply contains_app_l. apply contains_prefix, prefix_app.
    + rewrite (IH Hc). apply orb_true_r.
Qed.

(** The first occurrence of ["/r/"], when none starts inside [pre]. *)
Lemma cut_first (pre rest : string) :
  contains "/r/" (pre ++ "/r") = false ->
  before "/r/" (pre ++ "/r/" ++ rest) = pre /\
  after "/r/" (pre ++ "/r/" ++ rest) = Some rest.
Proof.
  induction pre as [|c pre IH]; intros Hc.
  - destruct rest; split; reflexivity.
  - rewrite string_app_cons in Hc. cbn [contains] in Hc.
    apply orb_false_iff in Hc. destruct Hc as [Hp Hc].
    destruct (IH Hc) as [IHb IHa].
    rewrite (string_app_cons c pre ("/r/" ++ rest)).
    assert (Hp' : String.prefix "/r/" (String c (pre ++ "/r/" ++ rest)) = false).
    { replace (String c (pre ++ "/r/" ++ rest))
        with (String c (pre ++ "/r") ++ ("/" ++ rest))
        by (rewrite string_app_cons, string_app_assoc; reflexivity).
      rewrite prefix_app_long; [exact Hp|].
      simpl. rewrite string_app_length. simpl. lia. }
    cbn [before after]. rewrite Hp'. rewrite IHb, IHa. split; reflexivity.
Qed.

Lemma prefix_cons (x y : ascii) (p s : string) :
  String.prefix (String x p) (String y s)
    = if Ascii.ascii_dec x y then String.prefix p s else false.
Proof. reflexivity. Qed.

Lemma prefix_nil (s : string) : String.prefix "" s = true.
Proof. destruct s; reflexivity. Qed.

Lemma before_before (s : string) :
  before "/" (before "/r/" s) = before "/" s.
Proof.
  induction s as [|a s IH]; [reflexivity|].
  cbn [before]. destruct (String.prefix "/r/" (String a s)) eqn:Hp.
  - rewrite prefix_cons in Hp. rewrite prefix_cons, prefix_nil.
    destruct (Ascii.ascii_dec "/" a); [reflexivity|discriminate].
  - cbn [before]. rewrite !prefix_cons, !prefix_nil.
    destruct (Ascii.ascii_dec "/" a); [reflexivity|].
    rewrite IH. reflexivity.
Qed.

Lemma before_name (name tail : string) :
  contains "/" name = false ->
  tail = "" \/ String.prefix "/" tail = true ->
  before "/" (name ++ tail) = name.
Proof.
  intros Hn Ht. induction name as [|a name IH].
  - sapp. destruct Ht as [->|Ht]; [reflexivity|].
    destruct tail; cbn [before]; rewrite Ht; reflexivity.
  - cbn [contains] in Hn. apply orb_false_iff in Hn. destruct Hn as [Hp Hn].
    sapp. cbn [before].
    assert (Hp' : String.prefix "/" (String a (name ++ tail)) = false).
    { rewrite prefix_cons, prefix_nil in Hp |- *. exact Hp. }
    rewrite Hp', (IH Hn). reflexivity.
Qed.

Lemma before_clean (sep s : string) :
  sep <> "" -> contains sep (before sep s) = false.
Proof.
  intros Hsep. induction s as [|a s IH]; cbn [before].
  - destruct (String.prefix sep ""); destruct sep; try congruence; reflexivity.
  - destruct (String.prefix sep (String a s)) eqn:Hp.
    + destruct sep; [congruence|reflexivity].
    + cbn [contains]. rewrite IH, orb_false_r.
      destruct (String.prefix sep (String a (before sep s))) eqn:Hq; [|reflexivity].
      exfalso.
      (* a prefix of the text before the separator is a prefix of the text *)
      assert (Hgen : forall p t : string,
                String.prefix p (before sep t) = true ->
                p <> "" -> String.prefix p t = true).
      { clear. intros p t. revert p. induction t as [|b t IHt]; intros p Hpre Hne.
        - cbn [before] in Hpre. destruct (String.prefix sep ""); exact Hpre.
        - cbn [before] in Hpre. destruct (String.prefix sep (String b t)).
          + destruct p; [congruence|discriminate].
          + destruct p as [|x p]; [congruence|].
            rewrite prefix_cons in Hpre |- *.
            destruct (Ascii.ascii_dec x b); [|discriminate].
            destruct p as [|y p]; [apply prefix_nil|].
            apply IHt; [exact Hpre|discriminate]. }
      rewrite (Hgen sep (String a s)) in Hp; [discriminate| |exact Hsep].
      cbn [before]. rewrite Hp. exact Hq.
Qed.

End StringLemmas.

(** ** The source label of a Reddit feed *)

Lemma split_hd (sep s : string) :
  sep <> "" -> hd "" (PyStr.split sep s) = PyStr.before sep s.
Proof. intros H. unfold PyStr.split. rewrite split_cut by exact H. reflexivity. Qed.

Lemma split_second (sep s rest : string) :
  sep <> "" -> PyStr.after sep s = Some rest ->
  (1 <? length (PyStr.split sep s))%nat = true /\
  nth 1 (PyStr.split sep s) "" = PyStr.before sep rest.
Proof.
  intros H Ha. unfold PyStr.split. rewrite split_cut, Ha by exact H.
  rewrite (split_cut sep "" rest) by exact H. split; reflexivity.
Qed.

Lemma extract_subreddit_name_after (feed_url rest : string) :
  PyStr.contains "reddit.com/r/" feed_url = true ->
  PyStr.after "/r/" feed_url = Some rest ->
  _extract_subreddit_name feed_url = "reddit:r/" ++ PyStr.before "/" rest.
Proof.
  intros Hc Ha. unfold _extract_subreddit_name. rewrite Hc. cbv zeta.
  destruct (split_second "/r/" feed_url rest) as [Hlen Hnth];
    [discriminate|exact Ha|].
  rewrite Hlen, Hnth, split_hd by discriminate.
  rewrite before_before. reflexivity.
Qed.

(** X15.  The source label of a Reddit feed.  [_extract_subreddit_name]
    answers "rss:reddit" exactly for a URL without "reddit.com/r/".  For
    any other URL it answers "reddit:r/" followed by a name without slash:
    the path segment behind the first "/r/" of the URL, which need not be
    the "/r/" of "reddit.com/r/". *)
Theorem extract_subreddit_name_spec (feed_url : string) :
  (PyStr.contains "reddit.com/r/" feed_url = false ->
   _extract_subreddit_name feed_url = "rss:reddit") /\
  (PyStr.contains "reddit.com/r/" feed_url = true ->
   (exists name,
      _extract_subreddit_name feed_url = "reddit:r/" ++ name /\
      PyStr.contains "/" name = false) /\
   (forall pre name tail,
      feed_url = pre ++ "/r/" ++ name ++ tail ->
      PyStr.contains "/r/" (pre ++ "/r") = false ->
      PyStr.contains "/" name = false ->
      tail = "" \/ String.prefix "/" tail = true ->
      _extract_subreddit_name feed_url = "reddit:r/" ++ name)).
Proof.
  split.
  - intros Hc. unfold _extract_subreddit_name. rewrite Hc. reflexivity.
  - intros Hc.
    assert (Hr : PyStr.contains "/r/" feed_url = true)
      by exact (contains_suffix "reddit.com" "/r/" feed_url Hc).
    destruct (PyStr.after "/r/" feed_url) as [rest|] eqn:Ha;
      [|apply after_contains in Ha; congruence].
    rewrite (extract_subreddit_name_after feed_url rest Hc Ha).
    split.
    + exists (PyStr.before "/" rest). split; [reflexivity|].
      apply before_clean. discriminate.
    + intros pre name tail Hurl Hfirst Hname Htail.
      destruct (cut_first pre (name ++ tail) Hfirst) as [_ Hafter].
      rewrite <- Hurl, Ha in Hafter. injection Hafter as ->.
      rewrite (before_name name tail Hname Htail). reflexivity.
Qed.

(** [extract_subreddit_name_spec] on the Reddit feed of the collector, and
    on a URL where another "/r/" comes first. *)
Lemma extract_subreddit_name_spec_witness :
  _extract_subreddit_name "https://www.reddit.com/r/sysadmin/new.rss"
    = "reddit:r/sysadmin" /\
  _extract_subreddit_name "https://proxy/r/x/www.reddit.com/r/sysadmin"
    = "reddit:r/x".
Proof.
  split.
  - destruct (extract_subreddit_name_spec
                "https://www.reddit.com/r/sysadmin/new.rss") as [_ H].
    destruct (H eq_refl) as [_ Hd].
    apply (Hd "https://www.reddit.com" "sysadmin" "/new.rss");
      [reflexivity|reflexivity|reflexivity|right; reflexivity].
  - destruct (extract_subreddit_name_spec
                "https://proxy/r/x/www.reddit.com/r/sysadmin") as [_ H].
    destruct (H eq_refl) as [_ Hd].
    apply (Hd "https://proxy" "x" "/www.reddit.com/r/sysadmin");
      [reflexivity|reflexivity|reflexivity|right; reflexivity].
Defined.

(** ** The summary of a collected article *)

Section Summaries.

Import PyStr.

Lemma strip_tags_from_length (k : nat) (s : string) :
  (String.length (strip_tags_from k s) <= String.length s)%nat.
Proof.
  revert k. induction s as [|a s IH]; intros k; [simpl; lia|].
  cbn [strip_tags_from]. destruct k as [|k].
  - destruct (Ascii.eqb a "<"); [destruct (gt_index s) as [[|n]|]|];
      cbn [String.length];
      try (specialize (IH 0%nat); lia).
    specialize (IH (S (S n))). lia.
  - specialize (IH k). cbn [String.length]. lia.
Qed.

Lemma lstrip_length (s : string) :
  (String.length (lstrip s) <= String.length s)%nat.
Proof.
  induction s as [|a s IH]; [simpl; lia|].
  cbn [lstrip]. destruct (isspace a); cbn [String.length]; lia.
Qed.

Lemma rstrip_cons (a : ascii) (s : string) :
  rstrip (String a s) =
    match rstrip s with
    | EmptyString => if isspace a then "" else String a ""
    | r => String a r
    end.
Proof. reflexivity. Qed.

Lemma rstrip_length (s : string) :
  (String.length (rstrip s) <= String.length s)%nat.
Proof.
  induction s as [|a s IH]; [simpl; lia|].
  rewrite rstrip_cons. destruct (rstrip s) as [|b r];
    [destruct (isspace a)|]; cbn [String.length] in *; lia.
Qed.

Lemma rstrip_idem (s : string) : rstrip (rstrip s) = rstrip s.
Proof.
  induction s as [|a s IH]; [reflexivity|].
  rewrite rstrip_cons. destruct (rstrip s) as [|b r] eqn:Hr.
  - destruct (isspace a) eqn:Hsp; [reflexivity|].
    rewrite rstrip_cons. cbn [rstrip]. rewrite Hsp. reflexivity.
  - rewrite rstrip_cons, IH. reflexivity.
Qed.

Lemma lstrip_idem (s : string) : lstrip (lstrip s) = lstrip s.
Proof.
  induction s as [|a s IH]; [reflexivity|].
  cbn [lstrip]. destruct (isspace a) eqn:Hsp; [exact IH|].
  cbn [lstrip]. rewrite Hsp. reflexivity.
Qed.

Lemma lstrip_rstrip (s : string) :
  lstrip s = s -> lstrip (rstrip s) = rstrip s.
Proof.
  destruct s as [|a s]; [reflexivity|].
  cbn [lstrip]. destruct (isspace a) eqn:Hsp.
  - intros H. pose proof (lstrip_length s) as Hl. rewrite H in Hl.
    cbn [String.length] in Hl. lia.
  - intros _. rewrite rstrip_cons.
    destruct (rstrip s); [rewrite Hsp|]; cbn [lstrip]; rewrite Hsp; reflexivity.
Qed.

Lemma strip_idem (s : string) : strip (strip s) = strip s.
Proof.
  unfold strip. rewrite (lstrip_rstrip (lstrip s) (lstrip_idem s)).
  apply rstrip_idem.
Qed.

Lemma strip_length (s : string) :
  (String.length (strip s) <= String.length s)%nat.
Proof.
  unfold strip. pose proof (rstrip_length (lstrip s)).
  pose proof (lstrip_length s). lia.
Qed.

Lemma isspace_not_lt (a : ascii) : isspace a = true -> Ascii.eqb a "<" = false.
Proof.
  intros H. destruct (Ascii.eqb_spec a "<") as [->|]; [discriminate H|reflexivity].
Qed.

Lemma gt_index_cons (a : ascii) (s : string) :
  gt_index (String a s) =
    if Ascii.eqb a ">" then Some 0%nat else option_map S (gt_index s).
Proof. reflexivity. Qed.

Lemma strip_tags_from_cons (a : ascii) (s : string) :
  strip_tags_from 0 (String a s) =
    if Ascii.eqb a "<"
    then match gt_index s with
         | Some (S n) => strip_tags_from (S (S n)) s
         | _ => String a (strip_tags_from 0 s)
         end
    else String a (strip_tags_from 0 s).
Proof. reflexivity. Qed.

(** Removing characters puts no [>] where there was none. *)
Lemma gt_index_strip_tags (k : nat) (s : string) :
  gt_index s = None -> gt_index (strip_tags_from k s) = None.
Proof.
  revert k. induction s as [|a s IH]; intros k H; [reflexivity|].
  rewrite gt_index_cons in H. destruct (Ascii.eqb a ">") eqn:Hgt; [discriminate|].
  destruct (gt_index s) as [n|] eqn:Hs; [discriminate|].
  destruct k as [|k]; [|apply IH; reflexivity].
  rewrite strip_tags_from_cons, Hs.
  destruct (Ascii.eqb a "<"); rewrite gt_index_cons, Hgt, IH; reflexivity.
Qed.

Lemma gt_index_rstrip (s : string) :
  gt_index s = None -> gt_index (rstrip s) = None.
Proof.
  induction s as [|a s IH]; intros H; [reflexivity|].
  rewrite gt_index_cons in H. destruct (Ascii.eqb a ">") eqn:Hgt; [discriminate|].
  destruct (gt_index s) as [n|] eqn:Hs; [discriminate|].
  rewrite rstrip_cons. specialize (IH eq_refl).
  destruct (rstrip s) as [|b r]; [destruct (isspace a)|];
    rewrite ?(gt_index_cons a), ?Hgt, ?IH; reflexivity.
Qed.

(** What [strip_tags] returns holds no tag: stripping it again changes
    nothing. *)
Lemma strip_tags_from_idem (k : nat) (s : string) :
  strip_tags_from 0 (strip_tags_from k s) = strip_tags_from k s.
Proof.
  revert k. induction s as [|a s IH]; intros k; [reflexivity|].
  destruct k as [|k]; [|apply IH].
  rewrite (strip_tags_from_cons a s).
  destruct (Ascii.eqb a "<") eqn:Hlt.
  - destruct (gt_index s) as [[|n]|] eqn:Hs.
    + rewrite strip_tags_from_cons, Hlt.
      destruct s as [|b s]; [discriminate|].
      rewrite gt_index_cons in Hs.
      destruct (Ascii.eqb b ">") eqn:Hb;
        [|destruct (gt_index s); discriminate].
      assert (Hnb : Ascii.eqb b "<" = false).
      { apply Ascii.eqb_eq in Hb. subst b. reflexivity. }
      rewrite (strip_tags_from_cons b s), Hnb, gt_index_cons, Hb.
      rewrite strip_tags_from_cons, Hnb.
      pose proof (IH 1%nat) as H1. cbn [strip_tags_from] in H1.
      rewrite H1. reflexivity.
    + apply IH.
    + rewrite strip_tags_from_cons, Hlt.
      rewrite (gt_index_strip_tags 0 s Hs), IH. reflexivity.
  - rewrite strip_tags_from_cons, Hlt, IH. reflexivity.
Qed.

Lemma no_tag_lstrip (s : string) :
  strip_tags s = s -> strip_tags (lstrip s) = lstrip s.
Proof.
  unfold strip_tags. induction s as [|a s IH]; intros H; [reflexivity|].
  cbn [lstrip]. destruct (isspace a) eqn:Hsp; [|exact H].
  apply IH. rewrite strip_tags_from_cons, (isspace_not_lt a Hsp) in H.
  congruence.
Qed.

Lemma no_tag_rstrip (s : string) :
  strip_tags s = s -> strip_tags (rstrip s) = rstrip s.
Proof.
  unfold strip_tags. induction s as [|a s IH]; intros H; [reflexivity|].
  rewrite strip_tags_from_cons in H.
  destruct (Ascii.eqb a "<") eqn:Hlt.
  - assert (Hsp : isspace a = false).
    { apply Ascii.eqb_eq in Hlt. subst a. reflexivity. }
    assert (Hr : rstrip (String a s) = String a (rstrip s)).
    { rewrite rstrip_cons, Hsp. destruct (rstrip s); reflexivity. }
    rewrite Hr, strip_tags_from_cons, Hlt.
    destruct (gt_index s) as [[|n]|] eqn:Hs.
    + assert (Hs0 : strip_tags_from 0 s = s) by congruence.
      destruct s as [|b s]; [discriminate|].
      rewrite gt_index_cons in Hs.
      destruct (Ascii.eqb b ">") eqn:Hb;
        [|destruct (gt_index s); discriminate].
      assert (Hbsp : isspace b = false).
      { apply Ascii.eqb_eq in Hb. subst b. reflexivity. }
      assert (Hrb : rstrip (String b s) = String b (rstrip s)).
      { rewrite rstrip_cons, Hbsp. destruct (rstrip s); reflexivity. }
      rewrite <- (IH Hs0) at 2. rewrite Hrb, gt_index_cons, Hb. reflexivity.
    + exfalso. pose proof (strip_tags_from_length (S (S n)) s) as Hl.
      rewrite H in Hl. cbn [String.length] in Hl. lia.
    + assert (Hs0 : strip_tags_from 0 s = s) by congruence.
      rewrite (gt_index_rstrip s Hs), (IH Hs0). reflexivity.
  - assert (Hs0 : strip_tags_from 0 s = s) by congruence.
    specialize (IH Hs0). rewrite rstrip_cons.
    destruct (rstrip s) as [|b r] eqn:Hr.
    + destruct (isspace a); [reflexivity|].
      rewrite strip_tags_from_cons, Hlt. reflexivity.
    + rewrite strip_tags_from_cons, Hlt, IH. reflexivity.
Qed.

End Summaries.

Section Collected.

Context (net : Collector.Net).

(** What holds of every article the collector builds: its summary is
    there, has at most 500 characters, neither starts nor ends with
    whitespace and holds no tag. *)
Lemma summary_of_clean (entry : Collector.Entry) :
  let s := Collector.summary_of entry in
  Z.of_nat (String.length s) <= 500 /\
  PyStr.strip s = s /\
  PyStr.strip_tags s = s.
Proof.
  cbv zeta. unfold Collector.summary_of.
  set (raw := match Collector.entry_summary entry with Some _ => _ | None => _ end).
  assert (Hraw : Z.of_nat (String.length raw) <= 500).
  { subst raw. destruct (Collector.entry_summary entry);
      [apply take_length; lia|].
    destruct (Collector.entry_description entry); [apply take_length; lia|].
    destruct (Collector.entry_content entry) as [[|value rest]|];
      try (apply take_length; lia); simpl; lia. }
  split; [|split].
  - pose proof (strip_length (PyStr.strip_tags raw)).
    pose proof (strip_tags_from_length 0 raw). unfold PyStr.strip_tags in *. lia.
  - apply strip_idem.
  - unfold PyStr.strip. apply no_tag_rstrip, no_tag_lstrip.
    apply strip_tags_from_idem.
Qed.

End Collected.

(** ** What a feed contributes *)

Section Contribution.

Context (net : Collector.Net).

Lemma collect_entries_readable (source : string) (l : list Collector.Entry)
    (acc : list ArticleData) :
  fst (Collector.collect_entries net source l acc)
    = (acc ++ readable net source l)%list.
Proof.
  revert acc. induction l as [|entry l IH]; intros acc.
  - simpl. rewrite List.app_nil_r. reflexivity.
  - simpl. destruct (Collector.article_of net source entry) as [a|].
    + rewrite IH, <- List.app_assoc. reflexivity.
    + simpl. rewrite List.app_nil_r. reflexivity.
Qed.

Lemma readable_length (source : string) (l : list Collector.Entry) :
  (length (readable net source l) <= length l)%nat.
Proof.
  induction l as [|entry l IH]; simpl; [lia|].
  destruct (Collector.article_of net source entry); simpl; lia.
Qed.

Lemma readable_clean (source : string) (l : list Collector.Entry) :
  Forall (fun a => data_source a = source /\ clean_summary a)
    (readable net source l).
Proof.
  induction l as [|entry l IH]; simpl; [constructor|].
  destruct (Collector.article_of net source entry) as [a|] eqn:Ha;
    [|constructor].
  constructor; [|exact IH].
  unfold Collector.article_of in Ha.
  destruct (Collector.entry_title entry); [|discriminate].
  destruct (Collector.entry_link entry); [|discriminate].
  injection Ha as <-. split; [reflexivity|].
  exists (Collector.summary_of entry). split; [reflexivity|].
  apply summary_of_clean.
Qed.

Lemma contribution_length (requested : list string) (feed_url : string) :
  (length (contribution net requested feed_url) <= 15)%nat.
Proof.
  unfold contribution.
  destruct (Collector.requests_get net requested feed_url) as [response|];
    [|simpl; lia].
  destruct (Collector.status_code response <? 400); [|simpl; lia].
  destruct (Collector.feedparser_parse net (Collector.content response))
    as [feed|]; [|simpl; lia].
  etransitivity; [apply readable_length|]. apply List.firstn_le_length.
Qed.

Lemma contribution_clean (requested : list string) (feed_url : string) :
  Forall clean_summary (contribution net requested feed_url).
Proof.
  unfold contribution.
  destruct (Collector.requests_get net requested feed_url) as [response|];
    [|constructor].
  destruct (Collector.status_code response <? 400); [|constructor].
  destruct (Collector.feedparser_parse net (Collector.content response))
    as [feed|]; [|constructor].
  eapply List.Forall_impl; [|apply readable_clean]. intros a [_ Ha]. exact Ha.
Qed.

Lemma collect_feed_collected (feed_url : string) (st : Collector.State) :
  Collector.collected (Collector.collect_feed net feed_url st)
    = (Collector.collected st
         ++ contribution net (Collector.requested st) feed_url)%list /\
  Collector.requested (Collector.collect_feed net feed_url st)
    = feed_url :: Collector.requested st.
Proof.
  unfold Collector.collect_feed, contribution. cbv zeta.
  destruct (Collector.requests_get net (Collector.requested st) feed_url)
    as [response|]; [|simpl; rewrite List.app_nil_r; split; reflexivity].
  destruct (Z.eqb_spec (Collector.status_code response) 429) as [H429|H429].
  { replace (Collector.status_code response <? 400) with false
      by (symmetry; apply Z.ltb_ge; lia).
    simpl. rewrite List.app_nil_r. split; reflexivity. }
  destruct (Z.eqb_spec (Collector.status_code response) 403) as [H403|H403].
  { replace (Collector.status_code response <? 400) with false
      by (symmetry; apply Z.ltb_ge; lia).
    simpl. rewrite List.app_nil_r. split; reflexivity. }
  destruct (Z.leb_spec 400 (Collector.status_code response)) as [H400|H400].
  { replace (Collector.status_code response <? 400) with false
      by (symmetry; apply Z.ltb_ge; lia).
    simpl. rewrite List.app_nil_r. split; reflexivity. }
  replace (Collector.status_code response <? 400) with true
    by (symmetry; apply Z.ltb_lt; lia).
  destruct (Collector.feedparser_parse net (Collector.content response))
    as [feed|]; [|simpl; rewrite List.app_nil_r; split; reflexivity].
  destruct (Collector.entries feed) as [|e0 es] eqn:He.
  { simpl. rewrite List.app_nil_r. split; reflexivity. }
  pose proof (collect_entries_readable (Collector.source_label feed_url feed)
                (firstn 15 (e0 :: es)) (Collector.collected st)) as Hr.
  cbn [Collector.collected].
  destruct (Collector.collect_entries net _ (firstn 15 (e0 :: es))
              (Collector.collected st)) as [arts [|]];
    cbn [fst] in Hr; subst arts; split; reflexivity.
Qed.

Lemma collect_feeds_collected (feeds : list string) (st : Collector.State) :
  exists new,
    Collector.collected
      (fold_left (fun st feed_url => Collector.collect_feed net feed_url st)
         feeds st)
      = (Collector.collected st ++ new)%list /\
    (length new <= 15 * length feeds)%nat /\
    Forall clean_summary new.
Proof.
  revert st. induction feeds as [|feed_url feeds IH]; intros st.
  - exists []. simpl. rewrite List.app_nil_r.
    split; [reflexivity|]. split; [lia|constructor].
  - simpl fold_left.
    destruct (IH (Collector.collect_feed net feed_url st)) as (new & Hc & Hl & Hf).
    destruct (collect_feed_collected feed_url st) as [Hc1 _].
    exists (contribution net (Collector.requested st) feed_url ++ new)%list.
    rewrite Hc, Hc1, <- List.app_assoc. split; [reflexivity|].
    pose proof (contribution_length (Collector.requested st) feed_url) as Hl1.
    split.
    + rewrite List.length_app. cbn [length]. lia.
    + apply List.Forall_app. split; [apply contribution_clean|exact Hf].
Qed.

End Contribution.

(** X16.  What [collect_from_rss] returns, whatever the network answers and
    the feeds hold: at most 15 articles for each configured feed, each
    with a summary of at most 500 characters that neither starts nor ends
    with whitespace and holds no tag. *)
Theorem collect_from_rss_clean (net : Collector.Net) (self : NewsCollector)
    (requested : list string) (journal : list Collector.Log) :
  let articles :=
    Collector.collected (collect_from_rss net self requested journal) in
  (length articles <= 15 * length (rss_feeds self))%nat /\
  Forall clean_summary articles.
Proof.
  cbv zeta. unfold collect_from_rss.
  destruct (collect_feeds_collected net (rss_feeds self)
              {| Collector.collected := [];
                 Collector.requested := requested;
                 Collector.journal := journal |}) as (new & Hc & Hl & Hf).
  rewrite Hc. simpl. split; assumption.
Qed.

(** X17.  One feed cannot spoil a collection.  A turn of the loop over the
    feeds only appends to the list of articles: nothing when the request
    raises, is answered with a status of 400 or more, cannot be parsed or
    has no entries; otherwise the articles of the first 15 entries, up to
    the first entry without title or link, which ends the turn while the
    entries before it are kept.  The feed is requested exactly once. *)
Theorem collect_feed_isolated (net : Collector.Net) (feed_url : string)
    (st : Collector.State) :
  let st' := Collector.collect_feed net feed_url st in
  let new := contribution net (Collector.requested st) feed_url in
  Collector.collected st' = (Collector.collected st ++ new)%list /\
  Collector.requested st' = feed_url :: Collector.requested st /\
  (length new <= 15)%nat /\
  (forall response,
     Collector.requests_get net (Collector.requested st) feed_url = Some response ->
     Collector.status_code response < 400 ->
     forall feed,
       Collector.feedparser_parse net (Collector.content response) = Some feed ->
       new = readable net (Collector.source_label feed_url feed)
               (firstn 15 (Collector.entries feed))) /\
  (Collector.requests_get net (Collector.requested st) feed_url = None \/
   (exists response,
      Collector.requests_get net (Collector.requested st) feed_url = Some response /\
      (400 <= Collector.status_code response \/
       Collector.feedparser_parse net (Collector.content response) = None)) ->
   new = []).
Proof.
  cbv zeta. destruct (collect_feed_collected net feed_url st) as [Hc Hr].
  split; [exact Hc|]. split; [exact Hr|].
  split; [apply contribution_length|]. split.
  - intros response Hg Hs feed Hp. unfold contribution. rewrite Hg.
    replace (Collector.status_code response <? 400) with true
      by (symmetry; apply Z.ltb_lt; lia).
    rewrite Hp. reflexivity.
  - unfold contribution. intros [Hg|(response & Hg & [Hs|Hp])]; rewrite Hg.
    + reflexivity.
    + replace (Collector.status_code response <? 400) with false
        by (symmetry; apply Z.ltb_ge; lia).
      reflexivity.
    + destruct (Collector.status_code response <? 400); [|reflexivity].
      rewrite Hp. reflexivity.
Qed.

(** The collector on a network where the first feed has an entry without
    link, the second answers 503 and the third does not answer: one
    article, the one before the broken entry. *)
Example scenario_flaky_network :
  let st := collect_from_rss net_flaky NewsCollector_init [] [] in
  map data_url (Collector.collected st) = ["https://r/1"] /\
  map data_summary (Collector.collected st) = [Some "Test your backups"] /\
  map data_source (Collector.collected st) = ["reddit:r/sysadmin"] /\
  length (Collector.requested st) = 3%nat.
Proof. vm_compute. repeat split; reflexivity. Qed.

(** ** A collection cycle *)

Lemma collect_feeds_requested (net : Collector.Net) (feeds : list string)
    (st : Collector.State) :
  Collector.requested
    (fold_left (fun st feed_url => Collector.collect_feed net feed_url st)
       feeds st)
    = (rev feeds ++ Collector.requested st)%list.
Proof.
  revert st. induction feeds as [|feed_url feeds IH]; intros st; [reflexivity|].
  simpl fold_left. rewrite IH.
  rewrite (proj2 (collect_feed_collected net feed_url st)).
  simpl rev. rewrite <- List.app_assoc. reflexivity.
Qed.

(** X18.  A collection cycle returns the number of rows it has added, and
    only adds rows: at most 15 for each configured feed.  It requests each
    configured feed exactly once, in order, and it keeps the invariant of
    the two stores; no failure of the network, of a feed, of the adapters
    or of the stores makes it raise. *)
Theorem run_collection_cycle_saves (net : Collector.Net) (env : Env)
    (settings : Settings) (clf : ClassificationService) (self : NewsCollector)
    (sys : System) :
  let r := run_collection_cycle net env settings clf self sys in
  exists new,
    fst r = Ok (Z.of_nat (length new)) /\
    articles (sys_world (snd r)) = (articles (sys_world sys) ++ new)%list /\
    (length new <= 15 * length (rss_feeds self))%nat /\
    sys_requested (snd r) = (rev (rss_feeds self) ++ sys_requested sys)%list /\
    (well_formed (sys_world sys) -> well_formed (sys_world (snd r))).
Proof.
  cbv zeta. unfold run_collection_cycle.
  set (st := collect_from_rss net self (sys_requested sys) (sys_journal sys)).
  pose proof (collect_from_rss_bound := collect_feeds_collected net (rss_feeds self)
                {| Collector.collected := [];
                   Collector.requested := sys_requested sys;
                   Collector.journal := sys_journal sys |}).
  destruct collect_from_rss_bound as (batch & Hb & Hbl & _).
  fold (collect_from_rss net self (sys_requested sys) (sys_journal sys)) in Hb.
  fold st in Hb. simpl in Hb.
  pose proof (save_articles_invariant env settings clf (Collector.collected st)
                (sys_world sys)) as Hwf.
  rewrite save_articles_run in Hwf |- *. cbn [fst snd sys_world sys_requested] in *.
  destruct (save_loop_grows env settings clf (Collector.collected st)
              (init_frame (sys_world sys)) eq_refl) as (_ & new & Ha & Hn & Hl).
  fold (frame_after env settings clf (Collector.collected st) (sys_world sys))
    in Ha, Hn.
  cbn [world init_frame saved_count] in Ha, Hn.
  exists new. rewrite Hn, Ha. split; [reflexivity|]. split; [reflexivity|].
  split; [rewrite Hb in Hl; lia|].
  split; [|exact Hwf].
  subst st. unfold collect_from_rss. rewrite collect_feeds_requested. reflexivity.
Qed.

(** [run_collection_cycle_saves] on the flaky network: one row is added. *)
Lemma run_collection_cycle_saves_witness :
  let r := run_collection_cycle net_flaky env_ok settings_live
             (classifier settings_live) NewsCollector_init empty_system in
  fst r = Ok 1 /\
  map Article.url (articles (sys_world (snd r))) = ["https://r/1"] /\
  well_formed (sys_world (snd r)).
Proof.
  cbv zeta.
  destruct (run_collection_cycle_saves net_flaky env_ok settings_live
              (classifier settings_live) NewsCollector_init empty_system)
    as (new & Hr & Ha & _ & _ & Hw).
  split; [reflexivity|]. split; [reflexivity|].
  apply Hw. apply empty_world_well_formed.
Defined.

(** ** The ingestor keeps the Vector Index complete *)

Lemma well_formed_coherent (w : World) : well_formed w -> coherent w.
Proof.
  intros Hw e He. destruct (wf_snapshot w Hw e He) as (r & Hr & Heq).
  exists r. split; [exact Hr|]. rewrite Heq. reflexivity.
Qed.

Lemma unindexed_nil (w : World) :
  unindexed (collection w) (articles w) = [] -> fully_indexed w.
Proof.
  intros Hu r Hr.
  destruct (has_record (Article.id r) (collection w)) eqn:Hh; [reflexivity|].
  exfalso. assert (Hin : In r (unindexed (collection w) (articles w))).
  { unfold unindexed. apply List.filter_In. split; [exact Hr|].
    rewrite Hh. reflexivity. }
  rewrite Hu in Hin. destruct Hin.
Qed.

(** On well-formed stores where every row has a record, every row has
    exactly one, and there are as many records as rows. *)
Lemma fully_indexed_counts (w : World) :
  well_formed w -> fully_indexed w ->
  (forall r, In r (articles w) ->
     records_for (Article.id r) (collection w) = 1%nat) /\
  length (collection w) = length (articles w).
Proof.
  intros Hw Hf.
  assert (Hone : forall r, In r (articles w) ->
            records_for (Article.id r) (collection w) = 1%nat).
  { intros r Hr.
    pose proof (records_for_le_1 (Article.id r) (collection w) (wf_records w Hw)).
    pose proof (proj1 (has_record_true _ _) (Hf r Hr)). lia. }
  split; [exact Hone|].
  apply Nat.le_antisymm; [apply well_formed_counts; exact Hw|].
  rewrite <- (List.length_map emb_id (collection w)).
  rewrite <- (List.length_map (fun r => Py.str (Article.id r)) (articles w)).
  apply List.NoDup_incl_length.
  - apply NoDup_str_ids. apply (wf_ids w Hw).
  - intros x Hx. apply in_map_iff in Hx. destruct Hx as (r & <- & Hin).
    apply records_for_In. rewrite (Hone r Hin). lia.
Qed.

Section Complete.

Context (env : Env) (settings : Settings) (clf : ClassificationService).

Hypothesis embedder_ok : embedder_works env.
Hypothesis index_ok : index_accepts env.

(** With an embedder that answers and an index that accepts the writes, a
    turn of the ingestion loop gives the row it inserts its record. *)
Lemma save_one_indexed (a : ArticleData) (f : Frame) :
  session_new f = [] ->
  well_formed (world f) -> fully_indexed (world f) ->
  fully_indexed (world (snd (save_one env settings clf a f))).
Proof.
  intros Hs Hw Hf. rewrite (save_one_run env settings clf a f Hs).
  pose proof (classify_article_effect env settings clf (data_title a)
                (get_summary a) (world f)) as He.
  cbv zeta in He. destruct He as (Ha1 & Hc1 & _).
  destruct (classify_article env settings clf (data_title a) (get_summary a)
              (world f)) as [[c|e] w1]; cbn [snd] in Ha1, Hc1.
  - cbv zeta.
    destruct (url_exists (data_url a) (articles w1));
      [intros r Hr; cbn in Hr |- *; rewrite Ha1 in Hr; rewrite Hc1;
       exact (Hf r Hr)|].
    destruct (commit_fails env (trace w1) (init_of a c));
      [intros r Hr; cbn in Hr |- *; rewrite Ha1 in Hr; rewrite Hc1;
       exact (Hf r Hr)|].
    cbn [snd world mk_frame].
    set (row := new_row (articles w1) (utcnow env (trace w1)) (init_of a c)).
    set (w3 := add_event EvSqlSelect
                 (put_articles (articles w1 ++ [row])
                    (add_event (EvSqlInsert (data_url a)) w1))).
    assert (Hfresh : records_for (Article.id row) (collection w3) = 0%nat).
    { apply has_record_false.
      change (collection w3) with (collection w1). rewrite Hc1.
      change (Article.id row) with (next_id (articles w1)). rewrite Ha1.
      apply coherent_fresh. apply well_formed_coherent. exact Hw. }
    destruct (embedder_ok (EvCollectionGet :: trace w3)
                (embedding_text (Article.title row)
                   (Py.or_empty (Article.summary row)))) as (x & v & Hx).
    destruct (add_article_creates env (Article.id row) (Article.title row)
                (Py.or_empty (Article.summary row)) (Some c) (Article.source row)
                w3 x v Hfresh Hx) as (e & Hid & _ & _ & Hcol).
    { intros e. apply index_ok. }
    pose proof (add_article_articles env (Article.id row) (Article.title row)
                  (Py.or_empty (Article.summary row)) (Some c)
                  (Article.source row) w3) as Hart.
    intros r Hr. rewrite Hart in Hr. rewrite Hcol.
    change (articles w3) with (articles w1 ++ [row])%list in Hr.
    change (collection w3) with (collection w1). rewrite Hc1.
    apply has_record_true. rewrite records_for_app.
    apply List.in_app_iff in Hr. destruct Hr as [Hr|[<-|[]]].
    + rewrite Ha1 in Hr. pose proof (proj1 (has_record_true _ _) (Hf r Hr)). lia.
    + rewrite (records_for_one (Article.id row) (Article.id row) e Hid).
      rewrite Z.eqb_refl. lia.
  - intros r Hr.
    assert (Hr' : In r (articles w1)) by (destruct e; exact Hr).
    assert (Hc' : collection
                    (world
                       (mk_frame
                          match e with
                          | IntegrityError => add_event EvSqlRollback w1
                          | _ => add_log ErrSavingArticle
                                   (add_event EvSqlRollback w1)
                          end (saved_count f))) = collection w1)
      by (destruct e; reflexivity).
    cbn [snd]. rewrite Hc', Hc1. rewrite Ha1 in Hr'. exact (Hf r Hr').
Qed.

Lemma save_articles_indexed (batch : list ArticleData) (w : World) :
  well_formed w -> fully_indexed w ->
  well_formed (snd (save_articles env settings clf batch w)) /\
  fully_indexed (snd (save_articles env settings clf batch w)).
Proof.
  intros Hw Hf. rewrite save_articles_run. cbn [snd]. unfold frame_after.
  apply (save_loop_invariant env settings clf
           (fun f => well_formed (world f) /\ fully_indexed (world f))).
  - intros a f Hs [Hw' Hf']. split.
    + apply save_one_well_formed; assumption.
    + apply save_one_indexed; assumption.
  - reflexivity.
  - split; assumption.
Qed.

Lemma sync_indexed (w : World) :
  well_formed w ->
  well_formed (snd (sync_missing_embeddings env w)) /\
  fully_indexed (snd (sync_missing_embeddings env w)).
Proof.
  intros Hw.
  destruct (sync_heals env w (wf_ids w Hw)) as (w' & new & Hs & _ & _ & _ & _ & _ & Hu).
  { intros r _ tr. apply embedder_ok. }
  { exact index_ok. }
  destruct (sync_shape env w) as (w2 & new2 & Hs2 & _ & _ & Hw2).
  rewrite Hs in Hs2. injection Hs2 as <-. rewrite Hs. cbn [snd].
  split; [exact (Hw2 Hw)|apply unindexed_nil; exact Hu].
Qed.

End Complete.

(** X19.  The ingestor keeps the Vector Index complete.  Started on
    well-formed stores with an embedder that answers and an index that
    accepts the writes, it first heals whatever drift it finds, and from
    then on, after the first cycle and after every scheduled cycle,
    whatever the network delivers, every article has exactly one
    Embedding Record. *)
Theorem run_ingestor_index_complete (net : Collector.Net) (env : Env)
    (settings : Settings) (clf : ClassificationService) (k : nat) (sys : System) :
  well_formed (sys_world sys) ->
  embedder_works env -> index_accepts env ->
  let w := sys_world (run_ingestor net env settings clf k sys) in
  well_formed w /\
  (forall r, In r (articles w) ->
     records_for (Article.id r) (collection w) = 1%nat) /\
  length (collection w) = length (articles w).
Proof.
  intros Hw Hemb Hacc. cbv zeta.
  assert (Hcycle : forall self s,
            well_formed (sys_world s) /\ fully_indexed (sys_world s) ->
            well_formed (sys_world
                           (snd (run_collection_cycle net env settings clf self s))) /\
            fully_indexed (sys_world
                             (snd (run_collection_cycle net env settings clf self s)))).
  { intros self s [Hw' Hf']. unfold run_collection_cycle.
    pose proof (save_articles_indexed env settings clf Hemb Hacc
                  (Collector.collected
                     (collect_from_rss net self (sys_requested s) (sys_journal s)))
                  (sys_world s) Hw' Hf') as Hsave.
    destruct (save_articles env settings clf _ (sys_world s)) as [res w'].
    exact Hsave. }
  assert (Hall : well_formed (sys_world (run_ingestor net env settings clf k sys)) /\
                 fully_indexed (sys_world (run_ingestor net env settings clf k sys))).
  { unfold run_ingestor. cbv zeta. induction k as [|k IH].
    - simpl scheduled. apply Hcycle. cbn [sys_world].
      apply sync_indexed; assumption.
    - simpl scheduled. apply Hcycle. exact IH. }
  destruct Hall as [Hw' Hf']. split; [exact Hw'|].
  apply fully_indexed_counts; assumption.
Qed.

(** [run_ingestor_index_complete] on the flaky network, started on stores
    with drift, after two scheduled cycles. *)
Lemma run_ingestor_index_complete_witness :
  let w := sys_world
             (run_ingestor net_flaky env_ok settings_live
                (classifier settings_live) 2
                {| sys_requested := []; sys_journal := [];
                   sys_world := world_unindexed |}) in
  length (articles w) = 2%nat /\
  length (collection w) = length (articles w).
Proof.
  cbv zeta.
  destruct (run_ingestor_index_complete net_flaky env_ok settings_live
              (classifier settings_live) 2
              {| sys_requested := []; sys_journal := [];
                 sys_world := world_unindexed |})
    as (_ & _ & Hl).
  - constructor; vm_compute.
    + constructor; [intros []|constructor].
    + constructor; [intros []|constructor].
    + constructor.
    + intros e [].
  - intros tr text. exists 1%Q, [0%Q]. reflexivity.
  - intros tr e. reflexivity.
  - split; [reflexivity|exact Hl].
Defined.

(** ** What a batch and a run of the reconciler cost *)

Section Accounting.

Context (env : Env) (settings : Settings) (clf : ClassificationService).

Lemma save_loop_accounting (l : list ArticleData) (f : Frame) :
  session_new f = [] ->
  let f' := snd (save_loop env settings clf l f) in
  exists new recs,
    articles (world f') = (articles (world f) ++ new)%list /\
    saved_count f' = saved_count f + Z.of_nat (length new) /\
    (length new <= length l)%nat /\
    collection (world f') = (collection (world f) ++ recs)%list /\
    (length recs <= length new)%nat /\
    (embed_calls (trace (world f'))
       <= embed_calls (trace (world f)) + length new)%nat.
Proof.
  revert f. induction l as [|a l IH]; intros f Hs; cbv zeta.
  - exists [], []. simpl. rewrite !List.app_nil_r.
    repeat split; lia.
  - rewrite save_loop_cons by assumption.
    destruct (save_one_effect env settings clf a f Hs)
      as (_ & Hs' & _ & _ & Hcase).
    destruct (IH _ Hs') as (new & recs & Ha & Hn & Hlen & Hc & Hrl & He).
    destruct Hcase as [(Ha1 & Hc1 & Hn1 & He1 & _)
                      |(c & w1 & row & _ & _ & _ & _ & Ha1 & Hn1 & Hc1 & He1)].
    + exists new, recs. rewrite Ha, Ha1, Hn, Hn1, Hc, Hc1.
      cbn [length]. repeat split; lia.
    + assert (He2 : (embed_calls
                       (trace (world (snd (save_one env settings clf a f))))
                     <= S (embed_calls (trace (world f))))%nat).
      { rewrite He1. destruct (has_record _ _); lia. }
      destruct Hc1 as [Hc1|(_ & e & _ & Hc1)].
      * exists (row :: new), recs.
        rewrite Ha, Ha1, Hn, Hn1, Hc, Hc1, <- List.app_assoc.
        cbn [length List.app]. repeat split; lia.
      * exists (row :: new), (e :: recs).
        rewrite Ha, Ha1, Hn, Hn1, Hc, Hc1, <- !List.app_assoc.
        cbn [length List.app]. repeat split; lia.
Qed.

Lemma sync_loop_cost (existing : gset string) (l : list Article.t) (m : Z)
    (w : World) :
  (embed_calls (trace (snd (sync_loop env existing l m w)))
     <= embed_calls (trace w)
        + length (List.filter
                    (fun r => negb (bool_decide (Py.str (Article.id r) ∈ existing)))
                    l))%nat.
Proof.
  revert m w. induction l as [|r l IH]; intros m w; [simpl; lia|].
  simpl sync_loop. cbn [List.filter].
  destruct (negb (bool_decide (Py.str (Article.id r) ∈ existing)));
    [|apply IH].
  unfold bind.
  pose proof (add_article_ok env (Article.id r) (Article.title r)
                (Py.or_empty (Article.summary r)) (Article.category r)
                (Article.source r) w) as Hok.
  pose proof (add_article_embed_calls env (Article.id r) (Article.title r)
                (Py.or_empty (Article.summary r)) (Article.category r)
                (Article.source r) w) as Hec.
  destruct (add_article env _ _ _ _ _ w) as [res w1]. simpl in Hok, Hec.
  subst res. specialize (IH (m + 1) w1). cbn [length].
  destruct (has_record _ _); lia.
Qed.

End Accounting.

(** X20.  The accounts of a batch.  Whatever the adapters and the stores
    do, [save_articles] never raises and returns exactly the number of
    rows it has added; it only appends rows, at most one for each article
    of the batch, and only appends Embedding Records, at most one for each
    row added; it classifies every article of the batch exactly once and
    calls the embedder at most once for each row added. *)
Theorem save_articles_accounting (env : Env) (settings : Settings)
    (clf : ClassificationService) (batch : list ArticleData) (w : World) :
  let r := save_articles env settings clf batch w in
  exists new recs,
    fst r = Ok (Z.of_nat (length new)) /\
    articles (snd r) = (articles w ++ new)%list /\
    (length new <= length batch)%nat /\
    collection (snd r) = (collection w ++ recs)%list /\
    (length recs <= length new)%nat /\
    classify_calls (trace (snd r))
      = (classify_calls (trace w) + length batch)%nat /\
    (embed_calls (trace (snd r)) <= embed_calls (trace w) + length new)%nat.
Proof.
  cbv zeta. rewrite save_articles_run. cbn [fst snd]. unfold frame_after.
  destruct (save_loop_accounting env settings clf batch (init_frame w) eq_refl)
    as (new & recs & Ha & Hn & Hl & Hc & Hrl & He).
  destruct (save_loop_grows env settings clf batch (init_frame w) eq_refl)
    as (Hcl & _).
  cbn [world init_frame saved_count] in *.
  exists new, recs. rewrite Hn.
  split; [reflexivity|]. split; [exact Ha|]. split; [exact Hl|].
  split; [exact Hc|]. split; [exact Hrl|]. split; [exact Hcl|exact He].
Qed.

(** X21.  What the reconciler costs.  Whatever the embedder and the Vector
    Index answer, [sync_missing_embeddings] calls the embedder at most once
    for each article without Embedding Record; when every article has a
    record it calls the embedder not at all, leaves the Vector Index as it
    is and logs that nothing was missing. *)
Theorem sync_cost (env : Env) (w : World) :
  let w' := snd (sync_missing_embeddings env w) in
  (embed_calls (trace w')
     <= embed_calls (trace w)
        + length (unindexed (collection w) (articles w)))%nat /\
  (unindexed (collection w) (articles w) = [] ->
   articles w' = articles w /\
   collection w' = collection w /\
   embed_calls (trace w') = embed_calls (trace w) /\
   log w' = InfoSyncComplete (Z.of_nat (length (articles w))) 0 :: log w).
Proof.
  cbv zeta. rewrite sync_run. cbv zeta.
  set (w3 := if 0 <? Z.of_nat (length (collection w)) then _ else _).
  assert (Ha3 : articles w3 = articles w) by (subst w3; destruct (0 <? _); reflexivity).
  assert (Hc3 : collection w3 = collection w) by (subst w3; destruct (0 <? _); reflexivity).
  assert (Hl3 : log w3 = log w) by (subst w3; destruct (0 <? _); reflexivity).
  assert (He3 : embed_calls (trace w3) = embed_calls (trace w))
    by (subst w3; destruct (0 <? _); reflexivity).
  assert (Hmiss : List.filter
            (fun r => negb (bool_decide
                              (Py.str (Article.id r) ∈ existing_ids_of (collection w))))
            (articles w) = unindexed (collection w) (articles w)).
  { unfold unindexed. apply List.filter_ext. intros r.
    rewrite existing_ids_of_has_record. reflexivity. }
  split.
  - pose proof (sync_loop_cost env (existing_ids_of (collection w)) (articles w)
                  0 w3) as Hcost.
    rewrite Hmiss, He3 in Hcost.
    destruct (sync_loop env _ (articles w) 0 w3) as [[n|e] w4];
      cbn [snd trace add_log] in *; exact Hcost.
  - intros Hu.
    rewrite (sync_loop_skip env (existing_ids_of (collection w)) (articles w) 0 w3).
    + cbn [snd articles collection trace log add_log].
      rewrite Ha3, Hc3, He3, Hl3. repeat split.
    + intros r Hr.
      assert (Hh : negb (bool_decide
                           (Py.str (Article.id r) ∈ existing_ids_of (collection w)))
                   = false).
      { destruct (negb _) eqn:Hn; [|reflexivity]. exfalso.
        assert (Hin : In r (unindexed (collection w) (articles w))).
        { rewrite <- Hmiss. apply List.filter_In. split; assumption. }
        rewrite Hu in Hin. destruct Hin. }
      apply negb_false_iff in Hh. apply bool_decide_eq_true_1 in Hh. exact Hh.
Qed.

(** [sync_cost] on the world of the scenario, where the one article has its
    record: even a failing embedder is not noticed. *)
Lemma sync_cost_witness :
  let w' := snd (sync_missing_embeddings env_no_embedding world_one) in
  collection w' = collection world_one /\
  embed_calls (trace w') = embed_calls (trace world_one) /\
  log w' = InfoSyncComplete 1 0 :: log world_one.
Proof.
  cbv zeta. destruct (sync_cost env_no_embedding world_one) as [_ H].
  destruct (H eq_refl) as (_ & Hc & He & Hl).
  split; [exact Hc|]. split; [exact He|exact Hl].
Defined.
